(** * Flight-search pipeline of the chat assistant: a shallow embedding

    The development follows the TypeScript sources of the flight-search
    pipeline:

    - [lib/services/flight-request-builder-simple]  (request builder),
    - [lib/services/amadeus-auth]                   (token cache),
    - [lib/services/amadeus-fetch]                  (retrying fetch client),
    - [lib/services/flight-offers-utils]            (filter / sort),
    - [app/api/flight-offers-filter/route.ts]       (filter / sort / paginate),
    - [app/api/flight-assistant/route.ts]           (the two chat tools).

    JavaScript numbers that are integers in every run of interest (counters,
    millisecond clocks, HTTP statuses, array lengths) are [Z] or [nat];
    numbers obtained by parsing text and by arithmetic on them are binary64
    values (see [JS.number] and [JS.round64]); [undefined] / [null] is
    [None]; a thrown exception is the [Throw] branch of [result].

    A [string] stands for the sequence of its code units.  The functions of
    the language that consult Unicode tables ([toUpperCase], [trim], the
    blanks skipped by [Number] and [parseFloat]) are embedded as they act
    on ASCII text (see [ascii_text]): letters and blanks outside ASCII are
    left as they are.

    What the language leaves to the engine is a parameter: the reading of
    dates, JSON, and the order in which [Array.prototype.sort] leaves an
    array when the comparator is not a consistent one (see [JS.sorts]). *)

From Stdlib Require Import ZArith QArith List String Ascii Bool Lia.
From Stdlib Require Import Qround Qpower Qreduction Lqa Permutation Sorted DecimalString.
Import ListNotations.

Open Scope string_scope.
Open Scope Z_scope.

(* ================================================================== *)
(** * Built-ins of the host language used by the sources *)
(* ================================================================== *)

Module JS.

(** Exceptions that the modelled code can raise. *)
Inductive exn : Type :=
| TypeError                       (* property access on [undefined] *)
| NetworkError                    (* [fetch] rejected: no response *)
| AuthFailed (status : Z) (text : string). (* [new Error('Amadeus auth failed: ...')] *)

Inductive result (A : Type) : Type :=
| Ok (a : A)
| Throw (e : exn).
Arguments Ok {A} a.
Arguments Throw {A} e.

Definition bind {A B : Type} (m : result A) (k : A -> result B) : result B :=
  match m with
  | Ok a => k a
  | Throw e => Throw e
  end.

(** [x.f] where [x] may be [undefined]. *)
Definition deref {A : Type} (x : option A) : result A :=
  match x with
  | Some a => Ok a
  | None => Throw TypeError
  end.

(** Truthiness of an optional object and of an optional string. *)
Definition truthy_obj {A : Type} (x : option A) : bool :=
  match x with Some _ => true | None => false end.

Definition truthy_str (x : option string) : bool :=
  match x with
  | Some EmptyString => false
  | Some _ => true
  | None => false
  end.

(** [String(n)] for a natural number: its decimal numeral. *)
Definition String_ (n : nat) : string :=
  NilEmpty.string_of_uint (Nat.to_uint n).

(** [c.toUpperCase()] on one ASCII character. *)
Definition upper_ascii (c : ascii) : ascii :=
  let n := nat_of_ascii c in
  if (Nat.leb 97 n && Nat.leb n 122)%bool then ascii_of_nat (n - 32) else c.

(** [s.toUpperCase()] on ASCII text: the letters [a] to [z] are mapped to
    [A] to [Z] and every other code unit below 128 is kept, as in the
    language.  Code units from 128 on are kept too, which is not always
    what the language does with them (it maps U+00DF to [SS], for one). *)
Fixpoint toUpperCase (s : string) : string :=
  match s with
  | EmptyString => EmptyString
  | String c r => String (upper_ascii c) (toUpperCase r)
  end.

(** [s.slice(0, n)]. *)
Definition slice0 (n : nat) (s : string) : string := substring 0 n s.

(** [arr.slice(start, end)] with the relative-index rules of the language:
    a negative index counts from the end, and both are clamped to the
    array. *)
Definition rel_index (len k : Z) : Z :=
  if k <? 0 then Z.max (len + k) 0 else Z.min k len.

Definition Array_slice {A : Type} (l : list A) (start stop : Z) : list A :=
  let len := Z.of_nat (List.length l) in
  let k := rel_index len start in
  let final := rel_index len stop in
  firstn (Z.to_nat (final - k)) (skipn (Z.to_nat k) l).

(** ** Numbers

    A number is [NaN], an infinity, or a finite binary64 value, kept as
    the rational it denotes.  The sign of zero is not kept: the sources
    never divide by, print, or otherwise tell apart the two zeros of a
    number they have computed. *)
Inductive number : Type :=
| NaN
| NegInf
| Num (q : Q)
| PosInf.

(** An integer below [2^53] in absolute value, as a number. *)
Definition num_of_Z (z : Z) : number := Num (inject_Z z).

Definition num_opp (a : number) : number :=
  match a with
  | NaN => NaN
  | NegInf => PosInf
  | Num q => Num (- q)
  | PosInf => NegInf
  end.

(** *** Rounding to binary64

    [round64 q] is the binary64 value nearest to the rational [q], ties
    going to the even significand (round-to-nearest-even, the rounding
    of every arithmetic operation and of every numeric literal of the
    language), or an infinity when that value would not be below
    [2^1024] in absolute value. *)

Definition pow2 (e : Z) : Q := Qpower 2 e.

(** The integer nearest to [x], the even one of the two when [x] lies
    half-way. *)
Definition nearest_even (x : Q) : Z :=
  let k := Qfloor x in
  match (x - inject_Z k ?= 1 # 2)%Q with
  | Lt => k
  | Gt => k + 1
  | Eq => if Z.even k then k else k + 1
  end.

(** The integer part of the binary logarithm of [q > 0]. *)
Definition ilog2 (q : Q) : Z :=
  let l := Z.log2 (Qnum q) - Z.log2 (Zpos (Qden q)) in
  if Qle_bool (pow2 l) q then l else l - 1.

(** The exponent of the last place of the binary64 values around
    [q > 0]: 53 significant bits, and no exponent below that of the
    subnormal numbers. *)
Definition grid_exponent (q : Q) : Z := Z.max (-1074) (ilog2 q - 52).

Definition round_positive (q : Q) : number :=
  let e := grid_exponent q in
  let m := nearest_even (q / pow2 e) in
  let v := (inject_Z m * pow2 e)%Q in
  if Qle_bool (pow2 1024) v then PosInf else Num (Qred v).

Definition round64 (q : Q) : number :=
  let r := Qred q in
  match Qnum r with
  | Z0 => Num 0
  | Zpos _ => round_positive r
  | Zneg _ => num_opp (round_positive (- r))
  end.

(** *** Comparison and arithmetic *)

(** [a <= b]; every comparison with [NaN] is false. *)
Definition num_le (a b : number) : bool :=
  match a, b with
  | NaN, _ | _, NaN => false
  | NegInf, _ => true
  | _, PosInf => true
  | Num x, Num y => Qle_bool x y
  | _, _ => false
  end.

Definition Math_min (a b : number) : number :=
  match a, b with
  | NaN, _ | _, NaN => NaN
  | _, _ => if num_le a b then a else b
  end.

Definition Math_max (a b : number) : number :=
  match a, b with
  | NaN, _ | _, NaN => NaN
  | _, _ => if num_le a b then b else a
  end.

(** [a + b] *)
Definition num_add (a b : number) : number :=
  match a, b with
  | NaN, _ | _, NaN => NaN
  | Num x, Num y => round64 (x + y)
  | PosInf, NegInf | NegInf, PosInf => NaN
  | PosInf, _ | _, PosInf => PosInf
  | NegInf, _ | _, NegInf => NegInf
  end.

(** [a - b] *)
Definition num_sub (a b : number) : number := num_add a (num_opp b).

(** The sign of a number that is not [NaN]. *)
Definition num_sign (a : number) : comparison :=
  match a with
  | NaN => Eq
  | NegInf => Lt
  | Num q => (q ?= 0)%Q
  | PosInf => Gt
  end.

(** [a * b] *)
Definition num_mul (a b : number) : number :=
  match a, b with
  | NaN, _ | _, NaN => NaN
  | Num x, Num y => round64 (x * y)
  | _, _ =>
      match num_sign a, num_sign b with
      | Eq, _ | _, Eq => NaN
      | Lt, Lt | Gt, Gt => PosInf
      | _, _ => NegInf
      end
  end.

(** ** Numbers read from text *)

Definition is_digit (c : ascii) : bool :=
  let n := nat_of_ascii c in (Nat.leb 48 n && Nat.leb n 57)%bool.

Definition is_space (c : ascii) : bool :=
  let n := nat_of_ascii c in
  ((Nat.leb 9 n && Nat.leb n 13) || Nat.eqb n 32)%bool.

Definition digit_val (c : ascii) : Z := Z.of_nat (nat_of_ascii c - 48).

(** The longest run of decimal digits at the head of [s], and the rest. *)
Fixpoint span_digits (s : string) : string * string :=
  match s with
  | EmptyString => (EmptyString, EmptyString)
  | String c r =>
      if is_digit c
      then let (d, r') := span_digits r in (String c d, r')
      else (EmptyString, s)
  end.

Fixpoint digits_value (acc : Z) (d : string) : Z :=
  match d with
  | EmptyString => acc
  | String c r => digits_value (10 * acc + digit_val c) r
  end.

(** The integer that a run of decimal digits denotes.  [parseInt(d, 10)]
    is this integer rounded to binary64, see [parseInt]. *)
Definition parseInt10 (d : string) : Z := digits_value 0 d.

(** The number nearest to an integer. *)
Definition to_number (z : Z) : number := round64 (inject_Z z).

(** [parseInt(d, 10)] on a non-empty run of digits. *)
Definition parseInt (d : string) : number := to_number (parseInt10 d).

Fixpoint skip_spaces (s : string) : string :=
  match s with
  | String c r => if is_space c then skip_spaces r else s
  | EmptyString => EmptyString
  end.

Definition take_sign (s : string) : bool * string :=
  match s with
  | String "-" r => (true, r)
  | String "+" r => (false, r)
  | _ => (false, s)
  end.

(** Optional exponent part [e±ddd]; nothing is consumed when no digit
    follows. *)
Definition take_exponent (s : string) : Z * string :=
  match s with
  | String c r =>
      if (Ascii.eqb c "e" || Ascii.eqb c "E")%bool then
        let (neg, r1) := take_sign r in
        let (d, r2) := span_digits r1 in
        match d with
        | EmptyString => (0, s)
        | _ => ((if neg then - parseInt10 d else parseInt10 d), r2)
        end
      else (0, s)
  | EmptyString => (0, s)
  end.

(** Unsigned decimal literal at the head of [s]: digits, optional
    fraction, optional exponent; the rational it denotes and the rest. *)
Definition take_unsigned (s : string) : option (Q * string) :=
  let (ip, r1) := span_digits s in
  let (fp, r2) :=
    match r1 with
    | String "." r => span_digits r
    | _ => (EmptyString, r1)
    end in
  match ip, fp with
  | EmptyString, EmptyString => None
  | _, _ =>
      let (e, r3) := take_exponent r2 in
      Some (inject_Z (parseInt10 (ip ++ fp))
              * Qpower 10 (e - Z.of_nat (String.length fp)), r3)%Q
  end.

Definition signed (neg : bool) (q : Q) : Q := if neg then Qopp q else q.

(** [parseFloat(s)]: the longest decimal literal after leading blanks,
    rounded to binary64. *)
Definition parseFloat (s : string) : number :=
  let (neg, body) := take_sign (skip_spaces s) in
  if prefix "Infinity" body then (if neg then NegInf else PosInf)
  else match take_unsigned body with
       | Some (q, _) => round64 (signed neg q)
       | None => NaN
       end.

(** The value of [c] as a digit of the given radix, if it is one. *)
Definition digit_in (radix : Z) (c : ascii) : option Z :=
  let n := Z.of_nat (nat_of_ascii c) in
  let v := if (48 <=? n) && (n <=? 57) then n - 48
           else if (97 <=? n) && (n <=? 102) then n - 87
           else if (65 <=? n) && (n <=? 70) then n - 55
           else radix in
  if v <? radix then Some v else None.

(** The digits of the given radix at the head of [s]: the integer they
    denote after [acc], and the rest. *)
Fixpoint radix_digits (radix acc : Z) (s : string) : Z * string :=
  match s with
  | EmptyString => (acc, EmptyString)
  | String c r =>
      match digit_in radix c with
      | Some v => radix_digits radix (radix * acc + v) r
      | None => (acc, s)
      end
  end.

(** The radix announced by the second character of [0x], [0o], [0b]. *)
Definition radix_of (c : ascii) : option Z :=
  if (Ascii.eqb c "x" || Ascii.eqb c "X")%bool then Some 16
  else if (Ascii.eqb c "o" || Ascii.eqb c "O")%bool then Some 8
  else if (Ascii.eqb c "b" || Ascii.eqb c "B")%bool then Some 2
  else None.

(** A signed decimal literal, or [Infinity], that must fill [s] up to
    trailing blanks. *)
Definition decimal_literal (s : string) : number :=
  let (neg, body) := take_sign s in
  if prefix "Infinity" body then
    match skip_spaces (substring 8 (String.length body) body) with
    | EmptyString => if neg then NegInf else PosInf
    | _ => NaN
    end
  else match take_unsigned body with
       | Some (q, rest) =>
           match skip_spaces rest with
           | EmptyString => round64 (signed neg q)
           | _ => NaN
           end
       | None => NaN
       end.

(** An unsigned literal in radix 16, 8 or 2 after its two-character
    prefix: at least one digit, then blanks only. *)
Definition radix_literal (radix : Z) (s : string) : number :=
  match s with
  | EmptyString => NaN
  | String c _ =>
      match digit_in radix c with
      | None => NaN
      | Some _ =>
          let (v, rest) := radix_digits radix 0 s in
          match skip_spaces rest with
          | EmptyString => to_number v
          | _ => NaN
          end
      end
  end.

(** [Number(s)]: the whole string, blanks trimmed, must be a numeric
    literal; blank text is [0]. *)
Definition Number_ (s : string) : number :=
  match skip_spaces s with
  | EmptyString => Num 0
  | String "0" (String c r) as s1 =>
      match radix_of c with
      | Some radix => radix_literal radix r
      | None => decimal_literal s1
      end
  | s1 => decimal_literal s1
  end.

(** [Math.ceil(a / b)] for integers [a] and [b]. *)
Definition Math_ceil_div (a b : Z) : number :=
  if b =? 0 then
    (if a =? 0 then NaN else if a <? 0 then NegInf else PosInf)
  else num_of_Z (- ((- a) / b)).

(** ** [Array.prototype.sort]

    The language reads the value a comparator returns through its sign,
    [NaN] counting as [+0].  It fixes the result of [arr.sort(cmp)] when
    [cmp] is a consistent comparator for the elements of the array:
    the elements are rearranged so that no element is followed by one
    that [cmp] puts before it, and elements that [cmp] ties keep their
    order (the sort is stable).  For any other comparator the order of
    the result is left to the engine. *)

Definition SortCompare (v : number) : comparison := num_sign v.

(** The conditions under which [cmp] is a consistent comparator for the
    elements of [l]: [a =CF a]; [a =CF b] implies [b =CF a]; and [=CF],
    [<CF] and [>CF] are transitive. *)
Definition consistent {A : Type} (cmp : A -> A -> number) (l : list A) : Prop :=
  forall a b c, In a l -> In b l -> In c l ->
    SortCompare (cmp a a) = Eq
    /\ (SortCompare (cmp a b) = Eq -> SortCompare (cmp b a) = Eq)
    /\ (SortCompare (cmp a b) = Eq -> SortCompare (cmp b c) = Eq ->
        SortCompare (cmp a c) = Eq)
    /\ (SortCompare (cmp a b) = Lt -> SortCompare (cmp b c) = Lt ->
        SortCompare (cmp a c) = Lt)
    /\ (SortCompare (cmp a b) = Gt -> SortCompare (cmp b c) = Gt ->
        SortCompare (cmp a c) = Gt).

(** [cmp] does not put [b] before [a]. *)
Definition in_order {A : Type} (cmp : A -> A -> number) (a b : A) : Prop :=
  SortCompare (cmp a b) <> Gt.

(** [cmp] ties [x] and [y]. *)
Definition tied {A : Type} (cmp : A -> A -> number) (x y : A) : bool :=
  match SortCompare (cmp x y) with Eq => true | _ => false end.

(** What the language promises of a sort function: the result is always
    a rearrangement of the array, and for a consistent comparator it is
    in order and stable. *)
Definition sorts {A : Type} (sort : (A -> A -> number) -> list A -> list A) : Prop :=
  forall cmp l,
    Permutation (sort cmp l) l
    /\ (consistent cmp l ->
        StronglySorted (in_order cmp) (sort cmp l)
        /\ forall x, In x l -> filter (tied cmp x) (sort cmp l) = filter (tied cmp x) l).

(** One sort function that keeps the promise, by insertion: an element
    moves behind another only when the comparator says it is greater. *)
Fixpoint sort_insert {A : Type} (cmp : A -> A -> number) (x : A) (l : list A) : list A :=
  match l with
  | [] => [x]
  | y :: r =>
      match SortCompare (cmp x y) with
      | Gt => y :: sort_insert cmp x r
      | _ => x :: y :: r
      end
  end.

Definition insertion_sort {A : Type} (cmp : A -> A -> number) (l : list A) : list A :=
  fold_right (sort_insert cmp) [] l.

End JS.

Import JS.

Declare Scope js_scope.
Delimit Scope js_scope with js.
Notation "x <- m ;; k" := (bind m (fun x => k))
  (at level 61, m at next level, right associativity) : js_scope.

(* ================================================================== *)
(** * Search request builder ([flight-request-builder-simple]) *)
(* ================================================================== *)

Module Builder.

Inductive TripType : Type := one_way | return_ | multi_trip.

Inductive TravelClass : Type := ECONOMY | PREMIUM_ECONOMY | BUSINESS | FIRST.

Record Location : Type := {
  iataCode : string;
  name : string;
  city : string;
  country : string
}.

Record Passengers : Type := {
  adults : nat;
  children : nat;
  infants : nat
}.

(** The fields of a segment are tested for presence by the builder, so
    they are optional here. *)
Record TripSegment : Type := {
  seg_origin : option Location;
  seg_destination : option Location;
  seg_departureDate : option string
}.

Record FlightSearchParams : Type := {
  tripType : TripType;
  origin : option Location;
  destination : option Location;
  departureDate : option string;
  returnDate : option string;
  segments : option (list TripSegment);
  passengers : Passengers;
  travelClass : TravelClass;
  currency : option string;
  maxOffers : option Z
}.

Inductive TravelerType : Type := ADULT | CHILD | HELD_INFANT.

Record Traveler : Type := {
  id : string;
  travelerType : TravelerType;
  associatedAdultId : option string
}.

Record OriginDestination : Type := {
  od_id : string;
  originLocationCode : string;
  destinationLocationCode : string;
  departureDateTimeRange_date : string
}.

Inductive Coverage : Type := MOST_SEGMENTS.

Record CabinRestriction : Type := {
  cabin : TravelClass;
  coverage : Coverage;
  originDestinationIds : list string
}.

Record FlightOffersSearchRequest : Type := {
  currencyCode : string;
  originDestinations : list OriginDestination;
  travelers : list Traveler;
  sources : list string;
  maxFlightOffers : Z;
  cabinRestrictions : list CabinRestriction
}.

(** ** The three traveler loops

    The mutable locals [travelerId], [adultIds] and [travelers] are
    threaded through the loops as a record. *)

Record locals : Type := {
  travelerId : nat;
  adultIds : list string;
  travelers_ : list Traveler
}.

Definition locals0 : locals :=
  {| travelerId := 1; adultIds := []; travelers_ := [] |}.

(** Body of [for (let i = 0; i < params.passengers.adults; i++)]. *)
Definition adult_step (st : locals) (i : nat) : locals :=
  let adultId := String_ (travelerId st) in
  {| travelerId := S (travelerId st);
     adultIds := adultIds st ++ [adultId];
     travelers_ := travelers_ st ++
       [{| id := adultId; travelerType := ADULT; associatedAdultId := None |}] |}.

(** Body of the children loop. *)
Definition child_step (st : locals) (i : nat) : locals :=
  {| travelerId := S (travelerId st);
     adultIds := adultIds st;
     travelers_ := travelers_ st ++
       [{| id := String_ (travelerId st); travelerType := CHILD;
           associatedAdultId := None |}] |}.

(** Body of the infants loop: [adultIds[i % adultIds.length]] is
    [undefined] when there is no adult. *)
Definition infant_step (st : locals) (i : nat) : locals :=
  let associated := nth_error (adultIds st) (i mod List.length (adultIds st)) in
  {| travelerId := S (travelerId st);
     adultIds := adultIds st;
     travelers_ := travelers_ st ++
       [{| id := String_ (travelerId st); travelerType := HELD_INFANT;
           associatedAdultId := associated |}] |}.

Definition for_loop (n : nat) (body : locals -> nat -> locals) (st : locals) : locals :=
  fold_left body (seq 0 n) st.

Definition build_travelers (p : Passengers) : list Traveler :=
  let st1 := for_loop (adults p) adult_step locals0 in
  let st2 := for_loop (children p) child_step st1 in
  let st3 := for_loop (infants p) infant_step st2 in
  travelers_ st3.

(** ** Origin-destination entries *)

(** [segment.origin && segment.destination && segment.departureDate] *)
Definition segment_complete (s : TripSegment) : bool :=
  truthy_obj (seg_origin s) && truthy_obj (seg_destination s)
    && truthy_str (seg_departureDate s).

(** The callback of [.map((segment, index) => ...)]; every property
    access on a possibly absent field goes through [deref]. *)
Definition segment_entry (s : TripSegment) (index : nat) : result OriginDestination :=
  (o <- deref (seg_origin s) ;;
   d <- deref (seg_destination s) ;;
   date <- deref (seg_departureDate s) ;;
   Ok {| od_id := String_ (index + 1);
         originLocationCode := toUpperCase (iataCode o);
         destinationLocationCode := toUpperCase (iataCode d);
         departureDateTimeRange_date := slice0 10 date |})%js.

(** [arr.map(f)] for a callback that may throw, with the running index. *)
Fixpoint map_from {A B : Type} (f : A -> nat -> result B) (index : nat)
         (l : list A) : result (list B) :=
  match l with
  | [] => Ok []
  | a :: r =>
      (b <- f a index ;;
       bs <- map_from f (S index) r ;;
       Ok (b :: bs))%js
  end.

Definition one_way_entries (p : FlightSearchParams) : result (list OriginDestination) :=
  (o <- deref (origin p) ;;
   d <- deref (destination p) ;;
   date <- deref (departureDate p) ;;
   Ok [ {| od_id := "1";
           originLocationCode := toUpperCase (iataCode o);
           destinationLocationCode := toUpperCase (iataCode d);
           departureDateTimeRange_date := slice0 10 date |} ])%js.

Definition return_entries (p : FlightSearchParams) : result (list OriginDestination) :=
  (o <- deref (origin p) ;;
   d <- deref (destination p) ;;
   date <- deref (departureDate p) ;;
   back <- deref (returnDate p) ;;
   Ok [ {| od_id := "1";
           originLocationCode := toUpperCase (iataCode o);
           destinationLocationCode := toUpperCase (iataCode d);
           departureDateTimeRange_date := slice0 10 date |};
        {| od_id := "2";
           originLocationCode := toUpperCase (iataCode d);
           destinationLocationCode := toUpperCase (iataCode o);
           departureDateTimeRange_date := slice0 10 back |} ])%js.

Definition is_multi_trip (t : TripType) : bool :=
  match t with multi_trip => true | _ => false end.
Definition is_one_way (t : TripType) : bool :=
  match t with one_way => true | _ => false end.
Definition is_return (t : TripType) : bool :=
  match t with return_ => true | _ => false end.

(** The [if / else if / else if] chain; [originDestinations] keeps its
    initial value [[]] when no branch is taken. *)
Definition build_originDestinations (p : FlightSearchParams)
  : result (list OriginDestination) :=
  if is_multi_trip (tripType p) && truthy_obj (segments p) then
    (segs <- deref (segments p) ;;
     map_from segment_entry 0 (filter segment_complete segs))%js
  else if is_one_way (tripType p) && truthy_obj (origin p)
            && truthy_obj (destination p) && truthy_str (departureDate p) then
    one_way_entries p
  else if is_return (tripType p) && truthy_obj (origin p)
            && truthy_obj (destination p) && truthy_str (departureDate p)
            && truthy_str (returnDate p) then
    return_entries p
  else Ok [].

(** [params.currency || 'NGN'] and [params.maxOffers || 50]. *)
Definition currency_or_default (c : option string) : string :=
  if truthy_str c then match c with Some s => s | None => "NGN" end else "NGN".

Definition maxOffers_or_default (m : option Z) : Z :=
  match m with
  | Some 0 => 50
  | Some n => n
  | None => 50
  end.

Definition buildFlightOffersSearchRequest (params : FlightSearchParams)
  : result FlightOffersSearchRequest :=
  let travelers := build_travelers (passengers params) in
  (ods <- build_originDestinations params ;;
   let ids := map od_id ods in
   Ok {| currencyCode := currency_or_default (currency params);
         originDestinations := ods;
         travelers := travelers;
         sources := ["GDS"];
         maxFlightOffers := maxOffers_or_default (maxOffers params);
         cabinRestrictions :=
           [ {| cabin := travelClass params;
                coverage := MOST_SEGMENTS;
                originDestinationIds := ids |} ] |})%js.

End Builder.

(* ================================================================== *)
(** * Token cache ([amadeus-auth]) *)
(* ================================================================== *)

Module Auth.

(** The module-level variable [tokenCache]; [None] is [null]. *)
Record TokenCache : Type := {
  token : string;
  expiresAt : Z
}.

(** What the credential exchange ([POST /v1/security/oauth2/token]) does
    when it is called. *)
Inductive exchange : Type :=
| ExchangeRejected                                  (* [fetch] throws *)
| ExchangeNotOk (status : Z) (errorText : string)   (* [!response.ok] *)
| ExchangeGranted (access_token : string) (expires_in : Z).

Record outcome : Type := {
  returned : result string;          (* the token, or the exception *)
  cache_after : option TokenCache;   (* [tokenCache] on exit *)
  exchanged : bool                   (* was the exchange called? *)
}.

(** The [try] block: request a new token and, when granted, overwrite
    the cache.  A failure leaves the cache as it was and is rethrown. *)
Definition request_new_token (cache : option TokenCache) (now : Z) (world : exchange)
  : outcome :=
  match world with
  | ExchangeRejected =>
      {| returned := Throw NetworkError; cache_after := cache; exchanged := true |}
  | ExchangeNotOk status errorText =>
      {| returned := Throw (AuthFailed status errorText);
         cache_after := cache; exchanged := true |}
  | ExchangeGranted access_token expires_in =>
      {| returned := Ok access_token;
         cache_after := Some {| token := access_token;
                                expiresAt := now + expires_in * 1000 |};
         exchanged := true |}
  end.

(** [if (tokenCache && tokenCache.expiresAt > now + 300000) return tokenCache.token;] *)
Definition getAccessToken (cache : option TokenCache) (now : Z) (world : exchange)
  : outcome :=
  match cache with
  | Some c =>
      if expiresAt c >? now + 300000 then
        {| returned := Ok (token c); cache_after := cache; exchanged := false |}
      else request_new_token cache now world
  | None => request_new_token cache now world
  end.

End Auth.

(* ================================================================== *)
(** * Retrying fetch client ([amadeus-fetch]) *)
(* ================================================================== *)

Module Fetch.

Definition isAuthError (status : Z) : bool :=
  (status =? 401) || (status =? 403).

Definition isRetriableStatus (status : Z) : bool :=
  (status >=? 500) || (status =? 408) || (status =? 429).

(** [Math.floor(Math.random() * 150)], [rnd] being the value drawn. *)
Definition jitter_of (rnd : Q) : Z := Qfloor (rnd * 150).

(** [computeBackoffMs(attempt, retryAfterHeader)]; [rnd] is the value
    [Math.random()] returns if it is called. *)
Definition computeBackoffMs (attempt : nat) (retryAfterHeader : option string)
           (rnd : Q) : number :=
  let exponential :=
    let base := 400 in
    let jitter := jitter_of rnd in
    Math_min (num_of_Z 5000) (num_of_Z (base * 2 ^ Z.of_nat attempt + jitter)) in
  if truthy_str retryAfterHeader then
    match retryAfterHeader with
    | Some h =>
        let secs := Number_ h in
        if num_le (num_of_Z 0) secs
        then Math_min (num_of_Z 5000) (Math_max (num_of_Z 500) (num_mul secs (num_of_Z 1000)))
        else exponential
    | None => exponential
    end
  else exponential.

Record Response : Type := {
  status : Z;
  retryAfter : option string;     (* [resp.headers.get('Retry-After')] *)
  payload : string
}.

(** [resp.ok] *)
Definition ok (r : Response) : bool := (200 <=? status r) && (status r <=? 299).

Inductive fetched : Type :=
| Rejected                       (* the network call failed: no response *)
| Responded (r : Response).

(** What the world does during one iteration of the loop: the result of
    [getAccessToken()], the result of [fetch], and the value [Math.random()]
    yields if a backoff is computed. *)
Record attempt_io : Type := {
  token_io : result string;
  fetch_io : fetched;
  random_io : Q
}.

(** What a run of [amadeusFetch] did. *)
Record run : Type := {
  outcome : result Response;   (* returned response or thrown exception *)
  delays : list number;        (* the [sleep]s, in order *)
  fetches : nat                (* number of [fetch] calls *)
}.

(** [await sleep(delay); attempt++; continue] *)
Definition after_sleep (delay : number) (later : option run) : option run :=
  match later with
  | Some r => Some {| outcome := outcome r;
                      delays := delay :: delays r;
                      fetches := S (fetches r) |}
  | None => None
  end.

(** The [while (true)] loop.  The script lists what the world does at
    each iteration; [None] means the script ended before the loop did. *)
Fixpoint retry_loop (maxRetries : Z) (attempt : nat) (script : list attempt_io)
  : option run :=
  match script with
  | [] => None
  | io :: rest =>
      match token_io io with
      | Throw e => Some {| outcome := Throw e; delays := []; fetches := 0 |}
      | Ok _ =>
          match fetch_io io with
          | Rejected =>
              if Z.of_nat attempt <? maxRetries then
                after_sleep (computeBackoffMs attempt None (random_io io))
                            (retry_loop maxRetries (S attempt) rest)
              else Some {| outcome := Throw NetworkError; delays := []; fetches := 1 |}
          | Responded resp =>
              if ok resp then
                Some {| outcome := Ok resp; delays := []; fetches := 1 |}
              else if isAuthError (status resp) then
                Some {| outcome := Ok resp; delays := []; fetches := 1 |}
              else if isRetriableStatus (status resp) && (Z.of_nat attempt <? maxRetries) then
                after_sleep (computeBackoffMs attempt (retryAfter resp) (random_io io))
                            (retry_loop maxRetries (S attempt) rest)
              else Some {| outcome := Ok resp; delays := []; fetches := 1 |}
          end
      end
  end.

(** [init.maxRetries ?? 3] *)
Definition maxRetries_or_default (m : option Z) : Z :=
  match m with Some n => n | None => 3 end.

Definition amadeusFetch (maxRetries : option Z) (script : list attempt_io) : option run :=
  retry_loop (maxRetries_or_default maxRetries) 0 script.

End Fetch.

(* ================================================================== *)
(** * Filter, sort and paginate ([flight-offers-utils] and the
      [flight-offers-filter] route) *)
(* ================================================================== *)

Module Offers.

(** The fields of a flight offer that the engine reads. *)
Record Segment : Type := {
  carrierCode : string;
  departure_at : option string      (* [departure.at] *)
}.

Record Itinerary : Type := {
  duration : option string;
  segments : list Segment
}.

Record FlightOffer : Type := {
  offer_id : string;
  itineraries : list Itinerary;
  price_total : string              (* [price.total] *)
}.

(** ** Stops *)

(** The callback given to [offer.itineraries.every]: the [switch] on the
    requested bucket, with [default: return true]. *)
Definition stops_ok (stopsFilter : string) (itinerary : Itinerary) : bool :=
  let stopCount := Z.of_nat (List.length (segments itinerary)) - 1 in
  if String.eqb stopsFilter "nonstop" then stopCount =? 0
  else if String.eqb stopsFilter "1-stop" then stopCount =? 1
  else if String.eqb stopsFilter "2+-stops" then stopCount >=? 2
  else true.

(** [filterByStops] of the route. *)
Definition filterByStops (offers : list FlightOffer) (stopsFilter : string)
  : list FlightOffer :=
  filter (fun offer => forallb (stops_ok stopsFilter) (itineraries offer)) offers.

(** ** Airlines *)

Definition includes (l : list string) (x : string) : bool :=
  existsb (String.eqb x) l.

Definition flies_with (airlines : list string) (offer : FlightOffer) : bool :=
  existsb (fun itinerary =>
             existsb (fun segment => includes airlines (toUpperCase (carrierCode segment)))
                     (segments itinerary))
          (itineraries offer).

(** [filterByAirlines] of the route. *)
Definition filterByAirlines (offers : list FlightOffer) (airlines : list string)
  : list FlightOffer :=
  match airlines with
  | [] => offers
  | _ => filter (flies_with airlines) offers
  end.

(** ** Durations: [duration.match(/PT(?:(\d+)H)?(?:(\d+)M)?/)] *)

(** The text after the first occurrence of ["PT"]; [None] when the
    pattern does not match anywhere. *)
Fixpoint after_PT (s : string) : option string :=
  match s with
  | EmptyString => None
  | String c r =>
      match r with
      | String "T" r' => if Ascii.eqb c "P" then Some r' else after_PT r
      | _ => after_PT r
      end
  end.

(** One optional group [(?:(\d+)X)?]: the captured digits, if any, and
    the text left to match. *)
Definition take_group (unit : ascii) (s : string) : option string * string :=
  let (d, r) := span_digits s in
  match d, r with
  | String _ _, String c r' => if Ascii.eqb c unit then (Some d, r') else (None, s)
  | _, _ => (None, s)
  end.

(** Hours and minutes of the match, as the integers that the captured
    digits denote ([0] for an absent group); [None] is the [null] of a
    failed match.  [parseInt] rounds these integers to numbers, which
    [add_duration] does where it computes with them. *)
Definition match_duration (duration : string) : option (Z * Z) :=
  match after_PT duration with
  | None => None
  | Some r =>
      let (g1, r1) := take_group "H" r in
      let (g2, _) := take_group "M" r1 in
      let hours := match g1 with Some d => parseInt10 d | None => 0 end in
      let minutes := match g2 with Some d => parseInt10 d | None => 0 end in
      Some (hours, minutes)
  end.

(** [itinerary.duration || ''] *)
Definition duration_text (itinerary : Itinerary) : string :=
  match duration itinerary with Some d => d | None => "" end.

(** The callback of [reduce] in [getDuration]:
    [total + (hours * 60 + minutes)]. *)
Definition add_duration (total : number) (itinerary : Itinerary) : number :=
  match match_duration (duration_text itinerary) with
  | None => total
  | Some (hours, minutes) =>
      num_add total (num_add (num_mul (to_number hours) (num_of_Z 60)) (to_number minutes))
  end.

Definition getDuration (offer : FlightOffer) : number :=
  fold_left add_duration (itineraries offer) (num_of_Z 0).

(** ** Comparators *)

Definition cmp_cheapest (a b : FlightOffer) : number :=
  num_sub (parseFloat (price_total a)) (parseFloat (price_total b)).

Definition cmp_fastest (a b : FlightOffer) : number :=
  num_sub (getDuration a) (getDuration b).

Section WithClock.

(** [arr.sort(cmp)] of the engine, on arrays of offers (see [JS.sorts]
    for what the language promises of it). *)
Variable Array_sort : (FlightOffer -> FlightOffer -> number)
                      -> list FlightOffer -> list FlightOffer.

(** [new Date(text).getTime()]: the reading of a timestamp depends on
    the engine and on its time zone, so it is a parameter. *)
Variable Date_getTime : string -> number.

(** [new Date(o.itineraries[0]?.segments[0]?.departure.at || 0).getTime()] *)
Definition departure_time (offer : FlightOffer) : number :=
  match itineraries offer with
  | [] => num_of_Z 0
  | itinerary :: _ =>
      match segments itinerary with
      | [] => num_of_Z 0
      | segment :: _ =>
          if truthy_str (departure_at segment) then
            match departure_at segment with
            | Some text => Date_getTime text
            | None => num_of_Z 0
            end
          else num_of_Z 0
      end
  end.

Definition cmp_earliest (a b : FlightOffer) : number :=
  num_sub (departure_time a) (departure_time b).

(** [sortOffers] of the route: [default: return offers]. *)
Definition sortOffers (offers : list FlightOffer) (sortBy : string)
  : list FlightOffer :=
  if String.eqb sortBy "cheapest" then Array_sort cmp_cheapest offers
  else if String.eqb sortBy "fastest" then Array_sort cmp_fastest offers
  else if String.eqb sortBy "earliest" then Array_sort cmp_earliest offers
  else offers.

(** ** [filterFlightOffers] of [flight-offers-utils] *)

Record Filters : Type := {
  airlines : option (list string);
  stops : option string;
  sortBy : option string
}.

Definition apply_airlines (filters : Filters) (offers : list FlightOffer)
  : list FlightOffer :=
  match airlines filters with
  | Some (c :: cs) =>
      let airlinesUpper := map toUpperCase (c :: cs) in
      filter (flies_with airlinesUpper) offers
  | _ => offers
  end.

Definition apply_stops (filters : Filters) (offers : list FlightOffer)
  : list FlightOffer :=
  if truthy_str (stops filters) then
    match stops filters with
    | Some s =>
        if String.eqb s "any" then offers
        else filter (fun offer => forallb (stops_ok s) (itineraries offer)) offers
    | None => offers
    end
  else offers.

Definition apply_sort (filters : Filters) (offers : list FlightOffer)
  : list FlightOffer :=
  if truthy_str (sortBy filters) then
    match sortBy filters with
    | Some s => sortOffers offers s
    | None => offers
    end
  else offers.

Definition filterFlightOffers (offers : list FlightOffer) (filters : Filters)
  : list FlightOffer :=
  apply_sort filters (apply_stops filters (apply_airlines filters offers)).

(** ** Pagination *)

Record Pagination : Type := {
  page : Z;
  limit : Z;
  total : Z;
  totalPages : number
}.

(** The "Paginate results" block shared by the route and the tool.
    [page] and [limit] are integers. *)
Definition paginate (filteredOffers : list FlightOffer) (page limit : Z)
  : list FlightOffer * Pagination :=
  let totalOffers := Z.of_nat (List.length filteredOffers) in
  let totalPages := Math_ceil_div totalOffers limit in
  let startIndex := (page - 1) * limit in
  let endIndex := startIndex + limit in
  let paginatedOffers := Array_slice filteredOffers startIndex endIndex in
  (paginatedOffers,
   {| page := page; limit := limit; total := totalOffers; totalPages := totalPages |}).

(** The route's [GET], from the cached offers on.  [airlines] is the
    allow-list after splitting, trimming and upper-casing; a parameter
    that is absent or empty is [None]. *)
Definition GET_page (offers : list FlightOffer) (airlinesParam : option (list string))
           (sortByParam stopsParam : option string) (page limit : Z)
  : list FlightOffer * Pagination :=
  let sortBy := if truthy_str sortByParam
                then match sortByParam with Some s => s | None => "cheapest" end
                else "cheapest" in
  let filtered1 := match airlinesParam with
                   | Some airlines => filterByAirlines offers airlines
                   | None => offers
                   end in
  let filtered2 := if truthy_str stopsParam
                   then match stopsParam with
                        | Some s => filterByStops filtered1 s
                        | None => filtered1
                        end
                   else filtered1 in
  paginate (sortOffers filtered2 sortBy) page limit.

(** The chat tool [filterFlightOffers]: an empty result is answered
    before the pagination block. *)
Definition tool_page (allOffers : list FlightOffer) (airlinesParam : option (list string))
           (sortByParam stopsParam : string) (page limit : Z)
  : list FlightOffer * Pagination :=
  let filteredOffers :=
    filterFlightOffers allOffers
      {| airlines := airlinesParam;
         stops := if String.eqb stopsParam "any" then None else Some stopsParam;
         sortBy := Some sortByParam |} in
  match filteredOffers with
  | [] => ([], {| page := 1; limit := limit; total := 0; totalPages := num_of_Z 0 |})
  | _ => paginate filteredOffers page limit
  end.

End WithClock.

End Offers.

(* ================================================================== *)
(** * The chat tool [getFlightOffers] ([flight-assistant] route) *)
(* ================================================================== *)

Module Assistant.

Import Builder.

(** The tool input after the schema has filled in its defaults. *)
Record SegmentInput : Type := {
  si_origin : string;
  si_destination : string;
  si_departureDate : string
}.

Record SearchInput : Type := {
  in_tripType : TripType;
  in_origin : option string;
  in_destination : option string;
  in_departureDate : option string;
  in_returnDate : option string;
  in_segments : option (list SegmentInput);
  in_adults : nat;
  in_children : nat;
  in_infants : nat;
  in_travelClass : TravelClass;
  in_currency : string;
  in_maxOffers : Z
}.

(** [/^[A-Z]{3}$/.test(code.toUpperCase())] *)
Definition is_AZ (c : ascii) : bool :=
  let n := nat_of_ascii c in (Nat.leb 65 n && Nat.leb n 90)%bool.

Definition test_iata (code : string) : bool :=
  match toUpperCase code with
  | String a (String b (String c EmptyString)) => is_AZ a && is_AZ b && is_AZ c
  | _ => false
  end.

Definition location_of (code : string) : Location :=
  {| iataCode := toUpperCase code; name := ""; city := ""; country := "" |}.

Definition hint : string := ". Use 3-letter codes like LOS, LON, NYC".

Section WithCalendar.

(** [new Date(text)] followed by [toISOString().split('T')[0]]: the
    calendar day the engine reads in [text], [None] when it reads no
    date. *)
Variable Date_isoDay : string -> option string.

(** [parseDate] of the request builder module. *)
Definition parseDate (dateString : string) : option string :=
  Date_isoDay dateString.

(** [!depDate]: [null] or the empty string. *)
Definition usable (d : option string) : option string :=
  if truthy_str d then d else None.

(** The [for (const segment of params.segments)] loop; [inl] is the
    error message of an early [return]. *)
Fixpoint check_segments (todo : list SegmentInput) (tripSegments : list TripSegment)
  : string + list TripSegment :=
  match todo with
  | [] => inr tripSegments
  | segment :: rest =>
      if negb (test_iata (si_origin segment)) then
        inl ("Invalid origin IATA code: " ++ si_origin segment ++ hint)
      else if negb (test_iata (si_destination segment)) then
        inl ("Invalid destination IATA code: " ++ si_destination segment ++ hint)
      else
        match usable (parseDate (si_departureDate segment)) with
        | None =>
            inl ("Invalid departure date: " ++ si_departureDate segment
                   ++ ". Use YYYY-MM-DD format.")
        | Some depDate =>
            check_segments rest
              (tripSegments ++
                 [ {| seg_origin := Some (location_of (si_origin segment));
                      seg_destination := Some (location_of (si_destination segment));
                      seg_departureDate := Some depDate |} ])
        end
  end.

Definition passengers_of (params : SearchInput) : Passengers :=
  {| adults := in_adults params;
     children := in_children params;
     infants := in_infants params |}.

(** The return-date block of a one-way or return trip. *)
Definition check_return (params : SearchInput) : string + option string :=
  if is_return (in_tripType params) then
    if truthy_str (in_returnDate params) then
      match in_returnDate params with
      | Some text =>
          match usable (parseDate text) with
          | Some parsedReturnDate => inr (Some parsedReturnDate)
          | None => inl ("Invalid return date: " ++ text ++ ". Use YYYY-MM-DD format.")
          end
      | None => inl "Return date is required for return trips."
      end
    else inl "Return date is required for return trips."
  else inr None.

(** Everything [execute] does before it calls the builder: [inl] is the
    message of an early [return { success: false, error }]. *)
Definition prepare (params : SearchInput) : string + FlightSearchParams :=
  let passengers := passengers_of params in
  if is_multi_trip (in_tripType params) then
    match in_segments params with
    | None | Some [] =>
        inl "Multi-trip requires segments with origin, destination, and departure date for each leg"
    | Some segs =>
        match check_segments segs [] with
        | inl e => inl e
        | inr tripSegments =>
            inr {| tripType := in_tripType params;
                   origin := None; destination := None;
                   departureDate := None; returnDate := None;
                   segments := Some tripSegments;
                   passengers := passengers;
                   travelClass := in_travelClass params;
                   currency := Some (in_currency params);
                   maxOffers := Some (in_maxOffers params) |}
        end
    end
  else
    match in_origin params, in_destination params, in_departureDate params with
    | Some o, Some d, Some date =>
        if negb (truthy_str (in_origin params) && truthy_str (in_destination params)
                   && truthy_str (in_departureDate params)) then
          inl "Origin, destination, and departure date are required for one-way and return trips"
        else if negb (test_iata o) then
          inl ("Invalid origin IATA code: " ++ o ++ hint)
        else if negb (test_iata d) then
          inl ("Invalid destination IATA code: " ++ d ++ hint)
        else
          match usable (parseDate date) with
          | None => inl ("Invalid departure date: " ++ date ++ ". Use YYYY-MM-DD format.")
          | Some departureDate =>
              match check_return params with
              | inl e => inl e
              | inr returnDate =>
                  inr {| tripType := in_tripType params;
                         origin := Some (location_of o);
                         destination := Some (location_of d);
                         departureDate := Some departureDate;
                         returnDate := returnDate;
                         segments := None;
                         passengers := passengers;
                         travelClass := in_travelClass params;
                         currency := Some (in_currency params);
                         maxOffers := Some (in_maxOffers params) |}
              end
          end
    | _, _, _ =>
        inl "Origin, destination, and departure date are required for one-way and return trips"
    end.

(** What [searchFlightOffers] reports back. *)
Record SearchResult : Type := {
  sr_success : bool;
  sr_error : option string;
  sr_count : option nat               (* [result.data?.data?.length] *)
}.

Record ToolResult : Type := {
  success : bool;
  error : option string;
  message : option string;
  offersCount : option nat;
  searchCriteria : SearchInput
}.

Definition failed (params : SearchInput) (e : string) : ToolResult :=
  {| success := false; error := Some e; message := None;
     offersCount := None; searchCriteria := params |}.

(** [execute]: the tool result, and the requests it passed to
    [searchFlightOffers], in order.  How many network calls one such
    request costs is the business of [amadeusFetch]. *)
Definition execute (searchFlightOffers : FlightOffersSearchRequest -> SearchResult)
           (params : SearchInput)
  : ToolResult * list FlightOffersSearchRequest :=
  match prepare params with
  | inl e => (failed params e, [])
  | inr searchParams =>
      match buildFlightOffersSearchRequest searchParams with
      | Throw _ =>
          (failed params "Unable to search flights at the moment. Please try again later.", [])
      | Ok searchRequest =>
          let result := searchFlightOffers searchRequest in
          if sr_success result then
            let n := match sr_count result with Some n => n | None => O end in
            ({| success := true; error := None;
                message := Some ("Found " ++ String_ n
                  ++ " flight offers. Use the filterFlightOffers tool to get results.");
                offersCount := Some n;
                searchCriteria := params |}, [searchRequest])
          else
            (failed params
               (if truthy_str (sr_error result)
                then match sr_error result with Some e => e | None => "Flight search failed" end
                else "Flight search failed"),
             [searchRequest])
      end
  end.

End WithCalendar.

End Assistant.

(* ================================================================== *)
(** * Presentation helpers ([flight-request-builder-simple]) *)
(* ================================================================== *)

Module Presenter.

(** [String(z)], the text a template literal prints for an integer. *)
Definition String_Z (z : Z) : string :=
  if z <? 0 then "-" ++ String_ (Z.to_nat (- z)) else String_ (Z.to_nat z).

(** [parts.join(sep)] *)
Fixpoint join (sep : string) (parts : list string) : string :=
  match parts with
  | [] => ""
  | [p] => p
  | p :: rest => p ++ sep ++ join sep rest
  end.

(** [formatDuration]: the same pattern as the sort key reads; a number is
    truthy when it is not zero. *)
Definition formatDuration (isoDuration : string) : string :=
  match Offers.match_duration isoDuration with
  | None => "N/A"
  | Some (hours, minutes) =>
      if negb (hours =? 0) && negb (minutes =? 0)
      then String_Z hours ++ "h " ++ String_Z minutes ++ "m"
      else if negb (hours =? 0) then String_Z hours ++ "h"
      else if negb (minutes =? 0) then String_Z minutes ++ "m"
      else "N/A"
  end.

Section WithDates.

(** [new Date(text).getTime()] in milliseconds; [None] is the [NaN] of
    an invalid date. *)
Variable Date_ms : string -> option Z.

(** [calculateLayoverDuration]: with an invalid date every number is
    [NaN], no comparison holds and the last template is printed. *)
Definition calculateLayoverDuration (arrivalTime departureTime : string) : string :=
  match Date_ms arrivalTime, Date_ms departureTime with
  | Some arrival, Some departure =>
      let diffMs := departure - arrival in
      let diffMinutes := diffMs / 60000 in
      if diffMinutes <? 60 then String_Z diffMinutes ++ "m"
      else
        let hours := diffMinutes / 60 in
        let minutes := Z.rem diffMinutes 60 in
        if minutes =? 0 then String_Z hours ++ "h"
        else String_Z hours ++ "h " ++ String_Z minutes ++ "m"
  | _, _ => "NaNh NaNm"
  end.

End WithDates.

Record TravelerPricing : Type := {
  travelerType : string
}.

(** [travelerCounts[type] = (travelerCounts[type] || 0) + 1]; a key that
    was never written reads as 0. *)
Definition bump (travelerCounts : string -> nat) (type : string) : string -> nat :=
  fun key => if String.eqb key type then S (travelerCounts key) else travelerCounts key.

Definition count_types (pricings : list TravelerPricing) : string -> nat :=
  fold_left (fun counts pricing => bump counts (travelerType pricing))
            pricings (fun _ => O).

(** One [if (count) parts.push(...)] of the summary. *)
Definition push_part (parts : list string) (count : nat) (singular plural : string)
  : list string :=
  match count with
  | O => parts
  | _ => app parts [String_ count ++ " " ++ singular
                        ++ (if Nat.ltb 1 count then plural else "")]
  end.

(** [getPassengerSummary]; the argument is [offer.travelerPricings]. *)
Definition getPassengerSummary (travelerPricings : option (list TravelerPricing)) : string :=
  let travelerCounts :=
    match travelerPricings with
    | Some pricings => count_types pricings
    | None => fun _ => O
    end in
  let parts := [] in
  let parts := push_part parts (travelerCounts "ADULT") "Adult" "s" in
  let parts := push_part parts (travelerCounts "CHILD") "Child" "ren" in
  let parts := push_part parts (travelerCounts "HELD_INFANT") "Infant" "s" in
  join ", " parts.

End Presenter.

(* ================================================================== *)
(** * Store keys and reconnection delay ([lib/redis]) *)
(* ================================================================== *)

Module RedisLib.

Definition CHAT_PREFIX : string := "ngabroad:chat:".
Definition FLIGHT_PREFIX : string := "ngabroad:flight-offers:".

Definition getChatKey (id : string) : string := CHAT_PREFIX ++ id.

Definition getFlightOffersKey (id : string) : string := FLIGHT_PREFIX ++ id.

(** [retryStrategy: (times) => Math.min(times * 50, 2000)] *)
Definition retryStrategy (times : Z) : Z := Z.min (times * 50) 2000.

End RedisLib.

(* ================================================================== *)
(** * Result cache ([flight-offers-utils]) *)
(* ================================================================== *)

Module Cache.

(** The key-value store: the entries written so far, newest first, each
    with the instant (ms) at which the store drops it.  [SET key value EX
    ttl] at instant [now] writes an entry that lives until
    [now + ttl * 1000]; [GET] answers the newest entry of the key while
    it lives. *)
Definition Redis : Type := list (string * (string * Z)).

Definition redis_set (store : Redis) (key value : string) (ttlSeconds now : Z) : Redis :=
  (key, (value, now + ttlSeconds * 1000)) :: store.

Definition redis_get (store : Redis) (key : string) (now : Z) : option string :=
  match find (fun entry => String.eqb (fst entry) key) store with
  | Some (_, (value, deadline)) => if now <? deadline then Some value else None
  | None => None
  end.

(** The cookies of the caller, in the same representation. *)
Definition Jar : Type := list (string * (string * Z)).

Definition cookie_set (jar : Jar) (name value : string) (maxAge now : Z) : Jar :=
  (name, (value, now + maxAge * 1000)) :: jar.

Definition cookie_get (jar : Jar) (name : string) (now : Z) : option string :=
  match find (fun entry => String.eqb (fst entry) name) jar with
  | Some (_, (value, deadline)) => if now <? deadline then Some value else None
  | None => None
  end.

Definition CACHE_KEY_COOKIE : string := "flight_offers_cache_key".

(** [setCacheKeyCookie]: a failure of the cookie store is logged and
    swallowed. *)
Definition setCacheKeyCookie (cookies_up : bool) (jar : Jar) (cacheKey : string) (now : Z)
  : Jar :=
  if cookies_up then cookie_set jar CACHE_KEY_COOKIE cacheKey (30 * 60) now else jar.

(** [getCacheKeyCookie]: [cookieStore.get(NAME)?.value || null]. *)
Definition getCacheKeyCookie (cookies_up : bool) (jar : Jar) (now : Z) : option string :=
  if cookies_up then
    match cookie_get jar CACHE_KEY_COOKIE now with
    | Some EmptyString => None
    | Some value => Some value
    | None => None
    end
  else None.

Record Envelope : Type := {
  createdAt : string;
  expiresAt : string;
  ttlSeconds : Z;
  searchRequest : option Builder.FlightOffersSearchRequest;
  data : string
}.

Record Metadata : Type := {
  md_createdAt : string;
  md_expiresAt : string;
  md_ttlSeconds : Z;
  md_searchRequest : option Builder.FlightOffersSearchRequest
}.

Section WithJson.

(** The parsed response of the provider, and the JSON reading and writing
    of payloads and envelopes; [None] is a [JSON.parse] that throws. *)
Variable Payload : Type.
Variable JSON_parse_payload : string -> option Payload.
Variable JSON_stringify_payload : Payload -> string.
Variable JSON_parse_envelope : string -> option Envelope.
Variable JSON_stringify_envelope : Envelope -> string.

(** [new Date(ms).toISOString()] and [new Date(text).getTime()]. *)
Variable toISOString : Z -> string.
Variable Date_ms : string -> option Z.

(** What the world does during one call of [searchFlightOffers]. *)
Record SearchWorld : Type := {
  fetched : result Fetch.Response;   (* what [amadeusFetch] returns or throws *)
  uuid : string;                     (* [randomUUID()] *)
  created_at : Z;                    (* [new Date()] *)
  expiry_base : Z;                   (* [Date.now()] *)
  set_at : Z;                        (* instant of the [SET] *)
  cookie_at : Z;                     (* instant of the cookie *)
  redis_up : bool;                   (* does [redis.set] succeed? *)
  cookies_up : bool                  (* does the cookie store accept? *)
}.

Record SearchOutcome : Type := {
  success : bool;
  found : option Payload;            (* [data] *)
  error : option string;
  cacheKey : option string
}.

Definition search_failed (e : string) : SearchOutcome :=
  {| success := false; found := None; error := Some e; cacheKey := None |}.

Definition searchFlightOffers (world : SearchWorld) (store : Redis) (jar : Jar)
           (request : Builder.FlightOffersSearchRequest)
  : SearchOutcome * Redis * Jar :=
  match fetched world with
  | Throw _ => (search_failed "Internal server error during flight search", store, jar)
  | Ok resp =>
      let text := Fetch.payload resp in
      if negb (Fetch.ok resp) then
        (search_failed ("Failed to fetch flight offers: " ++ text), store, jar)
      else
        match JSON_parse_payload text with
        | None => (search_failed "Invalid response from flight search API", store, jar)
        | Some flightData =>
            let id := uuid world in
            let key := "ngabroad:flight-offers:" ++ id in
            let ttl := 30 * 60 in
            let dataWithMetadata :=
              {| createdAt := toISOString (created_at world);
                 expiresAt := toISOString (expiry_base world + ttl * 1000);
                 ttlSeconds := ttl;
                 searchRequest := Some request;
                 data := JSON_stringify_payload flightData |} in
            if redis_up world then
              ({| success := true; found := Some flightData; error := None;
                  cacheKey := Some id |},
               redis_set store key (JSON_stringify_envelope dataWithMetadata) ttl
                         (set_at world),
               setCacheKeyCookie (cookies_up world) jar id (cookie_at world))
            else
              ({| success := true; found := Some flightData; error := None;
                  cacheKey := None |}, store, jar)
        end
  end.

Record CachedOutcome : Type := {
  c_success : bool;
  c_data : option Payload;
  c_metadata : option Metadata;
  c_error : option string
}.

Definition cached_failed (e : string) : CachedOutcome :=
  {| c_success := false; c_data := None; c_metadata := None; c_error := Some e |}.

(** [getCachedFlightOffers]; [redis_up] tells whether [redis.get]
    answers. *)
Definition getCachedFlightOffers (redis_up : bool) (store : Redis) (now : Z)
           (cacheKey : string) : CachedOutcome :=
  if redis_up then
    let key := "ngabroad:flight-offers:" ++ cacheKey in
    match redis_get store key now with
    | None | Some EmptyString => cached_failed "Cached flight offers not found or expired"
    | Some cached =>
        match JSON_parse_envelope cached with
        | None => cached_failed "Failed to retrieve cached flight offers"
        | Some dataWithMetadata =>
            match JSON_parse_payload (data dataWithMetadata) with
            | None => cached_failed "Failed to retrieve cached flight offers"
            | Some flightData =>
                {| c_success := true;
                   c_data := Some flightData;
                   c_metadata :=
                     Some {| md_createdAt := createdAt dataWithMetadata;
                             md_expiresAt := expiresAt dataWithMetadata;
                             md_ttlSeconds := ttlSeconds dataWithMetadata;
                             md_searchRequest := searchRequest dataWithMetadata |};
                   c_error := None |}
            end
        end
    end
  else cached_failed "Failed to retrieve cached flight offers".

(** [getRelativeTime], at the instant [now]. *)
Definition getRelativeTime (now : Z) (dateString : string) : string :=
  match Date_ms dateString with
  | None => "NaN days ago"
  | Some past =>
      let diffMs := now - past in
      let diffMinutes := diffMs / (1000 * 60) in
      let diffHours := diffMinutes / 60 in
      let diffDays := diffHours / 24 in
      if diffMinutes <? 1 then "just now"
      else if diffMinutes <? 60 then
        Presenter.String_Z diffMinutes ++ " minute"
          ++ (if diffMinutes =? 1 then "" else "s") ++ " ago"
      else if diffHours <? 24 then
        Presenter.String_Z diffHours ++ " hour"
          ++ (if diffHours =? 1 then "" else "s") ++ " ago"
      else
        Presenter.String_Z diffDays ++ " day"
          ++ (if diffDays =? 1 then "" else "s") ++ " ago"
  end.

(** [isCacheExpired], at the instant [now]: no comparison with [NaN]
    holds. *)
Definition isCacheExpired (now : Z) (createdAt : string) : bool :=
  match Date_ms createdAt with
  | None => false
  | Some created =>
      let diffMs := now - created in
      let diffMinutes := diffMs / (1000 * 60) in
      diffMinutes >=? 30
  end.

End WithJson.

End Cache.

(* ================================================================== *)
(** * Location lookup ([flight-request-builder]) *)
(* ================================================================== *)

Module Locations.

Import Builder.







(** [haystack.includes(needle)] *)
Fixpoint includes (haystack needle : string) : bool :=
  prefix needle haystack
  || match haystack with
     | String _ rest => includes rest needle
     | EmptyString => false
     end.







End Locations.

(* ================================================================== *)
(** * The chat tool [filterFlightOffers] ([flight-assistant] route) *)
(* ================================================================== *)

Module FilterTool.

Import Cache.

Section WithJson.

Variable Payload : Type.
Variable JSON_parse_payload : string -> option Payload.
Variable JSON_parse_envelope : string -> option Envelope.

(** [!!data]: a parsed JSON value is falsy when it is [null], [false],
    [0] or the empty string. *)
Variable truthy : Payload -> bool.

(** [cached.data.data]: the offers of a parsed response, [None] when the
    field is absent. *)
Variable offers_of : Payload -> option (list Offers.FlightOffer).

Variable Array_sort : (Offers.FlightOffer -> Offers.FlightOffer -> number)
                      -> list Offers.FlightOffer -> list Offers.FlightOffer.
Variable Date_getTime : string -> number.

(** What the tool answers: an error message, or the page of offers it
    then renders together with the pagination it reports. *)
Inductive Answer : Type :=
| Failure (error : string)
| Page (offers : list Offers.FlightOffer) (pagination : Offers.Pagination).

(** [execute] of the tool, at the instants [now_cookie] and [now_store] of
    its two reads. *)
Definition execute (cookies_up redis_up : bool) (jar : Jar) (store : Redis)
           (now_cookie now_store : Z)
           (airlines : option (list string)) (sortBy stops : string) (page limit : Z)
  : Answer :=
  match getCacheKeyCookie cookies_up jar now_cookie with
  | None =>
      Failure "No flight search results available. Please search for flights first using the getFlightOffers tool."
  | Some currentCacheKey =>
      let cached := getCachedFlightOffers Payload JSON_parse_payload JSON_parse_envelope
                                          redis_up store now_store currentCacheKey in
      let expired :=
        Failure "Cached flight offers not found or expired. Please search for new flights using the getFlightOffers tool." in
      match c_success Payload cached, c_data Payload cached with
      | true, Some data =>
          if truthy data then
            let allOffers := match offers_of data with Some l => l | None => [] end in
            let result := Offers.tool_page Array_sort Date_getTime allOffers airlines
                                           sortBy stops page limit in
            Page (fst result) (snd result)
          else expired
      | _, _ => expired
      end
  end.

End WithJson.

End FilterTool.

(* ================================================================== *)
(** * Vocabulary of the statements *)
(* ================================================================== *)

Section BuilderVocabulary.

Import Builder.
Local Open Scope nat_scope.
Local Open Scope list_scope.

Definition adult_of (k : nat) : Traveler :=
  {| id := String_ k; travelerType := ADULT; associatedAdultId := None |}.

Definition child_of (k : nat) : Traveler :=
  {| id := String_ k; travelerType := CHILD; associatedAdultId := None |}.

Definition infant_of (first : nat) (ids : list string) (j : nat) : Traveler :=
  {| id := String_ (first + j); travelerType := HELD_INFANT;
     associatedAdultId := nth_error ids (j mod List.length ids) |}.

(** A valid IATA code: exactly three upper-case letters. *)
Definition valid_iata (code : string) : bool :=
  match code with
  | String a (String b (String c EmptyString)) =>
      Assistant.is_AZ a && Assistant.is_AZ b && Assistant.is_AZ c
  | _ => false
  end.

(** A valid date: a non-empty day in the form YYYY-MM-DD, at most ten
    characters. *)
Definition valid_date (d : string) : Prop :=
  1 <= String.length d <= 10.

(** The entry the [map] callback yields for a complete segment. *)
Definition entry_of (index : nat) (o d : Location) (date : string) : OriginDestination :=
  {| od_id := String_ (index + 1);
     originLocationCode := toUpperCase (iataCode o);
     destinationLocationCode := toUpperCase (iataCode d);
     departureDateTimeRange_date := slice0 10 date |}.

Definition from_segment (s : TripSegment) (index : nat) (od : OriginDestination) : Prop :=
  exists o d date,
    seg_origin s = Some o /\ seg_destination s = Some d
    /\ seg_departureDate s = Some date /\ date <> ""%string
    /\ od = entry_of index o d date.

Definition lagos : Location :=
  {| iataCode := "LOS"; name := ""; city := ""; country := "" |}.
Definition heathrow : Location :=
  {| iataCode := "LHR"; name := ""; city := ""; country := "" |}.

Definition sample_trip (t : TripType) (back : option string) : FlightSearchParams :=
  {| tripType := t; origin := Some lagos; destination := Some heathrow;
     departureDate := Some "2025-03-10"%string; returnDate := back;
     segments := None;
     passengers := {| adults := 1; children := 0; infants := 0 |};
     travelClass := ECONOMY; currency := None; maxOffers := None |}.

(** A one-way trip from Lagos to London for the given numbers of adults,
    children and infants. *)
Definition family_trip (a c i : nat) : FlightSearchParams :=
  {| tripType := one_way;
     origin := Some lagos; destination := Some heathrow;
     departureDate := Some "2025-03-10"%string; returnDate := None;
     segments := None;
     passengers := {| adults := a; children := c; infants := i |};
     travelClass := ECONOMY; currency := None; maxOffers := None |}.

End BuilderVocabulary.

Section AuthVocabulary.

Import Auth.
Local Open Scope list_scope.

Definition minutes (n : Z) : Z := n * 60000.

Definition cached (expiry : Z) : option TokenCache :=
  Some {| token := "old"; expiresAt := expiry |}.

End AuthVocabulary.

Section FetchVocabulary.

Import Fetch.
Local Open Scope list_scope.

(** An iteration after which the loop goes round again: the token was
    obtained, and the call failed or was answered with a retriable status
    that is neither a success nor an authentication error. *)
Definition transient (io : attempt_io) : Prop :=
  (exists tok, token_io io = Ok tok)
  /\ (fetch_io io = Rejected
      \/ exists r, fetch_io io = Responded r /\ ok r = false
                   /\ isAuthError (status r) = false
                   /\ isRetriableStatus (status r) = true).

(** How the last iteration of a run ends, when [n] iterations came
    before it and the attempt counter stands at [counter]. *)
Definition ends (maxRetries : Z) (counter n : nat) (io : attempt_io) (r : run) : Prop :=
  (exists e, token_io io = Throw e /\ outcome r = Throw e /\ fetches r = n)
  \/ ((exists tok, token_io io = Ok tok) /\ fetches r = S n
      /\ ((fetch_io io = Rejected /\ outcome r = Throw NetworkError
           /\ maxRetries <= Z.of_nat counter)
          \/ exists resp,
               fetch_io io = Responded resp /\ outcome r = Ok resp
               /\ (ok resp = true
                   \/ isAuthError (status resp) = true
                   \/ isRetriableStatus (status resp) = false
                   \/ maxRetries <= Z.of_nat counter))).

(** The shape of a finished run: some transient iterations, each
    followed by a sleep, then one last iteration. *)
Definition shape (maxRetries : Z) (attempt : nat) (script : list attempt_io) (r : run)
  : Prop :=
  exists before io after,
    script = before ++ io :: after
    /\ Forall transient before
    /\ List.length (delays r) = List.length before
    /\ (before <> [] -> Z.of_nat (attempt + List.length before) <= maxRetries)
    /\ ends maxRetries (attempt + List.length before) (List.length before) io r.

Definition answer (code : Z) : attempt_io :=
  {| token_io := Ok "t"%string;
     fetch_io := Responded {| status := code; retryAfter := None; payload := ""%string |};
     random_io := 0 |}.

Definition network_down : attempt_io :=
  {| token_io := Ok "t"%string; fetch_io := Rejected; random_io := 0 |}.

End FetchVocabulary.

Section OffersVocabulary.

Import Offers.
Local Open Scope list_scope.

(** Stops of an itinerary: its number of segments minus one. *)
Definition stopCount (itinerary : Itinerary) : Z :=
  Z.of_nat (List.length (segments itinerary)) - 1.

Definition seg (carrier : string) : Segment :=
  {| carrierCode := carrier; departure_at := None |}.

(** An offer whose itineraries have 1 and 2 segments: no stop out, one
    stop back. *)
Definition mixed_offer : FlightOffer :=
  {| offer_id := "1";
     itineraries := [ {| duration := None; segments := [seg "BA"] |};
                      {| duration := None; segments := [seg "BA"; seg "BA"] |} ];
     price_total := "100" |}.

(** The binary64 values are among the multiples of [2^-1074]. *)
Definition on_grid (q : Q) : Prop :=
  exists k : Z, (q == inject_Z k * pow2 (-1074))%Q.

(** A number that arithmetic can yield and that is not [NaN]. *)
Definition ordinary (a : number) : Prop :=
  match a with
  | NaN => False
  | Num q => on_grid q
  | _ => True
  end.

(** The order of the numbers other than [NaN]. *)
Definition num_compare (a b : number) : comparison :=
  match a, b with
  | Num x, Num y => (x ?= y)%Q
  | NegInf, NegInf | PosInf, PosInf => Eq
  | NegInf, _ | _, PosInf => Lt
  | _, _ => Gt
  end.

(** A number that is not negative: an infinity, or a finite binary64
    value at or above zero. *)
Definition not_negative (a : number) : Prop :=
  a = PosInf \/ exists r, a = Num r /\ (0 <= r)%Q /\ on_grid r.

(** [a == b] on numbers; false when either is [NaN]. *)
Definition num_eqb (a b : number) : bool := num_le a b && num_le b a.

(** The keys of the offers of [l] never descend. *)
Definition ascending (key : FlightOffer -> number) (l : list FlightOffer) : Prop :=
  StronglySorted (fun a b => num_le (key a) (key b) = true) l.

(** The offers whose key equals that of an offer of [before] are found
    in [after] in the order they have in [before]. *)
Definition ties_kept (key : FlightOffer -> number) (before after : list FlightOffer)
  : Prop :=
  forall x, In x before ->
    filter (fun o => num_eqb (key x) (key o)) after
    = filter (fun o => num_eqb (key x) (key o)) before.

(** The total price of an offer, as the "cheapest" comparator reads it. *)
Definition price (offer : FlightOffer) : number := parseFloat (price_total offer).

(** Text all of whose code units are below 128. *)
Fixpoint ascii_text (s : string) : bool :=
  match s with
  | EmptyString => true
  | String c r => Nat.ltb (nat_of_ascii c) 128 && ascii_text r
  end.

(** A run of decimal digits. *)
Fixpoint all_digits (d : string) : bool :=
  match d with
  | EmptyString => true
  | String c r => is_digit c && all_digits r
  end.

Definition digit_run (d : string) : Prop :=
  d <> EmptyString /\ all_digits d = true.

(** Minutes of one itinerary: hours times 60 plus minutes of the matched
    token, 0 when the pattern does not match. *)
Definition itinerary_minutes (itinerary : Itinerary) : Z :=
  match match_duration (duration_text itinerary) with
  | Some (hours, minutes) => hours * 60 + minutes
  | None => 0
  end.

Fixpoint sum_minutes (l : list Itinerary) : Z :=
  match l with
  | [] => 0
  | it :: r => itinerary_minutes it + sum_minutes r
  end.

(** An itinerary whose duration is the token PT#H#M with the given
    digits. *)
Definition lasting (hours minutes : string) : Itinerary :=
  {| duration := Some ("PT" ++ hours ++ "H" ++ minutes ++ "M")%string;
     segments := [seg "BA"] |}.

Definition priced (ident price : string) : FlightOffer :=
  {| offer_id := ident; itineraries := []; price_total := price |}.

End OffersVocabulary.

Section ToolVocabulary.

Import Builder Assistant.
Local Open Scope nat_scope.
Local Open Scope list_scope.

Definition is_infant (t : Traveler) : bool :=
  match travelerType t with HELD_INFANT => true | _ => false end.

Definition with_infants (n : nat) (p : SearchInput) : SearchInput :=
  {| in_tripType := in_tripType p;
     in_origin := in_origin p;
     in_destination := in_destination p;
     in_departureDate := in_departureDate p;
     in_returnDate := in_returnDate p;
     in_segments := in_segments p;
     in_adults := in_adults p;
     in_children := in_children p;
     in_infants := n;
     in_travelClass := in_travelClass p;
     in_currency := in_currency p;
     in_maxOffers := in_maxOffers p |}.

Definition set_infants (n : nat) (sp : FlightSearchParams) : FlightSearchParams :=
  {| tripType := tripType sp;
     origin := origin sp;
     destination := destination sp;
     departureDate := departureDate sp;
     returnDate := returnDate sp;
     segments := segments sp;
     passengers := {| adults := adults (passengers sp);
                      children := children (passengers sp);
                      infants := n |};
     travelClass := travelClass sp;
     currency := currency sp;
     maxOffers := maxOffers sp |}.

(** The airport codes of a specification are ASCII text. *)
Definition codes_ascii (p : SearchInput) : Prop :=
  (forall o, in_origin p = Some o -> ascii_text o = true)
  /\ (forall d, in_destination p = Some d -> ascii_text d = true)
  /\ (forall segs s, in_segments p = Some segs -> In s segs ->
        ascii_text (si_origin s) = true /\ ascii_text (si_destination s) = true).

(** A calendar that reads the one date used below. *)
Definition march_10 (text : string) : option string :=
  if String.eqb text "2025-03-10" then Some "2025-03-10"%string else None.

Definition offers_found (request : FlightOffersSearchRequest) : SearchResult :=
  {| sr_success := true; sr_error := None; sr_count := Some 12 |}.

(** One adult travelling with three infants. *)
Definition crowded_lap : SearchInput :=
  {| in_tripType := one_way;
     in_origin := Some "LOS"%string; in_destination := Some "LHR"%string;
     in_departureDate := Some "2025-03-10"%string; in_returnDate := None;
     in_segments := None;
     in_adults := 1; in_children := 0; in_infants := 3;
     in_travelClass := ECONOMY; in_currency := "NGN"; in_maxOffers := 50%Z |}.

End ToolVocabulary.

Section FetchVocabulary2.

Import Fetch.
Local Open Scope list_scope.

(** The random draw of an iteration lies in [0, 1), as [Math.random]
    promises. *)
Definition draws_unit (io : attempt_io) : Prop :=
  (0 <= random_io io)%Q /\ (random_io io < 1)%Q.

(** A sleep of a finite number of milliseconds between 400 and 5000. *)
Definition delay_in_range (d : number) : Prop :=
  exists q, d = Num q /\ (400 <= q)%Q /\ (q <= 5000)%Q.

End FetchVocabulary2.

Section OffersVocabulary2.

Import Offers.
Local Open Scope list_scope.

(** The pages 1, 2, ..., [n] of a list, one after the other. *)
Definition pages_upto (offers : list FlightOffer) (limit : Z) (n : nat)
  : list (list FlightOffer) :=
  map (fun p => fst (paginate offers (Z.of_nat p) limit)) (seq 1 n).

(** The carrier of a segment is on the allow-list, letter case aside. *)
Definition carrier_allowed (allow : list string) (offer : FlightOffer) : Prop :=
  exists itinerary segment code,
    In itinerary (itineraries offer) /\ In segment (segments itinerary)
    /\ In code allow /\ toUpperCase code = toUpperCase (carrierCode segment).

End OffersVocabulary2.

Section OffersVocabulary3.

Import Offers.
Local Open Scope list_scope.

(** The test the airline stage applies to an offer; no allow-list, or an
    empty one, lets every offer through. *)
Definition passes_airlines (filters : Filters) (offer : FlightOffer) : bool :=
  match airlines filters with
  | Some (c :: cs) => flies_with (map toUpperCase (c :: cs)) offer
  | _ => true
  end.

(** The test the stops stage applies to an offer. *)
Definition passes_stops (filters : Filters) (offer : FlightOffer) : bool :=
  match stops filters with
  | Some s =>
      if truthy_str (Some s) && negb (String.eqb s "any")
      then forallb (stops_ok s) (itineraries offer)
      else true
  | None => true
  end.

(** Every departure time is read as a time value: a whole number of
    milliseconds. *)
Definition times_read (Date_getTime : string -> number) (offers : list FlightOffer)
  : Prop :=
  forall o, In o offers -> exists t : Z, departure_time Date_getTime o = num_of_Z t.

(** Every key the requested sort reads is a number: no price is [NaN]
    under "cheapest", and every departure time is read under
    "earliest". *)
Definition keys_read (Date_getTime : string -> number) (sortBy : option string)
           (offers : list FlightOffer) : Prop :=
  (sortBy = Some "cheapest"%string -> forall o, In o offers -> price o <> NaN)
  /\ (sortBy = Some "earliest"%string -> times_read Date_getTime offers).

(** A non-stop offer of one carrier with the given duration token and
    price. *)
Definition direct (ident carrier token fare : string) : FlightOffer :=
  {| offer_id := ident;
     itineraries := [ {| duration := Some token; segments := [seg carrier] |} ];
     price_total := fare |}.

(** A non-stop offer whose only segment departs at the given time text. *)
Definition departing (ident time : string) : FlightOffer :=
  {| offer_id := ident;
     itineraries := [ {| duration := None;
                         segments := [ {| carrierCode := "BA";
                                          departure_at := Some time |} ] |} ];
     price_total := "1" |}.

(** An offer with one itinerary of the given duration token. *)
Definition duration_demo (ident token : string) : FlightOffer :=
  {| offer_id := ident;
     itineraries := [ {| duration := Some token; segments := [] |} ];
     price_total := "1" |}.

(** An offer flown by the given carriers, one itinerary per list. *)
Definition flown_by (ident : string) (carriers : list (list string)) : FlightOffer :=
  {| offer_id := ident;
     itineraries := map (fun cs => {| duration := None; segments := map seg cs |}) carriers;
     price_total := "1" |}.

(** Four non-stop offers: two of them carry the same price, written in
    two ways, and one is flown by another carrier. *)
Definition showcase : list FlightOffer :=
  [ direct "a" "BA" "PT9H" "300"; direct "b" "EK" "PT2H5M" "120.50";
    direct "c" "BA" "PT3H" "99"; direct "d" "ba" "PT9H" "300.0" ].

(** The criteria: flown by BA, non-stop, cheapest first. *)
Definition ba_nonstop_cheapest : Filters :=
  {| airlines := Some ["ba"%string]; stops := Some "nonstop"%string;
     sortBy := Some "cheapest"%string |}.

End OffersVocabulary3.

Section BuilderVocabulary2.

Import Builder.
Local Open Scope nat_scope.
Local Open Scope list_scope.

(** An entry as the builder writes it: codes free of lower-case letters
    and a date of at most ten characters. *)
Definition normalized (od : OriginDestination) : Prop :=
  toUpperCase (originLocationCode od) = originLocationCode od
  /\ toUpperCase (destinationLocationCode od) = destinationLocationCode od
  /\ String.length (departureDateTimeRange_date od) <= 10.

(** An entry whose two codes are three upper-case letters and whose date
    is not empty. *)
Definition well_formed (od : OriginDestination) : Prop :=
  valid_iata (originLocationCode od) = true
  /\ valid_iata (destinationLocationCode od) = true
  /\ departureDateTimeRange_date od <> EmptyString.

(** A segment as the tool hands it to the builder, from codes that passed
    the IATA test and a date that was read. *)
Definition checked_segment (s : TripSegment) : Prop :=
  exists o d date,
    s = {| seg_origin := Some (Assistant.location_of o);
           seg_destination := Some (Assistant.location_of d);
           seg_departureDate := Some date |}
    /\ Assistant.test_iata o = true /\ Assistant.test_iata d = true
    /\ date <> EmptyString.

(** A calendar that reads every text as the same day. *)
Definition every_day (text : string) : option string := Some "2025-03-10"%string.

Definition leg (o d date : string) : Assistant.SegmentInput :=
  {| Assistant.si_origin := o; Assistant.si_destination := d;
     Assistant.si_departureDate := date |}.

(** A multi-trip of three legs for one adult. *)
Definition three_legs : Assistant.SearchInput :=
  {| Assistant.in_tripType := multi_trip;
     Assistant.in_origin := None; Assistant.in_destination := None;
     Assistant.in_departureDate := None; Assistant.in_returnDate := None;
     Assistant.in_segments :=
       Some [leg "los" "lhr" "2025-03-10"; leg "lhr" "cdg" "2025-03-12";
             leg "cdg" "los" "2025-03-20"];
     Assistant.in_adults := 1; Assistant.in_children := 0; Assistant.in_infants := 0;
     Assistant.in_travelClass := ECONOMY; Assistant.in_currency := "NGN";
     Assistant.in_maxOffers := 50%Z |}.

End BuilderVocabulary2.

Section PresenterVocabulary.

Import Presenter.
Local Open Scope list_scope.

(** The last character of a text. *)
Fixpoint last_ascii (s : string) : option ascii :=
  match s with
  | EmptyString => None
  | String c EmptyString => Some c
  | String _ r => last_ascii r
  end.

(** The summary printed for given numbers of adults, children and held
    infants. *)
Definition summary_of (adults children infants : nat) : string :=
  join ", " (push_part (push_part (push_part [] adults "Adult" "s")
                                  children "Child" "ren")
                       infants "Infant" "s").

Definition pricing (type : string) : TravelerPricing := {| travelerType := type |}.

(** How many pricings have the given traveler type. *)
Definition priced_as (type : string) (l : list TravelerPricing) : nat :=
  count_occ string_dec (map travelerType l) type.

(** A clock that reads a text of decimal digits as that many
    milliseconds. *)
Definition digits_clock (text : string) : option Z :=
  if all_digits text then Some (parseInt10 text) else None.

End PresenterVocabulary.

Section CacheVocabulary.

Import Cache.
Local Open Scope list_scope.

(** The envelope [searchFlightOffers] writes for a payload. *)
Definition envelope_of {Payload : Type} (JSON_stringify_payload : Payload -> string)
           (toISOString : Z -> string) (world : SearchWorld)
           (request : Builder.FlightOffersSearchRequest) (flightData : Payload) : Envelope :=
  {| createdAt := toISOString (created_at world);
     expiresAt := toISOString (expiry_base world + 1800 * 1000);
     ttlSeconds := 1800;
     searchRequest := Some request;
     data := JSON_stringify_payload flightData |}.

(** A search that reaches the store: the provider answers 2xx with a text
    that parses, and the store accepts the write. *)
Definition reaches_store {Payload : Type} (JSON_parse_payload : string -> option Payload)
           (world : SearchWorld) (flightData : Payload) : Prop :=
  exists resp,
    fetched world = Ok resp /\ Fetch.ok resp = true
    /\ JSON_parse_payload (Fetch.payload resp) = Some flightData
    /\ redis_up world = true.

(** A world in which the provider answers 200 with the given text. *)
Definition answered (text id : string) (at_ms : Z) : SearchWorld :=
  {| fetched := Ok {| Fetch.status := 200; Fetch.retryAfter := None;
                      Fetch.payload := text |};
     uuid := id; created_at := at_ms; expiry_base := at_ms; set_at := at_ms;
     cookie_at := at_ms; redis_up := true; cookies_up := true |}.

(** A request with nothing in it. *)
Definition empty_request : Builder.FlightOffersSearchRequest :=
  {| Builder.currencyCode := "NGN"; Builder.originDestinations := [];
     Builder.travelers := []; Builder.sources := ["GDS"%string];
     Builder.maxFlightOffers := 50; Builder.cabinRestrictions := [] |}.

(** A JSON reading of envelopes that knows one envelope only. *)
Definition reads_only (known : Envelope) (text : string) : option Envelope :=
  if String.eqb text "{envelope}" then Some known else None.

Definition writes_envelope (e : Envelope) : string := "{envelope}".

End CacheVocabulary.

(* ================================================================== *)
(** * Properties of the request builder *)
(* ================================================================== *)

Section BuilderFacts.

Import Builder.
Local Open Scope nat_scope.
Local Open Scope list_scope.

Lemma for_loop_S (n : nat) (body : locals -> nat -> locals) (st : locals) :
  for_loop (S n) body st = body (for_loop n body st) n.
Proof.
  unfold for_loop. rewrite seq_S, fold_left_app. reflexivity.
Qed.

Lemma adult_loop (n : nat) (st : locals) :
  for_loop n adult_step st =
  {| travelerId := travelerId st + n;
     adultIds := adultIds st ++ map String_ (seq (travelerId st) n);
     travelers_ := travelers_ st ++ map adult_of (seq (travelerId st) n) |}.
Proof.
  induction n as [|n IH].
  - unfold for_loop; simpl. rewrite !app_nil_r, Nat.add_0_r. now destruct st.
  - rewrite for_loop_S, IH. unfold adult_step; cbn [travelerId adultIds travelers_].
    rewrite !seq_S, !map_app, !app_assoc. simpl.
    f_equal. lia.
Qed.

Lemma child_loop (n : nat) (st : locals) :
  for_loop n child_step st =
  {| travelerId := travelerId st + n;
     adultIds := adultIds st;
     travelers_ := travelers_ st ++ map child_of (seq (travelerId st) n) |}.
Proof.
  induction n as [|n IH].
  - unfold for_loop; simpl. rewrite app_nil_r, Nat.add_0_r. now destruct st.
  - rewrite for_loop_S, IH. unfold child_step; cbn [travelerId adultIds travelers_].
    rewrite seq_S, map_app, app_assoc. simpl.
    f_equal. lia.
Qed.

Lemma infant_loop (n : nat) (st : locals) :
  for_loop n infant_step st =
  {| travelerId := travelerId st + n;
     adultIds := adultIds st;
     travelers_ := travelers_ st
                     ++ map (infant_of (travelerId st) (adultIds st)) (seq 0 n) |}.
Proof.
  induction n as [|n IH].
  - unfold for_loop; simpl. rewrite app_nil_r, Nat.add_0_r. now destruct st.
  - rewrite for_loop_S, IH. unfold infant_step; cbn [travelerId adultIds travelers_].
    rewrite seq_S, map_app, app_assoc. simpl.
    f_equal. lia.
Qed.

(** Closed form of the traveler list. *)
Lemma build_travelers_closed (p : Passengers) :
  build_travelers p =
    map adult_of (seq 1 (adults p))
    ++ map child_of (seq (1 + adults p) (children p))
    ++ map (infant_of (1 + adults p + children p) (map String_ (seq 1 (adults p))))
           (seq 0 (infants p)).
Proof.
  unfold build_travelers.
  rewrite infant_loop, child_loop, adult_loop. simpl.
  now rewrite <- app_assoc.
Qed.

Lemma adult_id_at (a j : nat) :
  1 <= a ->
  nth_error (map String_ (seq 1 a)) (j mod a) = Some (String_ (1 + j mod a)).
Proof.
  intros Ha.
  assert (j mod a < a) by (apply Nat.mod_upper_bound; lia).
  rewrite nth_error_map, nth_error_seq.
  destruct (Nat.ltb_spec (j mod a) a); [reflexivity | lia].
Qed.

Lemma seq_offset (s k n : nat) : map (Nat.add s) (seq k n) = seq (s + k) n.
Proof.
  revert k. induction n as [|n IH]; intros k; simpl; [reflexivity|].
  f_equal. rewrite IH. f_equal. lia.
Qed.

Lemma map_seq_offset {B : Type} (f : nat -> B) (s n : nat) :
  map (fun j => f (s + j)) (seq 0 n) = map f (seq s n).
Proof.
  replace (seq s n) with (map (Nat.add s) (seq 0 n))
    by (rewrite seq_offset; f_equal; lia).
  now rewrite map_map.
Qed.

Lemma map_const_repeat {A B : Type} (f : A -> B) (b : B) (l : list A) :
  (forall x, f x = b) -> map f l = repeat b (List.length l).
Proof.
  intros Hf. induction l as [|x l IH]; simpl; [reflexivity|]. now rewrite Hf, IH.
Qed.

End BuilderFacts.

Section BuilderRoutes.

Import Builder.
Local Open Scope nat_scope.
Local Open Scope list_scope.

Lemma upper_ascii_AZ (c : ascii) : Assistant.is_AZ c = true -> upper_ascii c = c.
Proof.
  destruct c as [[] [] [] [] [] [] [] []]; intros H; try discriminate H; reflexivity.
Qed.

Lemma toUpperCase_valid (code : string) :
  valid_iata code = true -> toUpperCase code = code.
Proof.
  destruct code as [|a [|b [|c [|]]]]; try discriminate. simpl.
  intros H. apply andb_prop in H as [H Hc]. apply andb_prop in H as [Ha Hb].
  now rewrite !upper_ascii_AZ.
Qed.

Lemma substring_short (n : nat) (s : string) :
  String.length s <= n -> substring 0 n s = s.
Proof.
  revert s. induction n as [|n IH]; intros [|c s] H; simpl in *; try reflexivity; try lia.
  f_equal. apply IH. lia.
Qed.

Lemma slice0_valid (d : string) : valid_date d -> slice0 10 d = d.
Proof.
  intros [_ H]. now apply substring_short.
Qed.

Lemma truthy_str_valid (d : string) : valid_date d -> truthy_str (Some d) = true.
Proof.
  destruct d; simpl; [intros [H _]; simpl in H; lia | reflexivity].
Qed.

Lemma segment_complete_entry (s : TripSegment) (index : nat) :
  segment_complete s = true ->
  exists od, segment_entry s index = Ok od /\ from_segment s index od.
Proof.
  unfold segment_complete, segment_entry, from_segment.
  destruct (seg_origin s) as [o|]; [|discriminate].
  destruct (seg_destination s) as [d|]; [|discriminate].
  destruct (seg_departureDate s) as [date|]; [|discriminate].
  simpl. intros H. eexists. split; [reflexivity|].
  exists o, d, date. repeat split; try reflexivity.
  intros ->. discriminate.
Qed.

(** On complete segments the [map] never throws; it yields one entry per
    segment, numbered from [index + 1]. *)
Lemma map_from_complete (l : list TripSegment) (index : nat) :
  Forall (fun s => segment_complete s = true) l ->
  exists ods,
    map_from segment_entry index l = Ok ods
    /\ List.length ods = List.length l
    /\ forall j od, nth_error ods j = Some od ->
         exists s, nth_error l j = Some s /\ from_segment s (index + j) od.
Proof.
  intros H. revert index. induction H as [|s l Hs _ IH]; intros index.
  - exists []. simpl. repeat split. intros [|j] od; discriminate.
  - destruct (segment_complete_entry s index Hs) as [od [Hod Hfrom]].
    destruct (IH (S index)) as [ods [Hods [Hlen Hnth]]].
    exists (od :: ods). simpl. rewrite Hod, Hods. simpl.
    repeat split; [now rewrite Hlen|].
    intros [|j] od' Hj; simpl in Hj.
    + injection Hj as <-. exists s. split; [reflexivity|]. now rewrite Nat.add_0_r.
    + destruct (Hnth j od' Hj) as [s' [Hs' Hf]].
      exists s'. split; [assumption|].
      now replace (index + S j) with (S index + j) by lia.
Qed.

Lemma filter_all {A : Type} (f : A -> bool) (l : list A) :
  Forall (fun x => f x = true) (filter f l).
Proof.
  apply Forall_forall. intros x Hx. now apply filter_In in Hx.
Qed.

(** The origin-destination stage never throws. *)
Lemma build_originDestinations_total (p : FlightSearchParams) :
  exists ods, build_originDestinations p = Ok ods.
Proof.
  unfold build_originDestinations.
  destruct (is_multi_trip (tripType p) && truthy_obj (segments p)) eqn:Hm.
  - apply andb_prop in Hm as [_ Hs].
    destruct (segments p) as [segs|]; [|discriminate]. simpl.
    destruct (map_from_complete (filter segment_complete segs) 0 (filter_all _ _))
      as [ods [Hods _]].
    now exists ods.
  - destruct (is_one_way (tripType p) && truthy_obj (origin p)
              && truthy_obj (destination p) && truthy_str (departureDate p)) eqn:Ho.
    + apply andb_prop in Ho as [Ho Hd]. apply andb_prop in Ho as [Ho Hb].
      apply andb_prop in Ho as [_ Ha].
      unfold one_way_entries.
      destruct (origin p); [|discriminate].
      destruct (destination p); [|discriminate].
      destruct (departureDate p); [|discriminate].
      simpl. eauto.
    + destruct (is_return (tripType p) && truthy_obj (origin p)
                && truthy_obj (destination p) && truthy_str (departureDate p)
                && truthy_str (returnDate p)) eqn:Hr.
      * apply andb_prop in Hr as [Hr He]. apply andb_prop in Hr as [Hr Hd].
        apply andb_prop in Hr as [Hr Hb]. apply andb_prop in Hr as [_ Ha].
        unfold return_entries.
        destruct (origin p); [|discriminate].
        destruct (destination p); [|discriminate].
        destruct (departureDate p); [|discriminate].
        destruct (returnDate p); [|discriminate].
        simpl. eauto.
      * eauto.
Qed.

(** The builder never throws. *)
Lemma builder_returns (p : FlightSearchParams) :
  exists r, buildFlightOffersSearchRequest p = Ok r.
Proof.
  destruct (build_originDestinations_total p) as [ods Hods].
  unfold buildFlightOffersSearchRequest. rewrite Hods. cbn [bind]. eauto.
Qed.

End BuilderRoutes.

Section C4.

Import Builder.
Local Open Scope nat_scope.
Local Open Scope list_scope.

(** C4. For passenger counts with at least one adult, the request that
    [build] returns numbers its travelers "1", "2", ... without gaps,
    adults first, then children, then infants; only infants carry an
    associated adult; the infant at position [j] among the infants is
    associated with the adult at position [j mod adults], so every
    infant's associated adult is one of the adult ids and the association
    wraps round when infants outnumber adults.  A request is returned
    whatever the other fields of the input are. *)
Theorem C4_traveler_ids (params : FlightSearchParams) :
  1 <= adults (passengers params) ->
  let a := adults (passengers params) in
  let c := children (passengers params) in
  let i := infants (passengers params) in
  exists request,
    buildFlightOffersSearchRequest params = Ok request
    /\ map id (travelers request) = map String_ (seq 1 (a + c + i))
    /\ map travelerType (travelers request)
       = repeat ADULT a ++ repeat CHILD c ++ repeat HELD_INFANT i
    /\ (forall j, j < i ->
          nth_error (travelers request) (a + c + j) =
            Some {| id := String_ (1 + a + c + j);
                    travelerType := HELD_INFANT;
                    associatedAdultId := Some (String_ (1 + j mod a)) |}
          /\ nth_error (firstn a (travelers request)) (j mod a)
             = Some (adult_of (1 + j mod a)))
    /\ (forall t, In t (travelers request) -> travelerType t = HELD_INFANT ->
          exists k, 1 <= k <= a /\ associatedAdultId t = Some (String_ k)
                    /\ In (adult_of k) (travelers request))
    /\ (forall t, In t (travelers request) -> travelerType t <> HELD_INFANT ->
          associatedAdultId t = None).
Proof.
  intros Ha a c i.
  destruct (builder_returns params) as [request Hreq].
  exists request. split; [exact Hreq|].
  assert (Hts : travelers request =
    map adult_of (seq 1 a) ++ map child_of (seq (1 + a) c)
    ++ map (infant_of (1 + a + c) (map String_ (seq 1 a))) (seq 0 i)).
  { unfold buildFlightOffersSearchRequest in Hreq.
    destruct (build_originDestinations params); [|discriminate].
    cbn [bind] in Hreq. injection Hreq as <-. cbn [travelers].
    apply build_travelers_closed. }
  set (ts := travelers request) in *.
  assert (Hlen : List.length (map String_ (seq 1 a)) = a)
    by now rewrite length_map, length_seq.
  split; [|split; [|split; [|split]]].
  - rewrite Hts, !map_app, !map_map.
    cbn [id adult_of child_of infant_of].
    rewrite (map_seq_offset String_).
    rewrite <- !map_app. f_equal.
    replace (a + c + i) with (a + (c + i)) by lia.
    rewrite !seq_app. reflexivity.
  - rewrite Hts, !map_app, !map_map.
    rewrite (map_const_repeat _ ADULT), (map_const_repeat _ CHILD),
      (map_const_repeat _ HELD_INFANT) by reflexivity.
    now rewrite !length_seq.
  - intros j Hj. split.
    + rewrite Hts, app_assoc.
      rewrite nth_error_app2 by (rewrite length_app, !length_map, !length_seq; lia).
      rewrite length_app, !length_map, !length_seq.
      replace (a + c + j - (a + c)) with j by lia.
      rewrite nth_error_map, nth_error_seq.
      destruct (Nat.ltb_spec j i); [|lia]. simpl.
      unfold infant_of. rewrite Hlen, adult_id_at by assumption.
      reflexivity.
    + rewrite Hts, firstn_app, length_map, length_seq, Nat.sub_diag. simpl.
      rewrite app_nil_r, firstn_all2 by (rewrite length_map, length_seq; lia).
      assert (j mod a < a) by (apply Nat.mod_upper_bound; lia).
      rewrite nth_error_map, nth_error_seq.
      destruct (Nat.ltb_spec (j mod a) a); [reflexivity | lia].
  - intros t Hin Hty. rewrite Hts in Hin.
    rewrite !in_app_iff, !in_map_iff in Hin.
    destruct Hin as [[k [<- _]] | [[k [<- _]] | [j [<- Hj]]]]; try discriminate.
    exists (1 + j mod a).
    assert (j mod a < a) by (apply Nat.mod_upper_bound; lia).
    split; [lia|]. split.
    + simpl. rewrite Hlen. now apply adult_id_at.
    + rewrite Hts. apply in_or_app. left. apply in_map. apply in_seq. lia.
  - intros t Hin Hty. rewrite Hts in Hin.
    rewrite !in_app_iff, !in_map_iff in Hin.
    destruct Hin as [[k [<- _]] | [[k [<- _]] | [j [<- Hj]]]];
      try reflexivity.
    now elim Hty.
Qed.

Lemma C4_traveler_ids_witness :
  1 <= adults (passengers (family_trip 2 1 3))
  /\ exists request,
       buildFlightOffersSearchRequest (family_trip 2 1 3) = Ok request
       /\ map id (travelers request) = ["1"; "2"; "3"; "4"; "5"; "6"]%string
       /\ map associatedAdultId (skipn 3 (travelers request))
          = [Some "1"; Some "2"; Some "1"]%string.
Proof.
  assert (H : 1 <= adults (passengers (family_trip 2 1 3))) by (simpl; lia).
  split; [exact H|].
  destruct (C4_traveler_ids (family_trip 2 1 3) H) as [request [Hreq [Hids _]]].
  exists request. split; [exact Hreq|]. split; [exact Hids|].
  vm_compute in Hreq. injection Hreq as <-. reflexivity.
Defined.

End C4.

Section C5C10.

Import Builder.
Local Open Scope nat_scope.
Local Open Scope list_scope.

(** C5. A valid one-way specification yields exactly one
    origin-destination entry, with id "1"; a valid return specification
    with origin O, destination D and dates d1, d2 yields exactly the two
    entries O to D on d1 with id "1" and D to O on d2 with id "2"; and in
    every request the single cabin restriction has coverage
    MOST_SEGMENTS and lists the ids of all origin-destination entries. *)
Theorem C5_origin_destinations :
  (forall p O D d1,
      tripType p = one_way ->
      origin p = Some O -> destination p = Some D -> departureDate p = Some d1 ->
      valid_iata (iataCode O) = true -> valid_iata (iataCode D) = true ->
      valid_date d1 ->
      exists r,
        buildFlightOffersSearchRequest p = Ok r
        /\ originDestinations r =
             [ {| od_id := "1"; originLocationCode := iataCode O;
                  destinationLocationCode := iataCode D;
                  departureDateTimeRange_date := d1 |} ]
        /\ cabinRestrictions r =
             [ {| cabin := travelClass p; coverage := MOST_SEGMENTS;
                  originDestinationIds := ["1"%string] |} ])
  /\ (forall p O D d1 d2,
      tripType p = return_ ->
      origin p = Some O -> destination p = Some D ->
      departureDate p = Some d1 -> returnDate p = Some d2 ->
      valid_iata (iataCode O) = true -> valid_iata (iataCode D) = true ->
      valid_date d1 -> valid_date d2 ->
      exists r,
        buildFlightOffersSearchRequest p = Ok r
        /\ originDestinations r =
             [ {| od_id := "1"; originLocationCode := iataCode O;
                  destinationLocationCode := iataCode D;
                  departureDateTimeRange_date := d1 |};
               {| od_id := "2"; originLocationCode := iataCode D;
                  destinationLocationCode := iataCode O;
                  departureDateTimeRange_date := d2 |} ]
        /\ cabinRestrictions r =
             [ {| cabin := travelClass p; coverage := MOST_SEGMENTS;
                  originDestinationIds := ["1"%string; "2"%string] |} ])
  /\ (forall p r,
      buildFlightOffersSearchRequest p = Ok r ->
      cabinRestrictions r =
        [ {| cabin := travelClass p; coverage := MOST_SEGMENTS;
             originDestinationIds := map od_id (originDestinations r) |} ]).
Proof.
  split; [|split].
  - intros p O D d1 Ht HO HD Hd1 VO VD Vd.
    unfold buildFlightOffersSearchRequest, build_originDestinations, one_way_entries.
    rewrite Ht, HO, HD, Hd1. cbn [is_multi_trip is_one_way andb truthy_obj].
    rewrite (truthy_str_valid d1 Vd). cbn [deref bind].
    rewrite !toUpperCase_valid, slice0_valid by assumption.
    eexists. split; [reflexivity|]. split; reflexivity.
  - intros p O D d1 d2 Ht HO HD Hd1 Hd2 VO VD Vd1 Vd2.
    unfold buildFlightOffersSearchRequest, build_originDestinations, return_entries.
    rewrite Ht, HO, HD, Hd1, Hd2.
    cbn [is_multi_trip is_one_way is_return andb truthy_obj].
    rewrite (truthy_str_valid d1 Vd1), (truthy_str_valid d2 Vd2). cbn [deref bind].
    rewrite !toUpperCase_valid, !slice0_valid by assumption.
    eexists. split; [reflexivity|]. split; reflexivity.
  - intros p r. unfold buildFlightOffersSearchRequest.
    destruct (build_originDestinations p) as [ods|e]; simpl; [|discriminate].
    intros H. injection H as <-. reflexivity.
Qed.

Lemma C5_origin_destinations_witness :
  (exists r, buildFlightOffersSearchRequest (sample_trip one_way None) = Ok r
             /\ map od_id (originDestinations r) = ["1"%string])
  /\ (exists r, buildFlightOffersSearchRequest
                  (sample_trip return_ (Some "2025-03-17"%string)) = Ok r
                /\ map od_id (originDestinations r) = ["1"%string; "2"%string]).
Proof.
  split.
  - destruct (proj1 C5_origin_destinations (sample_trip one_way None)
                lagos heathrow "2025-03-10"%string
                eq_refl eq_refl eq_refl eq_refl eq_refl eq_refl
                ltac:(unfold valid_date; simpl; lia)) as [r [Hr [Hods _]]].
    exists r. split; [exact Hr|]. rewrite Hods. reflexivity.
  - destruct (proj1 (proj2 C5_origin_destinations)
                (sample_trip return_ (Some "2025-03-17"%string))
                lagos heathrow "2025-03-10"%string "2025-03-17"%string
                eq_refl eq_refl eq_refl eq_refl eq_refl eq_refl eq_refl
                ltac:(unfold valid_date; simpl; lia)
                ltac:(unfold valid_date; simpl; lia)) as [r [Hr [Hods _]]].
    exists r. split; [exact Hr|]. rewrite Hods. reflexivity.
Defined.

(** C10. The builder returns a request on every input: no property access
    on an absent field is ever reached.  When the trip type is one-way or
    return and a required field is absent or empty, and when a multi-trip
    has no segment list, the request has no origin-destination entry.  For
    a multi-trip, the entries are exactly those of the segments that have
    an origin, a destination and a departure date, in order and numbered
    from "1": the other segments leave no trace in the request. *)
Theorem C10_builder_total (p : FlightSearchParams) :
  exists r,
    buildFlightOffersSearchRequest p = Ok r
    /\ (tripType p = one_way ->
        origin p = None \/ destination p = None \/ truthy_str (departureDate p) = false ->
        originDestinations r = [])
    /\ (tripType p = return_ ->
        origin p = None \/ destination p = None \/ truthy_str (departureDate p) = false
          \/ truthy_str (returnDate p) = false ->
        originDestinations r = [])
    /\ (tripType p = multi_trip -> segments p = None -> originDestinations r = [])
    /\ (forall segs,
        tripType p = multi_trip -> segments p = Some segs ->
        let kept := filter segment_complete segs in
        List.length (originDestinations r) = List.length kept
        /\ (forall j od, nth_error (originDestinations r) j = Some od ->
              exists s, nth_error kept j = Some s /\ from_segment s j od)
        /\ (forall s, In s segs -> segment_complete s = false -> ~ In s kept)).
Proof.
  destruct (build_originDestinations_total p) as [ods Hods].
  unfold buildFlightOffersSearchRequest. rewrite Hods. cbn [bind].
  eexists. split; [reflexivity|]. cbn [originDestinations].
  unfold build_originDestinations in Hods.
  split; [|split; [|split]].
  - intros Ht Hmiss. rewrite Ht in Hods. cbn [is_multi_trip is_one_way is_return andb] in Hods.
    destruct Hmiss as [H | [H | H]]; rewrite H in Hods;
      cbn [truthy_obj andb] in Hods; rewrite ?andb_false_r in Hods;
      now injection Hods as <-.
  - intros Ht Hmiss. rewrite Ht in Hods. cbn [is_multi_trip is_one_way is_return andb] in Hods.
    destruct Hmiss as [H | [H | [H | H]]]; rewrite H in Hods;
      cbn [truthy_obj andb] in Hods; rewrite ?andb_false_r in Hods;
      now injection Hods as <-.
  - intros Ht Hs. rewrite Ht, Hs in Hods. cbn in Hods. now injection Hods as <-.
  - intros segs Ht Hs. set (kept := filter segment_complete segs).
    rewrite Ht, Hs in Hods. cbn [is_multi_trip truthy_obj andb deref bind] in Hods.
    destruct (map_from_complete kept 0 (filter_all _ _)) as [ods' [Hods' [Hlen Hnth]]].
    fold kept in Hods. rewrite Hods' in Hods. injection Hods as <-.
    split; [assumption|]. split; [exact Hnth|].
    intros s _ Hinc Hin. apply filter_In in Hin as [_ Hin]. congruence.
Qed.

Lemma C10_builder_total_witness :
  exists r,
    buildFlightOffersSearchRequest
      {| tripType := multi_trip; origin := None; destination := None;
         departureDate := None; returnDate := None;
         segments := Some [ {| seg_origin := Some lagos; seg_destination := None;
                               seg_departureDate := Some "2025-03-10"%string |};
                            {| seg_origin := Some lagos; seg_destination := Some heathrow;
                               seg_departureDate := Some "2025-03-12"%string |} ];
         passengers := {| adults := 1; children := 0; infants := 0 |};
         travelClass := ECONOMY; currency := None; maxOffers := None |} = Ok r
    /\ List.length (originDestinations r) = 1.
Proof.
  destruct (C10_builder_total
      {| tripType := multi_trip; origin := None; destination := None;
         departureDate := None; returnDate := None;
         segments := Some [ {| seg_origin := Some lagos; seg_destination := None;
                               seg_departureDate := Some "2025-03-10"%string |};
                            {| seg_origin := Some lagos; seg_destination := Some heathrow;
                               seg_departureDate := Some "2025-03-12"%string |} ];
         passengers := {| adults := 1; children := 0; infants := 0 |};
         travelClass := ECONOMY; currency := None; maxOffers := None |})
    as [r [Hr [_ [_ [_ Hmulti]]]]].
  exists r. split; [exact Hr|].
  exact (proj1 (Hmulti _ eq_refl eq_refl)).
Defined.

End C5C10.

(* ================================================================== *)
(** * Properties of the token cache *)
(* ================================================================== *)

Section C8.

Import Auth.

(** C8. [getAccessToken] answers from the cache, without any exchange and
    without touching the cache, exactly when a token is cached and
    [now + 5 minutes < expiresAt]; in every other case it performs the
    exchange, and a granted token replaces the cache entry with expiry
    [now + expires_in] (seconds, stored in milliseconds), while a failed
    exchange is rethrown and leaves the cache as it was.  With four
    minutes of life left the token is refreshed, with six it is reused. *)
Theorem C8_token_cache (cache : option TokenCache) (now : Z) (world : exchange) :
  let out := getAccessToken cache now world in
  (exchanged out = false <->
     exists c, cache = Some c /\ now + minutes 5 < expiresAt c)
  /\ (forall c, cache = Some c -> now + minutes 5 < expiresAt c ->
        returned out = Ok (token c) /\ cache_after out = cache)
  /\ (exchanged out = true ->
      match world with
      | ExchangeGranted access_token expires_in =>
          returned out = Ok access_token
          /\ cache_after out =
               Some {| token := access_token; expiresAt := now + expires_in * 1000 |}
      | ExchangeNotOk status text =>
          returned out = Throw (AuthFailed status text) /\ cache_after out = cache
      | ExchangeRejected =>
          returned out = Throw NetworkError /\ cache_after out = cache
      end)
  /\ (forall c, cache = Some c -> expiresAt c = now + minutes 4 -> exchanged out = true)
  /\ (forall c, cache = Some c -> expiresAt c = now + minutes 6 ->
        exchanged out = false /\ returned out = Ok (token c)).
Proof.
  unfold minutes. cbv zeta. unfold getAccessToken.
  destruct cache as [c|].
  - destruct (Z.gtb_spec (expiresAt c) (now + 300000)) as [Hlt|Hge].
    + split; [|split; [|split; [|split]]]; cbn [exchanged returned cache_after].
      * split; [intros _ | reflexivity]. exists c. split; [reflexivity | lia].
      * intros c' Hc' _. injection Hc' as <-. split; reflexivity.
      * discriminate.
      * intros c' Hc' He. injection Hc' as <-. lia.
      * intros c' Hc' He. injection Hc' as <-. split; reflexivity.
    + split; [|split; [|split; [|split]]].
      * split.
        -- destruct world; discriminate.
        -- intros [c' [Hc' Hlt]]. injection Hc' as <-. lia.
      * intros c' Hc' Hlt. injection Hc' as <-. lia.
      * intros _. destruct world; split; reflexivity.
      * intros c' _ _. destruct world; reflexivity.
      * intros c' Hc' He. injection Hc' as <-. lia.
  - split; [|split; [|split; [|split]]].
    + split.
      * destruct world; discriminate.
      * intros [c' [Hc' _]]. discriminate Hc'.
    + intros c' Hc'. discriminate Hc'.
    + intros _. destruct world; split; reflexivity.
    + intros c' Hc'. discriminate Hc'.
    + intros c' Hc'. discriminate Hc'.
Qed.

Lemma C8_token_cache_witness :
  (1000000 + minutes 5 < 1000000 + minutes 6)%Z
  /\ returned (getAccessToken (cached (1000000 + minutes 6)) 1000000
                 (ExchangeGranted "new" 1799)) = Ok "old"
  /\ exchanged (getAccessToken (cached (1000000 + minutes 4)) 1000000
                  (ExchangeGranted "new" 1799)) = true.
Proof.
  split; [reflexivity|]. split.
  - exact (proj1 (proj1 (proj2 (C8_token_cache (cached (1000000 + minutes 6)) 1000000
                                  (ExchangeGranted "new" 1799)))
                    {| token := "old"; expiresAt := 1000000 + minutes 6 |}
                    eq_refl eq_refl)).
  - exact (proj1 (proj2 (proj2 (proj2 (C8_token_cache (cached (1000000 + minutes 4)) 1000000
                                  (ExchangeGranted "new" 1799)))))
                    {| token := "old"; expiresAt := 1000000 + minutes 4 |}
                    eq_refl eq_refl).
Defined.

End C8.

(* ================================================================== *)
(** * Properties of binary64 rounding *)
(* ================================================================== *)

Section Pow2Facts.

Lemma pow2_pos (e : Z) : (0 < pow2 e)%Q.
Proof. apply Qpower_0_lt. reflexivity. Qed.

Lemma pow2_add (a b : Z) : (pow2 (a + b) == pow2 a * pow2 b)%Q.
Proof. apply Qpower_plus. discriminate. Qed.

Lemma pow2_Z (e : Z) : 0 <= e -> (pow2 e == inject_Z (2 ^ e))%Q.
Proof. intros H. unfold pow2. now rewrite Zpower_Qpower. Qed.

Lemma pow2_le (a b : Z) : a <= b -> (pow2 a <= pow2 b)%Q.
Proof. intros H. apply Qpower_le_compat_l; [assumption | discriminate]. Qed.

Lemma pow2_lt_inv (a b : Z) : (pow2 a < pow2 b)%Q -> a < b.
Proof. intros H. apply (Qpower_lt_compat_l_inv 2); [assumption | reflexivity]. Qed.

Lemma pow2_succ (a : Z) : (pow2 (a + 1) == 2 * pow2 a)%Q.
Proof. rewrite pow2_add. change (pow2 1) with 2%Q. ring. Qed.

End Pow2Facts.

Section NearestFacts.

Lemma nearest_even_floor (x : Q) :
  Qfloor x <= nearest_even x <= Qfloor x + 1.
Proof.
  unfold nearest_even.
  destruct (x - inject_Z (Qfloor x) ?= 1 # 2)%Q; [destruct (Z.even (Qfloor x))| |]; lia.
Qed.

Lemma nearest_even_lower (x : Q) (j : Z) : (inject_Z j <= x)%Q -> j <= nearest_even x.
Proof.
  intros H. apply Qfloor_resp_le in H. rewrite Qfloor_Z in H.
  pose proof (nearest_even_floor x). lia.
Qed.

Lemma nearest_even_upper (x : Q) (j : Z) : (x <= inject_Z j)%Q -> nearest_even x <= j.
Proof.
  intros H. pose proof (Qfloor_resp_le _ _ H) as Hf. rewrite Qfloor_Z in Hf.
  destruct (Z.eq_dec (Qfloor x) j) as [E|E].
  - unfold nearest_even.
    assert (Hx : (x - inject_Z (Qfloor x) <= 0)%Q) by (rewrite E; lra).
    destruct (Qcompare_spec (x - inject_Z (Qfloor x)) (1 # 2)) as [C|C|C]; try lra. lia.
  - pose proof (nearest_even_floor x). lia.
Qed.

End NearestFacts.

Section LogFacts.

Lemma log2_bounds (n : Z) :
  0 < n -> (pow2 (Z.log2 n) <= inject_Z n)%Q /\ (inject_Z n < 2 * pow2 (Z.log2 n))%Q.
Proof.
  intros Hn. destruct (Z.log2_spec n Hn) as [Hlo Hhi].
  pose proof (Z.log2_nonneg n) as H0.
  rewrite <- pow2_succ, !pow2_Z by lia. rewrite <- Zle_Qle, <- Zlt_Qlt.
  split; [assumption|]. now rewrite <- Z.add_1_r in Hhi.
Qed.

Lemma ilog2_spec (q : Q) :
  (0 < q)%Q -> (pow2 (ilog2 q) <= q)%Q /\ (q < pow2 (ilog2 q + 1))%Q.
Proof.
  intros Hq. destruct q as [n d].
  assert (Hn : 0 < n) by (unfold Qlt in Hq; simpl in Hq; lia).
  destruct (log2_bounds n Hn) as [Ha1 Ha2].
  destruct (log2_bounds (Zpos d) ltac:(lia)) as [Hb1 Hb2].
  unfold ilog2. cbn [Qnum Qden].
  set (a := Z.log2 n) in *. set (b := Z.log2 (Z.pos d)) in *.
  assert (Hab : (pow2 a == pow2 b * pow2 (a - b))%Q)
    by (rewrite <- pow2_add; now replace (b + (a - b)) with a by lia).
  pose proof (pow2_pos (a - b)) as HL. pose proof (pow2_pos b) as HB.
  assert (Hd : (0 < inject_Z (Z.pos d))%Q) by (now rewrite <- (Zlt_Qlt 0)).
  assert (Hq' : (n # d == inject_Z n / inject_Z (Z.pos d))%Q) by apply Qmake_Qdiv.
  assert (Hup : (n # d < 2 * pow2 (a - b))%Q).
  { rewrite Hq'. apply Qlt_shift_div_r; [assumption|]. nra. }
  assert (Hlow : (pow2 (a - b) <= 2 * (n # d))%Q).
  { rewrite Hq'. unfold Qdiv. rewrite Qmult_assoc.
    apply Qle_shift_div_l; [assumption|]. nra. }
  destruct (Qle_bool (pow2 (a - b)) (n # d)) eqn:E.
  - apply Qle_bool_iff in E. split; [assumption|]. now rewrite pow2_succ.
  - replace (a - b - 1 + 1) with (a - b) by lia.
    assert (Hlt : (n # d < pow2 (a - b))%Q).
    { apply Qnot_le_lt. intros C. apply Qle_bool_iff in C. congruence. }
    split; [|assumption].
    assert (Hs : (pow2 (a - b) == 2 * pow2 (a - b - 1))%Q).
    { rewrite <- pow2_succ. now replace (a - b - 1 + 1) with (a - b) by lia. }
    lra.
Qed.

Lemma ilog2_lt (q : Q) (k : Z) : (0 < q)%Q -> (q < pow2 k)%Q -> ilog2 q < k.
Proof.
  intros Hq Hk. destruct (ilog2_spec q Hq) as [Hlo _].
  apply pow2_lt_inv. lra.
Qed.

Lemma ilog2_ge (q : Q) (k : Z) : (pow2 k <= q)%Q -> k <= ilog2 q.
Proof.
  intros Hk. assert (Hq : (0 < q)%Q) by (pose proof (pow2_pos k); lra).
  destruct (ilog2_spec q Hq) as [_ Hhi].
  assert (k < ilog2 q + 1) by (apply pow2_lt_inv; lra). lia.
Qed.

End LogFacts.

Section RoundFacts.

Lemma round_positive_unfold (q : Q) :
  exists e m,
    -1074 <= e /\ (e = -1074 \/ e = ilog2 q - 52) /\ ilog2 q - 52 <= e
    /\ m = nearest_even (q / pow2 e)
    /\ ((pow2 1024 <= inject_Z m * pow2 e)%Q /\ round_positive q = PosInf
        \/ (inject_Z m * pow2 e < pow2 1024)%Q
           /\ exists r, round_positive q = Num r /\ (r == inject_Z m * pow2 e)%Q).
Proof.
  exists (grid_exponent q), (nearest_even (q / pow2 (grid_exponent q))).
  unfold grid_exponent at 1 2 3 4.
  split; [lia|]. split; [lia|]. split; [lia|]. split; [reflexivity|].
  unfold round_positive.
  set (v := (inject_Z (nearest_even (q / pow2 (grid_exponent q))) * pow2 (grid_exponent q))%Q).
  destruct (Qle_bool (pow2 1024) v) eqn:E.
  - left. apply Qle_bool_iff in E. now split.
  - right. split.
    + apply Qnot_le_lt. intros C. apply Qle_bool_iff in C. congruence.
    + exists (Qred v). split; [reflexivity | apply Qred_correct].
Qed.

Lemma scaled_down (q : Q) (e : Z) : (q / pow2 e == q * pow2 (- e))%Q.
Proof.
  unfold Qdiv. apply Qmult_comp; [reflexivity|].
  unfold pow2. now rewrite Qpower_opp.
Qed.

Lemma scaled_back (m : Q) (e : Z) : (m * pow2 (- e) * pow2 e == m)%Q.
Proof.
  rewrite <- Qmult_assoc, <- pow2_add. replace (- e + e) with 0 by lia.
  change (pow2 0) with 1%Q. ring.
Qed.

Lemma round_positive_lower (q : Q) (z : Z) :
  (0 < q)%Q -> z < 2 ^ 53 -> (inject_Z z <= q)%Q ->
  round_positive q = PosInf
  \/ exists r, round_positive q = Num r /\ (inject_Z z <= r)%Q.
Proof.
  intros Hq Hz Hle.
  destruct (round_positive_unfold q) as [e [m [He [Hcase [Hge [Hm Hres]]]]]].
  destruct Hres as [[_ ->] | [_ [r [-> Hr]]]]; [now left | right].
  exists r. split; [reflexivity|]. rewrite Hr.
  pose proof (pow2_pos e) as Hpe. pose proof (pow2_pos (- e)) as Hpne.
  destruct (Z.le_gt_cases e 0) as [Hneg|Hpos].
  - assert (Hj : z * 2 ^ (- e) <= m).
    { rewrite Hm. apply nearest_even_lower.
      rewrite scaled_down, inject_Z_mult, <- pow2_Z by lia. nra. }
    rewrite Zle_Qle in Hj. rewrite inject_Z_mult, <- pow2_Z in Hj by lia.
    rewrite <- (scaled_back (inject_Z z) e). nra.
  - assert (He' : e = ilog2 q - 52) by lia.
    destruct (ilog2_spec q Hq) as [Hlo _].
    assert (Hx : 2 ^ 52 <= m).
    { rewrite Hm. apply nearest_even_lower.
      rewrite <- pow2_Z by lia. apply Qle_shift_div_l; [assumption|].
      rewrite <- pow2_add. replace (52 + e) with (ilog2 q) by lia. assumption. }
    rewrite Zle_Qle in Hx. rewrite <- pow2_Z in Hx by lia.
    assert (H53 : (pow2 53 <= pow2 (52 + e))%Q) by (apply pow2_le; lia).
    rewrite pow2_add in H53.
    assert (Hz' : (inject_Z z < pow2 53)%Q)
      by (rewrite pow2_Z by lia; now rewrite <- Zlt_Qlt).
    nra.
Qed.

Lemma round_positive_upper (q : Q) (z : Z) :
  (0 < q)%Q -> z < 2 ^ 53 -> (q <= inject_Z z)%Q ->
  exists r, round_positive q = Num r /\ (r <= inject_Z z)%Q.
Proof.
  intros Hq Hz Hle.
  assert (Hz' : (inject_Z z < pow2 53)%Q)
    by (rewrite pow2_Z by lia; now rewrite <- Zlt_Qlt).
  destruct (round_positive_unfold q) as [e [m [He [Hcase [Hge [Hm Hres]]]]]].
  pose proof (pow2_pos e) as Hpe. pose proof (pow2_pos (- e)) as Hpne.
  assert (Hneg : e <= 0).
  { assert (ilog2 q < 53) by (apply ilog2_lt; [assumption | lra]). lia. }
  assert (Hj : m <= z * 2 ^ (- e)).
  { rewrite Hm. apply nearest_even_upper.
    rewrite scaled_down, inject_Z_mult, <- pow2_Z by lia. nra. }
  rewrite Zle_Qle in Hj. rewrite inject_Z_mult, <- pow2_Z in Hj by lia.
  assert (Hv : (inject_Z m * pow2 e <= inject_Z z)%Q).
  { rewrite <- (scaled_back (inject_Z z) e). nra. }
  assert (H1024 : (pow2 53 <= pow2 1024)%Q) by (apply pow2_le; lia).
  destruct Hres as [[Hover _] | [_ [r [-> Hr]]]].
  - exfalso. apply (Qlt_irrefl (pow2 1024)).
    eapply Qle_lt_trans; [exact Hover|]. eapply Qle_lt_trans; [exact Hv|].
    eapply Qlt_le_trans; eassumption.
  - exists r. split; [reflexivity|]. now rewrite Hr.
Qed.

Lemma round_positive_nonneg (q : Q) :
  (0 < q)%Q ->
  round_positive q = PosInf \/ exists r, round_positive q = Num r /\ (0 <= r)%Q.
Proof.
  intros Hq. apply (round_positive_lower q 0 Hq); [reflexivity | now apply Qlt_le_weak].
Qed.

Lemma round_positive_positive (q : Q) :
  (pow2 (-1074) <= q)%Q ->
  round_positive q = PosInf \/ exists r, round_positive q = Num r /\ (0 < r)%Q.
Proof.
  intros Hle. assert (Hq : (0 < q)%Q) by (pose proof (pow2_pos (-1074)); lra).
  destruct (round_positive_unfold q) as [e [m [He [Hcase [Hge [Hm Hres]]]]]].
  destruct Hres as [[_ ->] | [_ [r [-> Hr]]]]; [now left | right].
  exists r. split; [reflexivity|]. rewrite Hr.
  pose proof (pow2_pos e) as Hpe.
  assert (Hx : 1 <= m).
  { rewrite Hm. apply nearest_even_lower. apply Qle_shift_div_l; [assumption|].
    change (inject_Z 1) with 1%Q.
    destruct Hcase as [-> | ->]; [lra|].
    destruct (ilog2_spec q Hq) as [Hlo _].
    assert (Hp : (pow2 (ilog2 q - 52) <= pow2 (ilog2 q))%Q) by (apply pow2_le; lia).
    lra. }
  rewrite Zle_Qle in Hx. change (inject_Z 1) with 1%Q in Hx. nra.
Qed.

Lemma round_positive_grid (q r : Q) : round_positive q = Num r -> on_grid r.
Proof.
  intros H.
  destruct (round_positive_unfold q) as [e [m [He [_ [_ [_ Hres]]]]]].
  destruct Hres as [[_ C] | [_ [r' [E Hr]]]]; [congruence|].
  rewrite H in E. injection E as <-.
  exists (m * 2 ^ (e + 1074)). rewrite Hr, inject_Z_mult, <- pow2_Z by lia.
  rewrite <- Qmult_assoc, <- pow2_add. now replace (e + 1074 + -1074) with e by lia.
Qed.

End RoundFacts.

Section Round64Facts.

Lemma Qred_inject_Z (z : Z) : Qred (inject_Z z) = inject_Z z.
Proof.
  unfold Qred, inject_Z.
  pose proof (Z.ggcd_gcd z 1) as Hg. pose proof (Z.ggcd_correct_divisors z 1) as Hd.
  destruct (Z.ggcd z 1) as [g [a b]]. cbn [fst snd] in *.
  rewrite Z.gcd_1_r in Hg. subst g. destruct Hd as [Ha Hb].
  rewrite Z.mul_1_l in Ha, Hb. now subst.
Qed.

Lemma Qopp_twice (q : Q) : (- - q)%Q = q.
Proof. destruct q as [n d]. unfold Qopp. cbn [Qnum Qden]. now rewrite Z.opp_involutive. Qed.

Lemma round64_compat (p q : Q) : (p == q)%Q -> round64 p = round64 q.
Proof. intros H. unfold round64. now rewrite (Qred_complete p q H). Qed.

Lemma Qnum_sign (q : Q) :
  match Qnum q with
  | Z0 => (q == 0)%Q
  | Zpos _ => (0 < q)%Q
  | Zneg _ => (q < 0)%Q
  end.
Proof.
  destruct q as [[|n|n] d]; unfold Qeq, Qlt; cbn [Qnum Qden]; lia.
Qed.

Lemma round64_zero (q : Q) : (q == 0)%Q -> round64 q = Num 0.
Proof. intros H. now rewrite (round64_compat q 0 H). Qed.

Lemma round64_pos (q : Q) : (0 < q)%Q -> round64 q = round_positive (Qred q).
Proof.
  intros H. unfold round64. pose proof (Qnum_sign (Qred q)) as Hs.
  pose proof (Qred_correct q) as Hr.
  destruct (Qnum (Qred q)); [lra | reflexivity | lra].
Qed.

Lemma num_opp_twice (a : number) : num_opp (num_opp a) = a.
Proof. destruct a; cbn [num_opp]; try reflexivity. now rewrite Qopp_twice. Qed.

Lemma round64_opp (q : Q) : round64 (- q) = num_opp (round64 q).
Proof.
  unfold round64. rewrite Qred_opp.
  destruct (Qred q) as [[|n|n] d]; cbn [Qnum Qopp Z.opp Qden].
  - reflexivity.
  - reflexivity.
  - now rewrite num_opp_twice.
Qed.

Lemma round64_lower (q : Q) (z : Z) :
  (0 < q)%Q -> z < 2 ^ 53 -> (inject_Z z <= q)%Q ->
  round64 q = PosInf \/ exists r, round64 q = Num r /\ (inject_Z z <= r)%Q.
Proof.
  intros Hq Hz Hle. rewrite (round64_pos q Hq).
  apply round_positive_lower; rewrite ?Qred_correct; assumption.
Qed.

Lemma round64_upper (q : Q) (z : Z) :
  (0 < q)%Q -> z < 2 ^ 53 -> (q <= inject_Z z)%Q ->
  exists r, round64 q = Num r /\ (r <= inject_Z z)%Q.
Proof.
  intros Hq Hz Hle. rewrite (round64_pos q Hq).
  apply round_positive_upper; rewrite ?Qred_correct; assumption.
Qed.

Lemma round64_nonneg (q : Q) :
  (0 <= q)%Q -> round64 q = PosInf \/ exists r, round64 q = Num r /\ (0 <= r)%Q.
Proof.
  intros Hq. destruct (Qlt_le_dec 0 q) as [Hpos|Hzero].
  - rewrite (round64_pos q Hpos). apply round_positive_nonneg. now rewrite Qred_correct.
  - right. exists 0%Q. split; [apply round64_zero; lra | lra].
Qed.

Lemma round64_grid (q r : Q) : round64 q = Num r -> on_grid r.
Proof.
  unfold round64. destruct (Qnum (Qred q)).
  - intros H. injection H as <-. exists 0. reflexivity.
  - apply round_positive_grid.
  - destruct (round_positive (- Qred q)) as [| |r'|] eqn:E; cbn [num_opp]; try discriminate.
    intros H. injection H as <-. destruct (round_positive_grid _ _ E) as [k Hk].
    exists (- k). rewrite Hk, inject_Z_opp. ring.
Qed.

Lemma round64_reduced (q r : Q) : round64 q = Num r -> Qred r = r.
Proof.
  assert (Hpos : forall p s, round_positive p = Num s -> Qred s = s).
  { intros p s. unfold round_positive.
    set (v := (inject_Z (nearest_even (p / pow2 (grid_exponent p))) * pow2 (grid_exponent p))%Q).
    destruct (Qle_bool _ _); [discriminate|]. intros H.
    assert (Hs : s = Qred v) by congruence. rewrite Hs.
    apply Qred_complete, Qred_correct. }
  unfold round64. destruct (Qnum (Qred q)).
  - intros H. injection H as <-. reflexivity.
  - apply Hpos.
  - destruct (round_positive (- Qred q)) as [| |r'|] eqn:E; cbn [num_opp]; try discriminate.
    intros H. injection H as <-. rewrite Qred_opp. f_equal. now apply (Hpos _ _ E).
Qed.

Lemma round64_int (z : Z) : Z.abs z < 2 ^ 53 -> round64 (inject_Z z) = Num (inject_Z z).
Proof.
  assert (Hpos : forall k, 0 < k < 2 ^ 53 -> round64 (inject_Z k) = Num (inject_Z k)).
  { intros k [Hk0 Hk].
    assert (Hq : (0 < inject_Z k)%Q) by (now rewrite <- (Zlt_Qlt 0)).
    destruct (round64_upper (inject_Z k) k Hq Hk ltac:(lra)) as [r [Hr Hup]].
    destruct (round64_lower (inject_Z k) k Hq Hk ltac:(lra)) as [C | [r' [Hr' Hlo]]];
      [congruence|].
    rewrite Hr in Hr'. injection Hr' as <-.
    rewrite Hr. f_equal. rewrite <- (round64_reduced _ _ Hr), <- Qred_inject_Z.
    apply Qred_complete. lra. }
  intros Hz. destruct (Z.lt_trichotomy z 0) as [Hneg | [-> | Hgt]].
  - replace z with (- - z) by lia. rewrite inject_Z_opp, round64_opp.
    rewrite (Hpos (- z)) by lia. cbn [num_opp]. reflexivity.
  - reflexivity.
  - apply Hpos. lia.
Qed.

(** The sign of a rounded number on the binary64 grid is the sign of
    the number: nothing on the grid is rounded to zero. *)
Lemma round64_sign (q : Q) : on_grid q -> SortCompare (round64 q) = (q ?= 0)%Q.
Proof.
  assert (Hpos : forall p, on_grid p -> (0 < p)%Q -> SortCompare (round64 p) = Gt).
  { intros p [k Hk] Hp. pose proof (pow2_pos (-1074)) as Hg.
    assert (Hk1 : 1 <= k).
    { destruct (Z.le_gt_cases 1 k) as [H|H]; [assumption|exfalso].
      assert (Hk0 : (inject_Z k <= inject_Z 0)%Q) by (rewrite <- Zle_Qle; lia).
      change (inject_Z 0) with 0%Q in Hk0. nra. }
    rewrite Zle_Qle in Hk1. change (inject_Z 1) with 1%Q in Hk1.
    rewrite (round64_pos p Hp).
    destruct (round_positive_positive (Qred p)) as [-> | [r [-> Hr]]];
      [rewrite Qred_correct; nra | reflexivity |].
    unfold SortCompare. cbn [num_sign]. now apply Qgt_alt. }
  intros Hq. destruct (Qcompare_spec q 0) as [E|L|G].
  - rewrite (round64_zero q E). reflexivity.
  - assert (Hn : on_grid (- q)).
    { destruct Hq as [k Hk]. exists (- k). rewrite Hk, inject_Z_opp. ring. }
    replace q with (- - q)%Q by apply Qopp_twice. rewrite round64_opp.
    specialize (Hpos (- q)%Q Hn ltac:(lra)).
    destruct (round64 (- q)) as [| |r|]; unfold SortCompare in *; cbn [num_sign num_opp] in *;
      try discriminate.
    + apply Qgt_alt in Hpos. apply -> Qlt_alt. lra.
    + reflexivity.
  - now apply Hpos.
Qed.

End Round64Facts.

(* ================================================================== *)
(** * Properties of the retrying fetch client *)
(* ================================================================== *)

Section NumberFacts.

Lemma Qle_bool_inject (a b : Z) : Qle_bool (inject_Z a) (inject_Z b) = (a <=? b).
Proof.
  unfold Qle_bool, inject_Z. simpl. now rewrite !Z.mul_1_r.
Qed.

Lemma Math_min_Z (a b : Z) :
  Math_min (num_of_Z a) (num_of_Z b) = num_of_Z (Z.min a b).
Proof.
  unfold Math_min, num_of_Z, num_le. rewrite Qle_bool_inject.
  destruct (Z.leb_spec a b); f_equal; f_equal; lia.
Qed.

Lemma Qle_bool_false (x y : Q) : Qle_bool x y = false -> (y < x)%Q.
Proof.
  intros H. apply Qnot_le_lt. intros Hle. apply Qle_bool_iff in Hle. congruence.
Qed.

End NumberFacts.

Section C9.

Import Fetch.

Lemma jitter_range (rnd : Q) : (0 <= rnd)%Q -> (rnd < 1)%Q -> 0 <= jitter_of rnd <= 149.
Proof.
  intros H0 H1. unfold jitter_of.
  assert (Hlo : (inject_Z 0 <= rnd * 150)%Q).
  { change (inject_Z 0) with (0 * 150)%Q. apply Qmult_le_compat_r; [assumption | discriminate]. }
  assert (Hhi : (rnd * 150 < inject_Z 150)%Q).
  { change (inject_Z 150) with (1 * 150)%Q. apply Qmult_lt_compat_r; [reflexivity | assumption]. }
  apply Qfloor_resp_le in Hlo. rewrite Qfloor_Z in Hlo.
  assert (Hf : (inject_Z (Qfloor (rnd * 150)) <= rnd * 150)%Q) by apply Qfloor_le.
  assert (Hlt : (inject_Z (Qfloor (rnd * 150)) < inject_Z 150)%Q)
    by (eapply Qle_lt_trans; eassumption).
  rewrite <- Zlt_Qlt in Hlt. lia.
Qed.

(** The product of the seconds of a header and 1000, set against whole
    numbers of milliseconds: rounding never carries it across one. *)
Lemma retry_after_ms (s : Q) :
  (0 <= s)%Q ->
  let ms := num_mul (Num s) (num_of_Z 1000) in
  (ms = PosInf \/ exists r, ms = Num r)
  /\ forall z, 0 <= z < 2 ^ 53 ->
       ((inject_Z z <= s * 1000)%Q -> num_le (num_of_Z z) ms = true)
       /\ ((s * 1000 <= inject_Z z)%Q -> num_le ms (num_of_Z z) = true).
Proof.
  intros Hs ms. unfold ms, num_mul, num_of_Z.
  change (inject_Z 1000) with 1000%Q.
  assert (Hq : (0 <= s * 1000)%Q) by lra.
  split.
  - destruct (round64_nonneg _ Hq) as [-> | [r [-> _]]]; [now left | right; now exists r].
  - intros z [Hz0 Hz]. destruct (Qlt_le_dec 0 (s * 1000)) as [Hpos|Hzero].
    + split; intros Hle.
      * destruct (round64_lower _ z Hpos Hz Hle) as [-> | [r [-> Hr]]]; [reflexivity|].
        cbn [num_le]. now apply Qle_bool_iff.
      * destruct (round64_upper _ z Hpos Hz Hle) as [r [-> Hr]].
        cbn [num_le]. now apply Qle_bool_iff.
    + rewrite (round64_zero (s * 1000)) by lra.
      assert (H0 : (inject_Z 0 <= inject_Z z)%Q) by (now rewrite <- Zle_Qle).
      change (inject_Z 0) with 0%Q in H0.
      split; intros Hle; cbn [num_le]; apply Qle_bool_iff; lra.
Qed.

(** Clamping to the interval from 500 to 5000. *)
Lemma clamp_bounds (ms : number) :
  (ms = PosInf \/ exists r, ms = Num r) ->
  exists d, Math_min (num_of_Z 5000) (Math_max (num_of_Z 500) ms) = Num d
    /\ (500 <= d)%Q /\ (d <= 5000)%Q
    /\ forall z, 500 <= z <= 5000 ->
         (num_le (num_of_Z z) ms = true -> (inject_Z z <= d)%Q)
         /\ (num_le ms (num_of_Z z) = true -> (d <= inject_Z z)%Q).
Proof.
  intros [-> | [r ->]].
  - exists 5000%Q. split; [reflexivity|]. split; [discriminate|]. split; [apply Qle_refl|].
    intros z [Hlo Hhi]. split; [|discriminate]. intros _.
    change 5000%Q with (inject_Z 5000). now rewrite <- Zle_Qle.
  - unfold Math_max, Math_min, num_of_Z, num_le.
    assert (Hz : forall z, 500 <= z <= 5000 ->
                   (500 <= inject_Z z)%Q /\ (inject_Z z <= 5000)%Q).
    { intros z [Hlo Hhi]. change 500%Q with (inject_Z 500).
      change 5000%Q with (inject_Z 5000). rewrite <- !Zle_Qle. now split. }
    change (inject_Z 500) with 500%Q. change (inject_Z 5000) with 5000%Q.
    destruct (Qle_bool 500 r) eqn:E1.
    + apply Qle_bool_iff in E1. destruct (Qle_bool 5000 r) eqn:E2.
      * apply Qle_bool_iff in E2. exists 5000%Q.
        split; [reflexivity|]. split; [discriminate|]. split; [apply Qle_refl|].
        intros z Hzr. destruct (Hz z Hzr) as [Hz1 Hz2].
        split; intros H; apply Qle_bool_iff in H; lra.
      * apply Qle_bool_false in E2. exists r.
        split; [reflexivity|]. split; [assumption|]. split; [lra|].
        intros z Hzr. split; intros H; now apply Qle_bool_iff in H.
    + apply Qle_bool_false in E1. cbn [Qle_bool]. exists 500%Q.
      split; [reflexivity|]. split; [apply Qle_refl|]. split; [discriminate|].
      intros z Hzr. destruct (Hz z Hzr) as [Hz1 Hz2].
      split; intros H; apply Qle_bool_iff in H; lra.
Qed.



End C9.

Section C9Witness.

Import Fetch.


End C9Witness.

Section FetchFacts.

Import Fetch.
Local Open Scope list_scope.

Lemma shape_stop (maxRetries : Z) (attempt : nat) (io : attempt_io)
      (rest : list attempt_io) (r : run) :
  delays r = [] -> ends maxRetries attempt 0 io r ->
  shape maxRetries attempt (io :: rest) r.
Proof.
  intros Hd He. exists [], io, rest. rewrite Hd. cbn [List.length]. rewrite Nat.add_0_r.
  split; [reflexivity|]. split; [constructor|]. split; [reflexivity|].
  split; [intros C; now elim C | assumption].
Qed.

Lemma shape_go (maxRetries : Z) (attempt : nat) (io : attempt_io)
      (rest : list attempt_io) (delay : number) (r1 : run) :
  transient io -> Z.of_nat attempt < maxRetries ->
  shape maxRetries (S attempt) rest r1 ->
  shape maxRetries attempt (io :: rest)
        {| outcome := outcome r1; delays := delay :: delays r1;
           fetches := S (fetches r1) |}.
Proof.
  intros Htr Hlt [before [io' [after [Hsc [Hall [Hlen [Hb He]]]]]]].
  exists (io :: before), io', after. cbn [outcome delays fetches List.length].
  split; [now rewrite Hsc|]. split; [now constructor|]. split; [now rewrite Hlen|].
  replace (attempt + S (List.length before))%nat
    with (S attempt + List.length before)%nat by lia.
  split.
  - intros _. destruct before as [|b before']; [cbn [List.length]; lia|].
    apply Hb. discriminate.
  - destruct He as [[e [Ht [Ho Hf]]] | [Ht [Hf Hrest]]].
    + left. exists e. cbn [outcome fetches]. now rewrite Hf.
    + right. cbn [outcome fetches]. split; [assumption|]. split; [now rewrite Hf|].
      exact Hrest.
Qed.

Lemma retry_loop_shape (maxRetries : Z) (script : list attempt_io) :
  forall (attempt : nat) (r : run),
    retry_loop maxRetries attempt script = Some r ->
    shape maxRetries attempt script r.
Proof.
  induction script as [|io rest IH]; intros attempt r H; [discriminate|].
  cbn [retry_loop] in H.
  assert (Hgo : forall delay, transient io -> Z.of_nat attempt < maxRetries ->
            after_sleep delay (retry_loop maxRetries (S attempt) rest) = Some r ->
            shape maxRetries attempt (io :: rest) r).
  { intros delay Htr Hlt Hs. unfold after_sleep in Hs.
    destruct (retry_loop maxRetries (S attempt) rest) as [r1|] eqn:Hr1; [|discriminate].
    injection Hs as <-. apply shape_go; auto. }
  destruct (token_io io) as [tok|e] eqn:Htok.
  - assert (Hok : exists t, token_io io = Ok t) by (exists tok; assumption).
    destruct (fetch_io io) as [|resp] eqn:Hfetch.
    + destruct (Z.ltb_spec (Z.of_nat attempt) maxRetries) as [Hlt|Hge].
      * eapply Hgo; [|assumption|exact H]. split; [assumption|now left].
      * injection H as <-. apply shape_stop; [reflexivity|].
        right. split; [assumption|]. split; [reflexivity|]. left. auto.
    + destruct (ok resp) eqn:Hresp.
      { injection H as <-. apply shape_stop; [reflexivity|].
        right. split; [assumption|]. split; [reflexivity|].
        right. exists resp. repeat split; auto. }
      destruct (isAuthError (status resp)) eqn:Hauth.
      { injection H as <-. apply shape_stop; [reflexivity|].
        right. split; [assumption|]. split; [reflexivity|].
        right. exists resp. repeat split; auto. }
      destruct (isRetriableStatus (status resp)) eqn:Hretry; cbn [andb] in H.
      * destruct (Z.ltb_spec (Z.of_nat attempt) maxRetries) as [Hlt|Hge].
        -- eapply Hgo; [|assumption|exact H]. split; [assumption|].
           right. exists resp. repeat split; auto.
        -- injection H as <-. apply shape_stop; [reflexivity|].
           right. split; [assumption|]. split; [reflexivity|].
           right. exists resp. repeat split; auto.
      * injection H as <-. apply shape_stop; [reflexivity|].
        right. split; [assumption|]. split; [reflexivity|].
        right. exists resp. repeat split; auto.
  - injection H as <-. apply shape_stop; [reflexivity|].
    left. exists e. auto.
Qed.

(** The loop ends within [maxRetries + 1] iterations: a script that is
    longer than the retries left is never exhausted. *)
Lemma retry_loop_total (maxRetries : Z) (script : list attempt_io) :
  forall attempt : nat,
    maxRetries < Z.of_nat (attempt + List.length script) ->
    script <> [] ->
    exists r, retry_loop maxRetries attempt script = Some r.
Proof.
  induction script as [|io rest IH]; intros attempt Hlen Hne; [now elim Hne|].
  cbn [retry_loop].
  assert (Hgo : forall delay, Z.of_nat attempt < maxRetries ->
            exists r, after_sleep delay (retry_loop maxRetries (S attempt) rest) = Some r).
  { intros delay Hlt.
    destruct (IH (S attempt)) as [r1 Hr1].
    - cbn [List.length] in Hlen. lia.
    - intros ->. cbn [List.length] in Hlen. lia.
    - rewrite Hr1. cbn [after_sleep]. eauto. }
  destruct (token_io io); [|eauto].
  destruct (fetch_io io) as [|resp].
  - destruct (Z.ltb_spec (Z.of_nat attempt) maxRetries); [auto | eauto].
  - destruct (ok resp); [eauto|].
    destruct (isAuthError (status resp)); [eauto|].
    destruct (isRetriableStatus (status resp)); cbn [andb]; [|eauto].
    destruct (Z.ltb_spec (Z.of_nat attempt) maxRetries); [auto | eauto].
Qed.

End FetchFacts.

Section C1.

Import Fetch.
Local Open Scope list_scope.

(** C1, as stated, fails: with one retry allowed, a 500 response followed
    by a network failure makes the client throw although the network call
    did not fail on every attempt. *)
Lemma C1_counterexample :
  exists r,
    amadeusFetch (Some 1) [answer 500; network_down] = Some r
    /\ outcome r = Throw NetworkError
    /\ fetches r = 2%nat
    /\ ~ Forall (fun io => fetch_io io = Rejected) [answer 500; network_down].
Proof.
  eexists. split; [reflexivity|]. split; [reflexivity|]. split; [reflexivity|].
  intros H. inversion H as [|io l Hio _]. discriminate Hio.
Qed.

(** C1, amended. A run of the client ends within [1 + maxRetries]
    iterations (when [maxRetries >= 0]; at the first otherwise).  Every
    iteration before the last obtained a token and either failed at the
    network level or received a retriable status (5xx, 408, 429) that is
    neither 2xx nor 401/403, and was followed by one sleep; at most
    [maxRetries] such iterations occur.  The last iteration decides the
    result: a response is returned as it is when it is 2xx, when it is
    401 or 403, when its status is not retriable (any other 4xx), or when
    it is retriable and the [maxRetries] retries are used up; the client
    throws only when token acquisition throws, or when the network call
    fails and the [maxRetries] retries are used up, whether they were
    spent on network failures or on retriable responses. *)
Theorem C1_retry_policy (maxRetries : option Z) (script : list attempt_io) :
  let M := maxRetries_or_default maxRetries in
  (M < Z.of_nat (List.length script) -> script <> [] ->
   exists r, amadeusFetch maxRetries script = Some r)
  /\ (forall r, amadeusFetch maxRetries script = Some r ->
      exists before io after,
        script = before ++ io :: after
        /\ Forall transient before
        /\ List.length (delays r) = List.length before
        /\ (before <> [] -> Z.of_nat (List.length before) <= M)
        /\ ((exists e, token_io io = Throw e /\ outcome r = Throw e
                       /\ fetches r = List.length before)
            \/ ((exists tok, token_io io = Ok tok)
                /\ fetches r = S (List.length before)
                /\ ((fetch_io io = Rejected /\ outcome r = Throw NetworkError
                     /\ M <= Z.of_nat (List.length before))
                    \/ exists resp,
                         fetch_io io = Responded resp /\ outcome r = Ok resp
                         /\ (ok resp = true
                             \/ isAuthError (status resp) = true
                             \/ isRetriableStatus (status resp) = false
                             \/ M <= Z.of_nat (List.length before)))))).
Proof.
  intros M. split.
  - intros Hlen Hne. apply retry_loop_total; assumption.
  - intros r Hr. apply retry_loop_shape in Hr.
    destruct Hr as [before [io [after [Hsc [Hall [Hlen [Hb He]]]]]]].
    exists before, io, after. cbn [Nat.add] in *.
    repeat (split; [assumption|]). exact He.
Qed.

Lemma C1_retry_policy_witness :
  maxRetries_or_default (Some 1) < Z.of_nat (List.length [answer 500; answer 200])
  /\ [answer 500; answer 200] <> []
  /\ exists r, amadeusFetch (Some 1) [answer 500; answer 200] = Some r.
Proof.
  assert (H1 : maxRetries_or_default (Some 1)
               < Z.of_nat (List.length [answer 500; answer 200])) by reflexivity.
  assert (H2 : [answer 500; answer 200] <> []) by discriminate.
  split; [exact H1|]. split; [exact H2|].
  exact (proj1 (C1_retry_policy (Some 1) [answer 500; answer 200]) H1 H2).
Defined.

(** A 500 followed by a 200 returns the 200 after exactly one retry, and a
    401 is returned at once. *)
Example retry_then_success :
  amadeusFetch None [answer 500; answer 200; answer 200; answer 200]
  = Some {| outcome := Ok {| status := 200; retryAfter := None; payload := ""%string |};
            delays := [num_of_Z 400]; fetches := 2 |}.
Proof. reflexivity. Qed.

Example unauthorized_is_final :
  amadeusFetch None [answer 401; answer 200; answer 200; answer 200]
  = Some {| outcome := Ok {| status := 401; retryAfter := None; payload := ""%string |};
            delays := []; fetches := 1 |}.
Proof. reflexivity. Qed.

End C1.

(* ================================================================== *)
(** * Properties of the filter / sort / paginate engine *)
(* ================================================================== *)

Section StopsFacts.

Import Offers.
Local Open Scope list_scope.

Lemma filter_true {A : Type} (f : A -> bool) (l : list A) :
  (forall x, f x = true) -> filter f l = l.
Proof.
  intros Hf. induction l as [|x l IH]; simpl; [reflexivity|]. now rewrite Hf, IH.
Qed.

Lemma forallb_true {A : Type} (l : list A) : forallb (fun _ => true) l = true.
Proof. induction l; simpl; auto. Qed.

Lemma filterByStops_In (bucket : string) (test : Z -> bool) (P : Z -> Prop)
      (offers : list FlightOffer) (offer : FlightOffer) :
  (forall it, stops_ok bucket it = test (stopCount it)) ->
  (forall z, test z = true <-> P z) ->
  In offer (filterByStops offers bucket)
  <-> In offer offers /\ Forall (fun it => P (stopCount it)) (itineraries offer).
Proof.
  intros Hok Htest. unfold filterByStops. rewrite filter_In, forallb_forall, Forall_forall.
  split; intros [Hin H]; (split; [assumption|]); intros it Hit.
  - apply Htest. rewrite <- Hok. now apply H.
  - rewrite Hok. apply Htest. now apply H.
Qed.

Lemma filterByStops_other (bucket : string) (offers : list FlightOffer) :
  String.eqb bucket "nonstop" = false ->
  String.eqb bucket "1-stop" = false ->
  String.eqb bucket "2+-stops" = false ->
  filterByStops offers bucket = offers.
Proof.
  intros H0 H1 H2. unfold filterByStops. apply filter_true.
  intros offer. unfold stops_ok. rewrite H0, H1, H2. apply forallb_true.
Qed.

End StopsFacts.

Section C6.

Import Offers.
Local Open Scope list_scope.

Variable Array_sort : (FlightOffer -> FlightOffer -> number)
                      -> list FlightOffer -> list FlightOffer.
Variable Date_getTime : string -> number.

(** C6. The stops filter keeps an offer exactly when the offer is in the
    list and every one of its itineraries has [segments - 1] equal to 0
    (nonstop), equal to 1 (1-stop), or at least 2 (2+-stops); "any" keeps
    the list as it is; the filter of the utilities module keeps the same
    offers as the route's; and an offer with 1 and 2 segments is dropped
    by nonstop and by 1-stop but kept by any. *)
Theorem C6_stops_filter (offers : list FlightOffer) :
  (forall offer,
      In offer (filterByStops offers "nonstop")
      <-> In offer offers /\ Forall (fun it => stopCount it = 0) (itineraries offer))
  /\ (forall offer,
      In offer (filterByStops offers "1-stop")
      <-> In offer offers /\ Forall (fun it => stopCount it = 1) (itineraries offer))
  /\ (forall offer,
      In offer (filterByStops offers "2+-stops")
      <-> In offer offers /\ Forall (fun it => stopCount it >= 2) (itineraries offer))
  /\ filterByStops offers "any" = offers
  /\ (forall bucket,
      filterFlightOffers Array_sort Date_getTime offers
        {| airlines := None; stops := Some bucket; sortBy := None |}
      = filterByStops offers bucket)
  /\ filterByStops (offers ++ [mixed_offer]) "any" = offers ++ [mixed_offer]
  /\ ~ In mixed_offer (filterByStops [mixed_offer] "nonstop")
  /\ ~ In mixed_offer (filterByStops [mixed_offer] "1-stop")
  /\ In mixed_offer (filterByStops [mixed_offer] "any").
Proof.
  split; [|split; [|split; [|split; [|split; [|split; [|split; [|split]]]]]]].
  - intros offer. apply (filterByStops_In "nonstop" (fun z => z =? 0) (fun z => z = 0)).
    + reflexivity.
    + intros z. apply Z.eqb_eq.
  - intros offer. apply (filterByStops_In "1-stop" (fun z => z =? 1) (fun z => z = 1)).
    + reflexivity.
    + intros z. apply Z.eqb_eq.
  - intros offer. apply (filterByStops_In "2+-stops" (fun z => z >=? 2) (fun z => z >= 2)).
    + reflexivity.
    + intros z. rewrite Z.geb_le. lia.
  - now apply filterByStops_other.
  - intros bucket. unfold filterFlightOffers, apply_sort, apply_airlines, apply_stops.
    cbn [airlines stops sortBy truthy_str].
    destruct bucket as [|c bucket]; cbn [truthy_str].
    + symmetry. now apply filterByStops_other.
    + destruct (String.eqb (String c bucket) "any") eqn:Hany; [|reflexivity].
      apply String.eqb_eq in Hany. rewrite Hany. symmetry. now apply filterByStops_other.
  - now apply filterByStops_other.
  - intros H. exact H.
  - intros H. exact H.
  - left. reflexivity.
Qed.

End C6.

Section SliceFacts.

Local Open Scope list_scope.

(** For a start inside or past the array and a window of positive
    length, [slice] is "skip, then take". *)
Lemma Array_slice_window {A : Type} (l : list A) (start size : Z) :
  0 <= start -> 0 <= size ->
  Array_slice l start (start + size)
  = firstn (Z.to_nat size) (skipn (Z.to_nat start) l).
Proof.
  intros Hs Hz. unfold Array_slice, rel_index.
  destruct (Z.ltb_spec start 0); [lia|].
  destruct (Z.ltb_spec (start + size) 0); [lia|].
  destruct (Z.le_gt_cases (Z.of_nat (List.length l)) start) as [Hout|Hin].
  - rewrite (Z.min_r start) by lia.
    rewrite !skipn_all2 by lia. now rewrite !firstn_nil.
  - rewrite (Z.min_l start) by lia.
    destruct (Z.le_gt_cases (start + size) (Z.of_nat (List.length l))) as [Hfit|Hover].
    + rewrite Z.min_l by lia. f_equal. lia.
    + rewrite Z.min_r by lia.
      rewrite !firstn_all2; try reflexivity; rewrite length_skipn; lia.
Qed.

Lemma ceil_div_bounds (n size : Z) :
  0 < size ->
  let pages := - ((- n) / size) in
  (pages - 1) * size < n <= pages * size.
Proof.
  intros Hs pages.
  pose proof (Z.div_mod (- n) size ltac:(lia)) as Hdm.
  pose proof (Z.mod_pos_bound (- n) size Hs) as Hb.
  unfold pages. nia.
Qed.

End SliceFacts.

Section C2.

Import Offers.
Local Open Scope list_scope.

Variable Array_sort : (FlightOffer -> FlightOffer -> number)
                      -> list FlightOffer -> list FlightOffer.
Variable Date_getTime : string -> number.

(** C2, as stated, fails: with no offer the page count is 0, not 1, in
    the route and in the chat tool. *)
Lemma C2_counterexample :
  totalPages (snd (paginate [] 1 10)) = num_of_Z 0
  /\ totalPages (snd (tool_page (@insertion_sort _) (fun _ => NaN) [] None "cheapest" "any" 1 10)) = num_of_Z 0
  /\ num_of_Z 0 <> num_of_Z 1.
Proof.
  split; [reflexivity|]. split; [reflexivity|]. discriminate.
Qed.

(** C2, amended. For a page size of at least 1 and a page of at least 1,
    pagination reports [totalPages = ceil(count / pageSize)], which is 0
    when there is no offer and at least 1 otherwise; the page is the
    slice [(page - 1) * pageSize, page * pageSize) of the offers; a page
    past the last one is empty, not an error.  With 23 offers and a page
    size of 10 there are 3 pages, page 3 has 3 offers and page 4 is
    empty.  The chat tool answers an empty result with page 1 of 0. *)
Theorem C2_pagination (offers : list FlightOffer) (page limit : Z) :
  1 <= page -> 1 <= limit ->
  let count := Z.of_nat (List.length offers) in
  let result := paginate offers page limit in
  (exists pages,
      totalPages (snd result) = num_of_Z pages
      /\ (pages - 1) * limit < count <= pages * limit
      /\ (count = 0 -> pages = 0)
      /\ (0 < count -> 1 <= pages)
      /\ (pages < page -> fst result = []))
  /\ total (snd result) = count
  /\ fst result
     = firstn (Z.to_nat limit) (skipn (Z.to_nat ((page - 1) * limit)) offers)
  /\ (count = 23 -> limit = 10 ->
      totalPages (snd result) = num_of_Z 3
      /\ (page = 3 -> List.length (fst result) = 3%nat)
      /\ (page = 4 -> fst result = []))
  /\ (forall airlines sortBy stops,
      filterFlightOffers Array_sort Date_getTime offers
        {| Offers.airlines := airlines;
           Offers.stops := if String.eqb stops "any" then None else Some stops;
           Offers.sortBy := Some sortBy |} = [] ->
      tool_page Array_sort Date_getTime offers airlines sortBy stops page limit
      = ([], {| Offers.page := 1; Offers.limit := limit; total := 0;
                totalPages := num_of_Z 0 |})).
Proof.
  intros Hp Hl count result.
  assert (Hslice : fst result
     = firstn (Z.to_nat limit) (skipn (Z.to_nat ((page - 1) * limit)) offers)).
  { unfold result, paginate. cbn [fst]. apply Array_slice_window; nia. }
  assert (Hpages : totalPages (snd result) = num_of_Z (- ((- count) / limit))).
  { unfold result, paginate, Math_ceil_div. cbn [snd totalPages].
    destruct (Z.eqb_spec limit 0); [lia | reflexivity]. }
  pose proof (ceil_div_bounds count limit ltac:(lia)) as Hb. cbv zeta in Hb.
  split; [|split; [|split; [|split]]].
  - exists (- ((- count) / limit)). split; [assumption|]. split; [assumption|].
    split; [|split].
    + intros H0. rewrite H0. reflexivity.
    + intros Hc. nia.
    + intros Hlt. rewrite Hslice.
      rewrite skipn_all2; [apply firstn_nil|]. unfold count in *. nia.
  - reflexivity.
  - exact Hslice.
  - intros H23 H10. rewrite Hpages, Hslice, H23, H10.
    split; [reflexivity|]. split.
    + intros ->. rewrite length_firstn, length_skipn. unfold count in H23. 
      change (Z.to_nat ((3 - 1) * 10)) with 20%nat. change (Z.to_nat 10) with 10%nat. lia.
    + intros ->. rewrite skipn_all2; [apply firstn_nil|].
      change (Z.to_nat ((4 - 1) * 10)) with 30%nat. unfold count in H23. lia.
  - intros airlines sortBy stops Hempty. unfold tool_page. now rewrite Hempty.
Qed.

End C2.

Lemma C2_pagination_witness :
  1 <= 4 /\ 1 <= 10
  /\ fst (Offers.paginate (repeat mixed_offer 23) 4 10) = [].
Proof.
  assert (Hp : 1 <= 4) by lia.
  assert (Hl : 1 <= 10) by lia.
  split; [exact Hp|]. split; [exact Hl|].
  exact (proj2 (proj2 (proj1 (proj2 (proj2 (proj2
           (C2_pagination (@insertion_sort _) (fun _ => NaN) (repeat mixed_offer 23) 4 10 Hp Hl))))
           eq_refl eq_refl)) eq_refl).
Defined.

(* ================================================================== *)
(** * Properties of sort functions *)
(* ================================================================== *)

Section SortFacts.

Context {A : Type} (cmp : A -> A -> number).

Lemma sort_insert_perm (x : A) (l : list A) :
  Permutation (sort_insert cmp x l) (x :: l).
Proof.
  induction l as [|y r IH]; cbn [sort_insert]; [reflexivity|].
  destruct (SortCompare (cmp x y)); try reflexivity.
  rewrite IH. apply perm_swap.
Qed.

Lemma insertion_sort_perm (l : list A) : Permutation (insertion_sort cmp l) l.
Proof.
  induction l as [|x l IH]; cbn [insertion_sort fold_right]; [reflexivity|].
  fold (insertion_sort cmp l). rewrite sort_insert_perm. now constructor.
Qed.

Lemma consistent_incl (l k : list A) :
  (forall a, In a k -> In a l) -> consistent cmp l -> consistent cmp k.
Proof. intros Hin Hc a b c Ha Hb Hc'. apply Hc; now apply Hin. Qed.

(** What follows from consistency: the comparator read backwards, and
    the order it induces. *)
Lemma consistent_flip (l : list A) (a b : A) :
  consistent cmp l -> In a l -> In b l ->
  SortCompare (cmp b a) = CompOpp (SortCompare (cmp a b)).
Proof.
  intros Hc Ha Hb.
  destruct (Hc a b a Ha Hb Ha) as [Haa [Hsym [_ [Hlt Hgt]]]].
  destruct (Hc b a b Hb Ha Hb) as [_ [Hsym' [_ [Hlt' Hgt']]]].
  destruct (SortCompare (cmp a b)) eqn:E1; destruct (SortCompare (cmp b a)) eqn:E2;
    cbn [CompOpp]; try reflexivity; exfalso;
    try (specialize (Hsym eq_refl); congruence);
    try (specialize (Hsym' eq_refl); congruence);
    try (specialize (Hlt eq_refl eq_refl); congruence);
    try (specialize (Hgt eq_refl eq_refl); congruence).
Qed.

Lemma in_order_trans (l : list A) (a b c : A) :
  consistent cmp l -> In a l -> In b l -> In c l ->
  in_order cmp a b -> in_order cmp b c -> in_order cmp a c.
Proof.
  intros Hc Ha Hb Hc' Hab Hbc Hac. unfold in_order in *.
  pose proof (consistent_flip l a b Hc Ha Hb) as Fab.
  pose proof (consistent_flip l b c Hc Hb Hc') as Fbc.
  pose proof (consistent_flip l a c Hc Ha Hc') as Fac.
  destruct (Hc a b c Ha Hb Hc') as [_ [_ [Heq [Hlt _]]]].
  destruct (Hc b c a Hb Hc' Ha) as [_ [_ [_ [Hlt2 _]]]].
  destruct (Hc c a b Hc' Ha Hb) as [_ [_ [_ [Hlt3 _]]]].
  rewrite Hac in Fac. cbn [CompOpp] in Fac.
  destruct (SortCompare (cmp a b)) eqn:E1; [| |now elim Hab];
    destruct (SortCompare (cmp b c)) eqn:E2; try (now elim Hbc); cbn [CompOpp] in *.
  - specialize (Heq eq_refl eq_refl). congruence.
  - specialize (Hlt2 eq_refl Fac). congruence.
  - specialize (Hlt3 Fac eq_refl). congruence.
  - specialize (Hlt eq_refl eq_refl). congruence.
Qed.

Lemma tied_class (l : list A) (x a b : A) :
  consistent cmp l -> In x l -> In a l -> In b l ->
  tied cmp x a = true -> tied cmp x b = true -> SortCompare (cmp a b) = Eq.
Proof.
  unfold tied. intros Hc Hx Ha Hb Hxa Hxb.
  destruct (SortCompare (cmp x a)) eqn:E1; try discriminate.
  destruct (SortCompare (cmp x b)) eqn:E2; try discriminate.
  destruct (Hc x a b Hx Ha Hb) as [_ [Hsym _]].
  destruct (Hc a x b Ha Hx Hb) as [_ [_ [Htr _]]].
  apply Htr; [now apply Hsym | assumption].
Qed.

Lemma sort_insert_sorted (l : list A) (x : A) (r : list A) :
  consistent cmp l -> In x l -> (forall y, In y r -> In y l) ->
  StronglySorted (in_order cmp) r -> StronglySorted (in_order cmp) (sort_insert cmp x r).
Proof.
  intros Hc Hx Hr Hs. induction Hs as [|y r Hs IH Hy]; cbn [sort_insert].
  - repeat constructor.
  - assert (Hyl : In y l) by (apply Hr; now left).
    destruct (SortCompare (cmp x y)) eqn:E.
    + constructor; [now constructor|]. constructor; [unfold in_order; congruence|].
      rewrite Forall_forall in *. intros z Hz.
      apply (in_order_trans l x y z Hc Hx Hyl); [apply Hr; now right | | now apply Hy].
      unfold in_order; congruence.
    + constructor; [now constructor|]. constructor; [unfold in_order; congruence|].
      rewrite Forall_forall in *. intros z Hz.
      apply (in_order_trans l x y z Hc Hx Hyl); [apply Hr; now right | | now apply Hy].
      unfold in_order; congruence.
    + constructor.
      * apply IH. intros z Hz. apply Hr. now right.
      * rewrite Forall_forall in *. intros z Hz.
        apply (Permutation_in _ (sort_insert_perm x r)) in Hz.
        destruct Hz as [<-|Hz]; [|now apply Hy].
        unfold in_order. rewrite (consistent_flip l x y Hc Hx Hyl), E. discriminate.
Qed.

Lemma insertion_sort_sorted (l : list A) :
  consistent cmp l -> StronglySorted (in_order cmp) (insertion_sort cmp l).
Proof.
  intros Hc.
  assert (H : forall k, (forall a, In a k -> In a l) ->
                        StronglySorted (in_order cmp) (insertion_sort cmp k)).
  { induction k as [|x k IH]; intros Hk; cbn [insertion_sort fold_right]; [constructor|].
    fold (insertion_sort cmp k).
    apply (sort_insert_sorted l); [assumption | apply Hk; now left | |].
    - intros y Hy. apply Hk. right.
      now apply (Permutation_in _ (insertion_sort_perm k)).
    - apply IH. intros a Ha. apply Hk. now right. }
  apply H. auto.
Qed.

(** Inserting an element among elements it is tied with, as far as a
    class [p] is concerned, puts it in front of its class. *)
Lemma sort_insert_class (p : A -> bool) (x : A) (l : list A) :
  (forall y, In y l -> p x = true -> p y = true -> in_order cmp x y) ->
  filter p (sort_insert cmp x l) = filter p (x :: l).
Proof.
  induction l as [|y r IH]; intros Htie; [reflexivity|].
  cbn [sort_insert].
  destruct (SortCompare (cmp x y)) eqn:Hgt; try reflexivity.
  cbn [filter]. rewrite IH by (intros z Hz; apply Htie; now right).
  cbn [filter]. destruct (p x) eqn:Hx; [|reflexivity].
  destruct (p y) eqn:Hy; [|reflexivity].
  specialize (Htie y (or_introl eq_refl) eq_refl Hy). now elim Htie.
Qed.

Lemma insertion_sort_class (p : A -> bool) (l : list A) :
  (forall a b, In a l -> In b l -> p a = true -> p b = true -> in_order cmp a b) ->
  filter p (insertion_sort cmp l) = filter p l.
Proof.
  induction l as [|x l IH]; intros Htie; [reflexivity|].
  cbn [insertion_sort fold_right]. fold (insertion_sort cmp l).
  rewrite sort_insert_class.
  - cbn [filter]. rewrite IH; [reflexivity|].
    intros a b Ha Hb. apply Htie; now right.
  - intros y Hy Hx Hpy. apply Htie; [now left| |assumption|assumption].
    right. now apply (Permutation_in _ (insertion_sort_perm l)).
Qed.

Lemma insertion_sort_stable (l : list A) (x : A) :
  consistent cmp l -> In x l ->
  filter (tied cmp x) (insertion_sort cmp l) = filter (tied cmp x) l.
Proof.
  intros Hc Hx. apply insertion_sort_class. intros a b Ha Hb Hta Htb.
  unfold in_order. now rewrite (tied_class l x a b Hc Hx Ha Hb Hta Htb).
Qed.

(** Two arrangements of the same elements that are both in order and
    keep every class of tied elements in the same sequence are equal. *)
Lemma stable_sorted_unique (l1 l2 : list A) :
  consistent cmp l1 -> Permutation l1 l2 ->
  StronglySorted (in_order cmp) l1 -> StronglySorted (in_order cmp) l2 ->
  (forall x, In x l1 -> filter (tied cmp x) l1 = filter (tied cmp x) l2) ->
  l1 = l2.
Proof.
  revert l2. induction l1 as [|a r1 IH]; intros l2 Hc Hp Hs1 Hs2 Hf.
  - apply Permutation_nil in Hp. now subst.
  - destruct l2 as [|b r2]; [apply Permutation_sym, Permutation_nil in Hp; discriminate|].
    assert (Haa : tied cmp a a = true).
    { unfold tied. destruct (Hc a a a) as [-> _]; try (now left). reflexivity. }
    assert (Hb1 : In b (a :: r1)) by (apply (Permutation_in _ (Permutation_sym Hp)); now left).
    assert (Ha2 : In a (b :: r2)) by (apply (Permutation_in _ Hp); now left).
    assert (Hab : a = b).
    { pose proof (Hf a (or_introl eq_refl)) as Hfa. cbn [filter] in Hfa. rewrite Haa in Hfa.
      destruct (tied cmp a b) eqn:Etb; [now injection Hfa|exfalso].
      destruct Hb1 as [Hb1|Hb1]; [subst; congruence|].
      destruct Ha2 as [Ha2|Ha2]; [subst; congruence|].
      inversion Hs1 as [|? ? _ Hall1]; subst. inversion Hs2 as [|? ? _ Hall2]; subst.
      rewrite Forall_forall in Hall1, Hall2.
      pose proof (Hall1 b Hb1) as H1. pose proof (Hall2 a Ha2) as H2.
      unfold in_order, tied in *.
      rewrite (consistent_flip (a :: r1) a b Hc (or_introl eq_refl) (or_intror Hb1)) in H2.
      destruct (SortCompare (cmp a b)); cbn [CompOpp] in *; congruence. }
    subst b. f_equal. apply IH.
    + apply (consistent_incl (a :: r1)); [intros z Hz; now right | assumption].
    + now apply Permutation_cons_inv in Hp.
    + now inversion Hs1.
    + now inversion Hs2.
    + intros x Hx. pose proof (Hf x (or_intror Hx)) as Hfx. cbn [filter] in Hfx.
      destruct (tied cmp x a); [now injection Hfx | assumption].
Qed.

End SortFacts.

Section ContractFacts.

Context {A : Type} (sort : (A -> A -> number) -> list A -> list A).
Hypothesis contract : sorts sort.

Lemma insertion_sort_sorts : sorts (@insertion_sort A).
Proof.
  intros cmp l. split; [apply insertion_sort_perm|]. intros Hc.
  split; [now apply insertion_sort_sorted|]. intros x Hx. now apply insertion_sort_stable.
Qed.

(** Under the contract, the result for a consistent comparator is the
    one that insertion yields. *)
Lemma sort_determined (cmp : A -> A -> number) (l : list A) :
  consistent cmp l -> sort cmp l = insertion_sort cmp l.
Proof.
  intros Hc. destruct (contract cmp l) as [Hp [Hs Hst]]; [assumption|].
  assert (Hin : forall a, In a (sort cmp l) -> In a l)
    by (intros a; apply (Permutation_in _ Hp)).
  apply (stable_sorted_unique cmp).
  - now apply (consistent_incl cmp l).
  - rewrite Hp. symmetry. apply insertion_sort_perm.
  - assumption.
  - now apply insertion_sort_sorted.
  - intros x Hx. rewrite Hst by now apply Hin.
    symmetry. apply insertion_sort_stable; [assumption | now apply Hin].
Qed.

Lemma sort_in_order_id (cmp : A -> A -> number) (l : list A) :
  consistent cmp l -> StronglySorted (in_order cmp) l -> sort cmp l = l.
Proof.
  intros Hc Hs. destruct (contract cmp l) as [Hp [Hs' Hst]]; [assumption|].
  apply (stable_sorted_unique cmp).
  - apply (consistent_incl cmp l); [|assumption]. intros a. apply (Permutation_in _ Hp).
  - assumption.
  - assumption.
  - assumption.
  - intros x Hx. apply Hst. now apply (Permutation_in _ Hp).
Qed.

End ContractFacts.

Section NumberOrder.

Local Open Scope list_scope.

Lemma round_positive_cases (q : Q) :
  round_positive q = PosInf \/ exists r, round_positive q = Num r.
Proof.
  destruct (round_positive_unfold q) as [e [m [_ [_ [_ [_ Hres]]]]]].
  destruct Hres as [[_ ->] | [_ [r [-> _]]]]; [now left | right; now exists r].
Qed.

Lemma ordinary_round64 (q : Q) : ordinary (round64 q).
Proof.
  destruct (round64 q) as [| |r|] eqn:E; cbn [ordinary]; try exact I.
  - unfold round64 in E. destruct (Qnum (Qred q)); [discriminate| |].
    + destruct (round_positive_cases (Qred q)) as [H | [r H]]; congruence.
    + destruct (round_positive_cases (- Qred q)) as [H | [r H]];
        rewrite H in E; discriminate.
  - now apply (round64_grid q).
Qed.

Lemma on_grid_Z (z : Z) : on_grid (inject_Z z).
Proof.
  exists (z * 2 ^ 1074). rewrite inject_Z_mult, <- pow2_Z by lia.
  rewrite <- Qmult_assoc, <- pow2_add. change (pow2 (1074 + -1074)) with 1%Q. ring.
Qed.

Lemma ordinary_num_of_Z (z : Z) : ordinary (num_of_Z z).
Proof. apply on_grid_Z. Qed.

Lemma ordinary_parseFloat (s : string) : parseFloat s <> NaN -> ordinary (parseFloat s).
Proof.
  unfold parseFloat. destruct (take_sign (skip_spaces s)) as [neg body].
  destruct (prefix "Infinity" body); [destruct neg; intros _; exact I|].
  destruct (take_unsigned body) as [[q rest]|]; [|intros H; now elim H].
  intros _. apply ordinary_round64.
Qed.

Lemma ordinary_not_NaN (a : number) : ordinary a -> a <> NaN.
Proof. intros H E. now subst. Qed.

Lemma Qcompare_diff (x y : Q) : (x + - y ?= 0)%Q = (x ?= y)%Q.
Proof.
  destruct (Qcompare_spec x y) as [E|L|G].
  - apply (proj1 (Qeq_alt _ _)). lra.
  - apply (proj1 (Qlt_alt _ _)). lra.
  - apply (proj1 (Qgt_alt _ _)). lra.
Qed.

(** The sign of a difference of two numbers is their order: a
    difference of binary64 values is never rounded to zero. *)
Lemma sub_compare (a b : number) :
  ordinary a -> ordinary b -> SortCompare (num_sub a b) = num_compare a b.
Proof.
  destruct a as [| |x|]; destruct b as [| |y|]; cbn [ordinary]; try tauto;
    try (intros _ _; reflexivity).
  intros [j Hj] [k Hk]. unfold num_sub. cbn [num_opp num_add num_compare].
  rewrite round64_sign, Qcompare_diff; [reflexivity|].
  exists (j - k). unfold Z.sub. rewrite inject_Z_plus, inject_Z_opp, Hj, Hk. ring.
Qed.

Lemma num_compare_refl (a : number) : ordinary a -> num_compare a a = Eq.
Proof.
  destruct a as [| |x|]; cbn [ordinary num_compare]; try tauto.
  intros _. apply (proj1 (Qeq_alt _ _)). reflexivity.
Qed.

Lemma num_compare_flip (a b : number) :
  ordinary a -> ordinary b -> num_compare b a = CompOpp (num_compare a b).
Proof.
  destruct a as [| |x|]; destruct b as [| |y|]; cbn [ordinary num_compare CompOpp];
    try tauto. intros _ _. symmetry. apply Qcompare_antisym.
Qed.

Lemma num_compare_trans (a b c : number) (r : comparison) :
  ordinary a -> ordinary b -> ordinary c ->
  num_compare a b = r -> num_compare b c = r -> num_compare a c = r.
Proof.
  destruct a as [| |x|]; destruct b as [| |y|]; destruct c as [| |z|];
    cbn [ordinary num_compare]; try tauto; try congruence.
  intros _ _ _ H1 H2. destruct r.
  - apply (proj2 (Qeq_alt _ _)) in H1. apply (proj2 (Qeq_alt _ _)) in H2. apply (proj1 (Qeq_alt _ _)). lra.
  - apply (proj2 (Qlt_alt _ _)) in H1. apply (proj2 (Qlt_alt _ _)) in H2. apply (proj1 (Qlt_alt _ _)). lra.
  - apply (proj2 (Qgt_alt _ _)) in H1. apply (proj2 (Qgt_alt _ _)) in H2. apply (proj1 (Qgt_alt _ _)). lra.
Qed.

Lemma num_compare_le (a b : number) :
  ordinary a -> ordinary b -> (num_compare a b <> Gt <-> num_le a b = true).
Proof.
  destruct a as [| |x|]; destruct b as [| |y|]; cbn [ordinary num_compare num_le];
    try tauto; intros _ _; try (split; [reflexivity | discriminate]);
    try (split; [intros H; now elim H | discriminate]).
  rewrite Qle_bool_iff. split.
  - intros H. apply Qnot_lt_le. intros C. apply H. now apply (proj1 (Qgt_alt _ _)).
  - intros H C. apply (proj2 (Qgt_alt _ _)) in C. lra.
Qed.

Lemma num_compare_eqb (a b : number) :
  ordinary a -> ordinary b ->
  match num_compare a b with Eq => true | _ => false end = num_eqb a b.
Proof.
  intros Ha Hb. unfold num_eqb.
  pose proof (num_compare_le a b Ha Hb) as H1.
  pose proof (num_compare_le b a Hb Ha) as H2.
  rewrite (num_compare_flip a b Ha Hb) in H2.
  destruct (num_compare a b); cbn [CompOpp] in *;
    destruct (num_le a b); destruct (num_le b a); try reflexivity; exfalso;
    try (assert (C : false = true) by (apply H1; discriminate); discriminate C);
    try (assert (C : false = true) by (apply H2; discriminate); discriminate C);
    try (apply (proj2 H1); [reflexivity | reflexivity]);
    try (apply (proj2 H2); [reflexivity | reflexivity]).
Qed.

(** A comparator that reads the order of keys which are numbers is a
    consistent comparator. *)
Lemma consistent_by_key {A : Type} (key : A -> number) (cmp : A -> A -> number)
      (l : list A) :
  (forall a, In a l -> ordinary (key a)) ->
  (forall a b, In a l -> In b l -> SortCompare (cmp a b) = num_compare (key a) (key b)) ->
  consistent cmp l.
Proof.
  intros Hkey Hcmp a b c Ha Hb Hc.
  rewrite !Hcmp by assumption.
  split; [now apply num_compare_refl, Hkey|].
  split.
  { intros H. rewrite (num_compare_flip (key a) (key b)), H by now apply Hkey.
    reflexivity. }
  repeat split; apply num_compare_trans; now apply Hkey.
Qed.

Lemma StronglySorted_among {A : Type} (P R : A -> A -> Prop) (l : list A) :
  (forall a b, In a l -> In b l -> P a b -> R a b) ->
  StronglySorted P l -> StronglySorted R l.
Proof.
  intros Himp Hs. induction Hs as [|x l Hs IH Hx]; constructor.
  - apply IH. intros a b Ha Hb. apply Himp; now right.
  - rewrite Forall_forall in *. intros y Hy.
    apply Himp; [now left | now right | now apply Hx].
Qed.

Lemma StronglySorted_pair {A : Type} (R : A -> A -> Prop) (l : list A) (x y : A) :
  StronglySorted R l -> In x l -> In y l -> x = y \/ R x y \/ R y x.
Proof.
  intros Hs. induction Hs as [|z l Hs IH Hz]; intros Hx Hy; [now elim Hx|].
  rewrite Forall_forall in Hz.
  destruct Hx as [<-|Hx]; destruct Hy as [<-|Hy]; auto.
Qed.

End NumberOrder.

Section DurationFacts.

Import Offers.
Local Open Scope list_scope.

Lemma span_digits_run (d r : string) :
  all_digits d = true ->
  match r with String c _ => is_digit c = false | EmptyString => True end ->
  span_digits (d ++ r)%string = (d, r).
Proof.
  intros Hd Hr. induction d as [|c d IH]; cbn [String.append].
  - destruct r as [|c r]; [reflexivity|]. cbn [span_digits]. now rewrite Hr.
  - cbn [all_digits] in Hd. apply andb_prop in Hd as [Hc Hd].
    cbn [span_digits]. now rewrite Hc, (IH Hd).
Qed.

Lemma take_group_hit (unit : ascii) (d r : string) :
  digit_run d -> is_digit unit = false ->
  take_group unit (d ++ String unit r)%string = (Some d, r).
Proof.
  intros [Hne Hd] Hu. unfold take_group.
  rewrite (span_digits_run d (String unit r) Hd Hu).
  destruct d as [|c d]; [now elim Hne|]. now rewrite Ascii.eqb_refl.
Qed.

Lemma take_group_miss (unit other : ascii) (d r : string) :
  all_digits d = true -> is_digit other = false -> Ascii.eqb other unit = false ->
  take_group unit (d ++ String other r)%string = (None, (d ++ String other r)%string).
Proof.
  intros Hd Ho Hneq. unfold take_group.
  rewrite (span_digits_run d (String other r) Hd Ho).
  destruct d as [|c d]; [reflexivity|]. now rewrite Hneq.
Qed.

(** What the pattern reads in a token with both components, with hours
    only and with minutes only. *)
Lemma match_duration_token (hours minutes : string) :
  digit_run hours -> digit_run minutes ->
  match_duration ("PT" ++ hours ++ "H" ++ minutes ++ "M")
  = Some (parseInt10 hours, parseInt10 minutes)
  /\ match_duration ("PT" ++ hours ++ "H") = Some (parseInt10 hours, 0)
  /\ match_duration ("PT" ++ minutes ++ "M") = Some (0, parseInt10 minutes).
Proof.
  intros Hh Hm. unfold match_duration. cbn [String.append after_PT Ascii.eqb Bool.eqb].
  split; [|split].
  - rewrite (take_group_hit "H" hours _ Hh eq_refl).
    now rewrite (take_group_hit "M" minutes _ Hm eq_refl).
  - now rewrite (take_group_hit "H" hours _ Hh eq_refl).
  - rewrite (take_group_miss "H" "M" minutes _ (proj2 Hm) eq_refl eq_refl).
    now rewrite (take_group_hit "M" minutes _ Hm eq_refl).
Qed.

Lemma digits_value_nonneg (d : string) :
  forall acc, 0 <= acc -> 0 <= digits_value acc d.
Proof.
  induction d as [|c d IH]; intros acc Hacc; cbn [digits_value]; [assumption|].
  apply IH. unfold digit_val. lia.
Qed.

Lemma match_duration_nonneg (text : string) (hours minutes : Z) :
  match_duration text = Some (hours, minutes) -> 0 <= hours /\ 0 <= minutes.
Proof.
  unfold match_duration. destruct (after_PT text) as [r|]; [|discriminate].
  destruct (take_group "H" r) as [g1 r1].
  destruct (take_group "M" r1) as [g2 r2].
  intros H. injection H as <- <-. split.
  - destruct g1; [apply digits_value_nonneg|]; lia.
  - destruct g2; [apply digits_value_nonneg|]; lia.
Qed.

Lemma itinerary_minutes_nonneg (it : Itinerary) : 0 <= itinerary_minutes it.
Proof.
  unfold itinerary_minutes.
  destruct (match_duration (duration_text it)) as [[h m]|] eqn:E; [|lia].
  destruct (match_duration_nonneg _ _ _ E). lia.
Qed.

Lemma sum_minutes_nonneg (l : list Itinerary) : 0 <= sum_minutes l.
Proof.
  induction l as [|it r IH]; cbn [sum_minutes]; [lia|].
  pose proof (itinerary_minutes_nonneg it). lia.
Qed.

Lemma not_negative_round64 (q : Q) : (0 <= q)%Q -> not_negative (round64 q).
Proof.
  intros Hq. destruct (round64_nonneg q Hq) as [H | [r [H Hr]]]; [now left | right].
  exists r. split; [assumption|]. split; [assumption | now apply (round64_grid q)].
Qed.

Lemma not_negative_to_number (z : Z) : 0 <= z -> not_negative (to_number z).
Proof.
  intros Hz. apply not_negative_round64. change 0%Q with (inject_Z 0).
  now rewrite <- Zle_Qle.
Qed.

Lemma not_negative_times_60 (a : number) :
  not_negative a -> not_negative (num_mul a (num_of_Z 60)).
Proof.
  intros [-> | [r [-> [Hr _]]]]; [now left|].
  cbn [num_mul num_of_Z]. apply not_negative_round64.
  change (inject_Z 60) with 60%Q. lra.
Qed.

Lemma not_negative_add (a b : number) :
  not_negative a -> not_negative b -> not_negative (num_add a b).
Proof.
  intros [-> | [x [-> [Hx _]]]] [-> | [y [-> [Hy _]]]];
    cbn [num_add]; try (now left).
  apply not_negative_round64. lra.
Qed.

Lemma not_negative_ordinary (a : number) : not_negative a -> ordinary a.
Proof. intros [-> | [r [-> [_ Hg]]]]; [exact I | exact Hg]. Qed.

Lemma add_duration_not_negative (total : number) (it : Itinerary) :
  not_negative total -> not_negative (add_duration total it).
Proof.
  intros Ht. unfold add_duration.
  destruct (match_duration (duration_text it)) as [[h m]|] eqn:E; [|assumption].
  destruct (match_duration_nonneg _ _ _ E) as [Hh Hm].
  apply not_negative_add; [assumption|]. apply not_negative_add.
  - now apply not_negative_times_60, not_negative_to_number.
  - now apply not_negative_to_number.
Qed.

(** A total duration is never [NaN] and never negative. *)
Lemma getDuration_not_negative (offer : FlightOffer) : not_negative (getDuration offer).
Proof.
  unfold getDuration.
  assert (H : forall l total, not_negative total ->
                              not_negative (fold_left add_duration l total)).
  { induction l as [|it r IH]; intros total Ht; cbn [fold_left]; [assumption|].
    now apply IH, add_duration_not_negative. }
  apply H. right. exists 0%Q. split; [reflexivity|]. split; [apply Qle_refl|].
  apply (on_grid_Z 0).
Qed.

Lemma num_add_Z (a b : Z) :
  Z.abs (a + b) < 2 ^ 53 -> num_add (num_of_Z a) (num_of_Z b) = num_of_Z (a + b).
Proof.
  intros H. unfold num_of_Z. cbn [num_add]. rewrite <- inject_Z_plus.
  now apply round64_int.
Qed.

Lemma num_mul_Z (a b : Z) :
  Z.abs (a * b) < 2 ^ 53 -> num_mul (num_of_Z a) (num_of_Z b) = num_of_Z (a * b).
Proof.
  intros H. unfold num_of_Z. cbn [num_mul]. rewrite <- inject_Z_mult.
  now apply round64_int.
Qed.

Lemma fold_add_duration (l : list Itinerary) (acc : Z) :
  0 <= acc -> acc + sum_minutes l < 2 ^ 53 ->
  fold_left add_duration l (num_of_Z acc) = num_of_Z (acc + sum_minutes l).
Proof.
  revert acc. induction l as [|it r IH]; intros acc Hacc Hsum; cbn [fold_left sum_minutes] in *.
  - now rewrite Z.add_0_r.
  - pose proof (sum_minutes_nonneg r) as Hr.
    pose proof (itinerary_minutes_nonneg it) as Hi.
    assert (Hstep : add_duration (num_of_Z acc) it = num_of_Z (acc + itinerary_minutes it)).
    { unfold add_duration, itinerary_minutes in *.
      destruct (match_duration (duration_text it)) as [[h m]|] eqn:E;
        [|now rewrite Z.add_0_r].
      destruct (match_duration_nonneg _ _ _ E) as [Hh Hm].
      unfold to_number. rewrite !round64_int by lia.
      change (Num (inject_Z h)) with (num_of_Z h).
      change (Num (inject_Z m)) with (num_of_Z m).
      rewrite num_mul_Z, num_add_Z, num_add_Z by lia. reflexivity. }
    rewrite Hstep, IH by lia. f_equal. lia.
Qed.

(** Below [2^53] the total duration is the sum of the minutes of the
    itineraries, exactly. *)
Lemma getDuration_sum (offer : FlightOffer) :
  sum_minutes (itineraries offer) < 2 ^ 53 ->
  getDuration offer = num_of_Z (sum_minutes (itineraries offer)).
Proof.
  intros H. unfold getDuration. now rewrite fold_add_duration.
Qed.

End DurationFacts.

Section KeyFacts.

Import Offers.
Local Open Scope list_scope.

Variable Array_sort : (FlightOffer -> FlightOffer -> number)
                      -> list FlightOffer -> list FlightOffer.
Variable Date_getTime : string -> number.

Hypothesis Array_sort_contract : sorts Array_sort.

(** What the contract gives for a comparator that reads the order of
    keys which are numbers. *)
Lemma sort_by_key (key : FlightOffer -> number)
      (cmp : FlightOffer -> FlightOffer -> number) (l : list FlightOffer) :
  (forall o, In o l -> ordinary (key o)) ->
  (forall a b, In a l -> In b l -> SortCompare (cmp a b) = num_compare (key a) (key b)) ->
  Array_sort cmp l = insertion_sort cmp l
  /\ Permutation (Array_sort cmp l) l
  /\ ascending key (Array_sort cmp l)
  /\ ties_kept key l (Array_sort cmp l)
  /\ Array_sort cmp (Array_sort cmp l) = Array_sort cmp l.
Proof.
  intros Hkey Hcmp.
  pose proof (consistent_by_key key cmp l Hkey Hcmp) as Hc.
  destruct (Array_sort_contract cmp l) as [Hp [Hs Hst]]; [assumption|].
  assert (Hin : forall o, In o (Array_sort cmp l) -> In o l)
    by (intros o; apply (Permutation_in _ Hp)).
  split; [now apply sort_determined|]. split; [assumption|].
  split; [|split].
  - apply (StronglySorted_among (in_order cmp)); [|assumption].
    intros a b Ha Hb Hab. unfold in_order in Hab.
    rewrite Hcmp in Hab by now apply Hin.
    apply num_compare_le; [apply Hkey | apply Hkey |]; auto.
  - intros x Hx.
    rewrite (filter_ext_in (fun o => num_eqb (key x) (key o)) (tied cmp x) (Array_sort cmp l)),
            (filter_ext_in (fun o => num_eqb (key x) (key o)) (tied cmp x) l).
    + now apply Hst.
    + intros o Ho. unfold tied. rewrite Hcmp by assumption.
      symmetry. apply num_compare_eqb; now apply Hkey.
    + intros o Ho. unfold tied. rewrite Hcmp by auto.
      symmetry. apply num_compare_eqb; apply Hkey; auto.
  - apply sort_in_order_id; [assumption | | assumption].
    apply (consistent_incl cmp l); assumption.
Qed.

Lemma cmp_cheapest_key (a b : FlightOffer) :
  price a <> NaN -> price b <> NaN ->
  SortCompare (cmp_cheapest a b) = num_compare (price a) (price b).
Proof.
  intros Ha Hb. unfold cmp_cheapest. apply sub_compare; now apply ordinary_parseFloat.
Qed.

Lemma cmp_fastest_key (a b : FlightOffer) :
  SortCompare (cmp_fastest a b) = num_compare (getDuration a) (getDuration b).
Proof.
  unfold cmp_fastest.
  apply sub_compare; apply not_negative_ordinary, getDuration_not_negative.
Qed.

Lemma times_read_ordinary (l : list FlightOffer) :
  times_read Date_getTime l -> forall o, In o l -> ordinary (departure_time Date_getTime o).
Proof.
  intros Ht o Ho. destruct (Ht o Ho) as [t ->]. apply ordinary_num_of_Z.
Qed.

Lemma sortOffers_cheapest (offers : list FlightOffer) :
  (forall o, In o offers -> price o <> NaN) ->
  sortOffers Array_sort Date_getTime offers "cheapest" = insertion_sort cmp_cheapest offers
  /\ Permutation (sortOffers Array_sort Date_getTime offers "cheapest") offers
  /\ ascending price (sortOffers Array_sort Date_getTime offers "cheapest")
  /\ ties_kept price offers (sortOffers Array_sort Date_getTime offers "cheapest")
  /\ sortOffers Array_sort Date_getTime
       (sortOffers Array_sort Date_getTime offers "cheapest") "cheapest"
     = sortOffers Array_sort Date_getTime offers "cheapest".
Proof.
  intros Hp. unfold sortOffers. cbn [String.eqb Ascii.eqb Bool.eqb].
  apply sort_by_key.
  - intros o Ho. now apply ordinary_parseFloat, Hp.
  - intros a b Ha Hb. apply cmp_cheapest_key; now apply Hp.
Qed.

Lemma sortOffers_fastest (offers : list FlightOffer) :
  sortOffers Array_sort Date_getTime offers "fastest" = insertion_sort cmp_fastest offers
  /\ Permutation (sortOffers Array_sort Date_getTime offers "fastest") offers
  /\ ascending getDuration (sortOffers Array_sort Date_getTime offers "fastest")
  /\ ties_kept getDuration offers (sortOffers Array_sort Date_getTime offers "fastest")
  /\ sortOffers Array_sort Date_getTime
       (sortOffers Array_sort Date_getTime offers "fastest") "fastest"
     = sortOffers Array_sort Date_getTime offers "fastest".
Proof.
  unfold sortOffers. cbn [String.eqb Ascii.eqb Bool.eqb].
  apply sort_by_key.
  - intros o _. apply not_negative_ordinary, getDuration_not_negative.
  - intros a b _ _. apply cmp_fastest_key.
Qed.

Lemma sortOffers_earliest (offers : list FlightOffer) :
  times_read Date_getTime offers ->
  sortOffers Array_sort Date_getTime offers "earliest"
  = insertion_sort (cmp_earliest Date_getTime) offers
  /\ Permutation (sortOffers Array_sort Date_getTime offers "earliest") offers
  /\ ascending (departure_time Date_getTime)
               (sortOffers Array_sort Date_getTime offers "earliest")
  /\ ties_kept (departure_time Date_getTime) offers
               (sortOffers Array_sort Date_getTime offers "earliest")
  /\ sortOffers Array_sort Date_getTime
       (sortOffers Array_sort Date_getTime offers "earliest") "earliest"
     = sortOffers Array_sort Date_getTime offers "earliest".
Proof.
  intros Ht. unfold sortOffers. cbn [String.eqb Ascii.eqb Bool.eqb].
  apply sort_by_key.
  - now apply times_read_ordinary.
  - intros a b Ha Hb. unfold cmp_earliest.
    apply sub_compare; now apply (times_read_ordinary offers).
Qed.

Lemma sortOffers_perm (offers : list FlightOffer) (key : string) :
  Permutation (sortOffers Array_sort Date_getTime offers key) offers.
Proof.
  unfold sortOffers.
  destruct (String.eqb key "cheapest"); [apply Array_sort_contract|].
  destruct (String.eqb key "fastest"); [apply Array_sort_contract|].
  destruct (String.eqb key "earliest"); [apply Array_sort_contract | reflexivity].
Qed.

End KeyFacts.

Section C7.

Import Offers.
Local Open Scope list_scope.

(** C7, as stated, fails for an offer list with a price that does not
    read as a number: the price [""] reads as [NaN], every comparison
    with it yields [NaN], which the sort takes for a tie, so the
    comparator ties 5 with [""] and [""] with 1 and still puts 5 after 1:
    it is not a consistent comparator, and the language leaves the order
    of the result to the engine.  No arrangement of these three offers
    has ascending prices, and an engine that sorts by insertion leaves
    the offer priced 5 in front of the one priced 1.  Likewise under
    "earliest": with a departure time that is not read as a date, no
    arrangement has ascending departure times. *)
Lemma C7_counterexample :
  price (priced "b" "") = NaN
  /\ cmp_cheapest (priced "a" "5") (priced "b" "") = NaN
  /\ cmp_cheapest (priced "b" "") (priced "c" "1") = NaN
  /\ SortCompare (cmp_cheapest (priced "a" "5") (priced "c" "1")) = Gt
  /\ ~ consistent cmp_cheapest [priced "a" "5"; priced "b" ""; priced "c" "1"]
  /\ (forall arranged,
        Permutation arranged [priced "a" "5"; priced "b" ""; priced "c" "1"] ->
        ~ ascending price arranged)
  /\ map offer_id
         (sortOffers insertion_sort (fun _ => NaN)
            [priced "a" "5"; priced "b" ""; priced "c" "1"] "cheapest")
     = ["a"; "b"; "c"]%string
  /\ (forall (Date_getTime : string -> number) arranged,
        Date_getTime "soon" = NaN ->
        Permutation arranged [departing "a" "2025-03-10T09:00"; departing "b" "soon"] ->
        ~ ascending (departure_time Date_getTime) arranged).
Proof.
  split; [reflexivity|]. split; [reflexivity|]. split; [reflexivity|].
  split; [vm_compute; reflexivity|].
  split; [|split; [|split]].
  - intros Hc.
    destruct (Hc (priced "a" "5") (priced "b" "") (priced "c" "1")) as [_ [_ [Heq _]]];
      cbn; auto.
    specialize (Heq eq_refl eq_refl). vm_compute in Heq. discriminate Heq.
  - intros arranged Hp Hs.
    assert (Ha : In (priced "a" "5") arranged)
      by (apply (Permutation_in _ (Permutation_sym Hp)); cbn; auto).
    assert (Hb : In (priced "b" "") arranged)
      by (apply (Permutation_in _ (Permutation_sym Hp)); cbn; auto).
    destruct (StronglySorted_pair _ arranged _ _ Hs Ha Hb) as [E | [H | H]];
      [discriminate E | vm_compute in H; discriminate H | vm_compute in H; discriminate H].
  - vm_compute. reflexivity.
  - intros Date_getTime arranged Hsoon Hp Hs.
    assert (Ha : In (departing "a" "2025-03-10T09:00") arranged)
      by (apply (Permutation_in _ (Permutation_sym Hp)); cbn; auto).
    assert (Hb : In (departing "b" "soon") arranged)
      by (apply (Permutation_in _ (Permutation_sym Hp)); cbn; auto).
    assert (Hkey : departure_time Date_getTime (departing "b" "soon") = NaN)
      by (cbn; exact Hsoon).
    destruct (StronglySorted_pair _ arranged _ _ Hs Ha Hb) as [E | [H | H]];
      [discriminate E | |]; rewrite Hkey in H.
    + destruct (departure_time Date_getTime (departing "a" "2025-03-10T09:00"));
        discriminate H.
    + discriminate H.
Qed.

Variable Array_sort : (FlightOffer -> FlightOffer -> number)
                      -> list FlightOffer -> list FlightOffer.
Variable Date_getTime : string -> number.

Hypothesis Array_sort_contract : sorts Array_sort.

(** C7, amended. Sorting rearranges the offers (nothing is lost or
    added) so that, for "cheapest", the numeric total prices ascend,
    whenever every price reads as a number; for "fastest", the total
    durations ascend, the total duration of an offer being the sum over
    its itineraries of hours * 60 + minutes read from the first PT#H#M
    token, an absent component or an absent token counting as zero; for
    "earliest", the departure times of the first segment of the first
    itinerary ascend, whenever every such time is read (an offer without
    such a segment, or without a time in it, counts as time 0).  Prices
    and durations are binary64 numbers: a price is the value nearest to
    its decimal text, and the sum of a duration is exact below 2^53.  The
    filter of the utilities module sorts as the route does.  A token
    PT#H#M reads as its hours and minutes, PT#H as hours only and PT#M as
    minutes only.  Offers priced 500, 200, 800 come out in the order 200,
    500, 800. *)
Theorem C7_sorting (offers : list FlightOffer) :
  ((forall o, In o offers -> price o <> NaN) ->
   Permutation (sortOffers Array_sort Date_getTime offers "cheapest") offers
   /\ ascending price (sortOffers Array_sort Date_getTime offers "cheapest"))
  /\ (Permutation (sortOffers Array_sort Date_getTime offers "fastest") offers
      /\ ascending getDuration (sortOffers Array_sort Date_getTime offers "fastest"))
  /\ (times_read Date_getTime offers ->
      Permutation (sortOffers Array_sort Date_getTime offers "earliest") offers
      /\ ascending (departure_time Date_getTime)
                   (sortOffers Array_sort Date_getTime offers "earliest"))
  /\ (forall key,
      key <> ""%string ->
      filterFlightOffers Array_sort Date_getTime offers
        {| airlines := None; stops := None; sortBy := Some key |}
      = sortOffers Array_sort Date_getTime offers key)
  /\ (forall o its segs s text more,
      itineraries o = {| duration := its; segments := s :: segs |} :: more ->
      departure_at s = Some text -> text <> ""%string ->
      departure_time Date_getTime o = Date_getTime text)
  /\ (forall o,
      itineraries o = []
      \/ (exists its more, itineraries o = {| duration := its; segments := [] |} :: more)
      \/ (exists its s segs more,
            itineraries o = {| duration := its; segments := s :: segs |} :: more
            /\ (departure_at s = None \/ departure_at s = Some ""%string)) ->
      departure_time Date_getTime o = num_of_Z 0)
  /\ (forall o,
      sum_minutes (itineraries o) < 2 ^ 53 ->
      getDuration o = num_of_Z (sum_minutes (itineraries o)))
  /\ (forall hours minutes,
      digit_run hours -> digit_run minutes ->
      itinerary_minutes (lasting hours minutes)
      = parseInt10 hours * 60 + parseInt10 minutes
      /\ match_duration ("PT" ++ hours ++ "H" ++ minutes ++ "M")
         = Some (parseInt10 hours, parseInt10 minutes)
      /\ match_duration ("PT" ++ hours ++ "H") = Some (parseInt10 hours, 0)
      /\ match_duration ("PT" ++ minutes ++ "M") = Some (0, parseInt10 minutes))
  /\ (match_duration "PT2H30M" = Some (2, 30)
      /\ match_duration "PT45M" = Some (0, 45)
      /\ match_duration "PT3H" = Some (3, 0)
      /\ match_duration "PT" = Some (0, 0)
      /\ match_duration "" = None
      /\ getDuration (direct "x" "BA" "PT2H30M" "1") = num_of_Z 150
      /\ price (priced "a" "500") = num_of_Z 500
      /\ price (priced "d" "120.50") = Num (241 # 2))
  /\ map offer_id
         (sortOffers Array_sort Date_getTime
            [priced "a" "500"; priced "b" "200"; priced "c" "800"] "cheapest")
     = ["b"; "a"; "c"]%string.
Proof.
  split; [|split; [|split; [|split; [|split; [|split; [|split; [|split; [|split]]]]]]]].
  - intros Hprice.
    destruct (sortOffers_cheapest Array_sort Date_getTime Array_sort_contract offers Hprice)
      as [_ [Hp [Hs _]]]. now split.
  - destruct (sortOffers_fastest Array_sort Date_getTime Array_sort_contract offers)
      as [_ [Hp [Hs _]]]. now split.
  - intros Htime.
    destruct (sortOffers_earliest Array_sort Date_getTime Array_sort_contract offers Htime)
      as [_ [Hp [Hs _]]]. now split.
  - intros key Hkey. unfold filterFlightOffers, apply_sort, apply_stops, apply_airlines.
    cbn [airlines stops sortBy truthy_str].
    destruct key as [|c key]; [now elim Hkey | reflexivity].
  - intros o its segs s text more Hshape Hat Hne. unfold departure_time.
    rewrite Hshape. cbn [segments]. rewrite Hat.
    destruct text; [now elim Hne | reflexivity].
  - intros o [H | [[its [more H]] | [its [s [segs [more [H Hat]]]]]]];
      unfold departure_time; rewrite H; try reflexivity.
    cbn [segments]. destruct Hat as [-> | ->]; reflexivity.
  - apply getDuration_sum.
  - intros hours minutes Hh Hm.
    destruct (match_duration_token hours minutes Hh Hm) as [H1 [H2 H3]].
    split; [|repeat split; assumption].
    unfold itinerary_minutes, lasting, duration_text. cbn [duration]. now rewrite H1.
  - repeat split; vm_compute; reflexivity.
  - destruct (sortOffers_cheapest Array_sort Date_getTime Array_sort_contract
                [priced "a" "500"; priced "b" "200"; priced "c" "800"]) as [-> _].
    + intros o [<- | [<- | [<- | []]]]; vm_compute; discriminate.
    + vm_compute. reflexivity.
Qed.

End C7.

Lemma C7_sorting_witness :
  ascending price
    (Offers.sortOffers insertion_sort (fun _ => NaN)
       [priced "a" "500"; priced "b" "200"; priced "c" "800"] "cheapest").
Proof.
  refine (proj2 (proj1 (C7_sorting insertion_sort (fun _ => NaN) insertion_sort_sorts
                          [priced "a" "500"; priced "b" "200"; priced "c" "800"]) _)).
  intros o [<- | [<- | [<- | []]]]; vm_compute; discriminate.
Defined.

(* ================================================================== *)
(** * Properties of the chat tool [getFlightOffers] *)
(* ================================================================== *)

Section ToolFacts.

Import Builder Assistant.
Local Open Scope nat_scope.
Local Open Scope list_scope.

Lemma filter_none {A : Type} (f : A -> bool) (l : list A) :
  (forall x, In x l -> f x = false) -> filter f l = [].
Proof.
  induction l as [|x l IH]; intros H; simpl; [reflexivity|].
  rewrite (H x (or_introl eq_refl)). apply IH. intros y Hy. apply H. now right.
Qed.

Lemma filter_every {A : Type} (f : A -> bool) (l : list A) :
  (forall x, In x l -> f x = true) -> filter f l = l.
Proof.
  induction l as [|x l IH]; intros H; simpl; [reflexivity|].
  rewrite (H x (or_introl eq_refl)). f_equal. apply IH. intros y Hy. apply H. now right.
Qed.

(** The traveler list holds exactly as many infants as were asked for. *)
Lemma infants_all_listed (p : Passengers) :
  List.length (filter is_infant (build_travelers p)) = infants p.
Proof.
  rewrite build_travelers_closed, !filter_app.
  rewrite (filter_none is_infant (map adult_of _)),
          (filter_none is_infant (map child_of _)),
          filter_every.
  - simpl. now rewrite length_map, length_seq.
  - intros t Ht. apply in_map_iff in Ht as [j [<- _]]. reflexivity.
  - intros t Ht. apply in_map_iff in Ht as [j [<- _]]. reflexivity.
  - intros t Ht. apply in_map_iff in Ht as [j [<- _]]. reflexivity.
Qed.

(** The infants of the traveler list, in order. *)
Lemma infants_only (p : Passengers) :
  filter is_infant (build_travelers p)
  = map (infant_of (1 + adults p + children p) (map String_ (seq 1 (adults p))))
        (seq 0 (infants p)).
Proof.
  rewrite build_travelers_closed, !filter_app.
  rewrite (filter_none is_infant (map adult_of _)),
          (filter_none is_infant (map child_of _)),
          filter_every.
  - reflexivity.
  - intros t Ht. apply in_map_iff in Ht as [j [<- _]]. reflexivity.
  - intros t Ht. apply in_map_iff in Ht as [j [<- _]]. reflexivity.
  - intros t Ht. apply in_map_iff in Ht as [j [<- _]]. reflexivity.
Qed.

Variable Date_isoDay : string -> option string.

(** The checks made before the builder is called do not look at the
    infant count. *)
Lemma prepare_ignores_infants (n : nat) (p : SearchInput) :
  prepare Date_isoDay (with_infants n p)
  = match prepare Date_isoDay p with
    | inl e => inl e
    | inr sp => inr (set_infants n sp)
    end.
Proof.
  unfold prepare, check_return, passengers_of, with_infants.
  cbn [in_tripType in_origin in_destination in_departureDate in_returnDate
       in_segments in_adults in_children in_infants in_travelClass in_currency
       in_maxOffers].
  destruct (is_multi_trip (in_tripType p)).
  - destruct (in_segments p) as [[|s segs]|]; try reflexivity.
    destruct (check_segments Date_isoDay (s :: segs) []); reflexivity.
  - destruct (in_origin p) as [o|]; [|reflexivity].
    destruct (in_destination p) as [d|]; [|reflexivity].
    destruct (in_departureDate p) as [date|]; [|reflexivity].
    destruct (negb _); [reflexivity|].
    destruct (negb (test_iata o)); [reflexivity|].
    destruct (negb (test_iata d)); [reflexivity|].
    destruct (usable (parseDate Date_isoDay date)); [|reflexivity].
    destruct (is_return (in_tripType p)); [|reflexivity].
    destruct (truthy_str (in_returnDate p)); [|reflexivity].
    destruct (in_returnDate p) as [text|]; [|reflexivity].
    destruct (usable (parseDate Date_isoDay text)); reflexivity.
Qed.

Lemma prepare_passengers (p : SearchInput) (sp : FlightSearchParams) :
  prepare Date_isoDay p = inr sp -> passengers sp = passengers_of p.
Proof.
  unfold prepare.
  destruct (is_multi_trip (in_tripType p)).
  - destruct (in_segments p) as [[|s segs]|]; try discriminate.
    destruct (check_segments Date_isoDay (s :: segs) []); [discriminate|].
    intros H. injection H as <-. reflexivity.
  - destruct (in_origin p) as [o|]; [|discriminate].
    destruct (in_destination p) as [d|]; [|discriminate].
    destruct (in_departureDate p) as [date|]; [|discriminate].
    destruct (negb _); [discriminate|].
    destruct (negb (test_iata o)); [discriminate|].
    destruct (negb (test_iata d)); [discriminate|].
    destruct (usable (parseDate Date_isoDay date)); [|discriminate].
    destruct (check_return Date_isoDay p); [discriminate|].
    intros H. injection H as <-. reflexivity.
Qed.

End ToolFacts.

Section C3.

Import Builder Assistant.
Local Open Scope nat_scope.
Local Open Scope list_scope.

(** C3, as stated, fails: a search for one adult with three infants is
    not rejected; its request, which lists the three infants, is handed
    to the search, and the tool answers with success. *)
Lemma C3_counterexample :
  in_adults crowded_lap < in_infants crowded_lap
  /\ success (fst (execute march_10 offers_found crowded_lap)) = true
  /\ exists request,
       snd (execute march_10 offers_found crowded_lap) = [request]
       /\ map associatedAdultId (filter is_infant (travelers request))
          = [Some "1"%string; Some "1"%string; Some "1"%string].
Proof.
  split; [simpl; lia|]. split; [reflexivity|].
  eexists. split; reflexivity.
Qed.

Variable Date_isoDay : string -> option string.
Variable searchFlightOffers : FlightOffersSearchRequest -> SearchResult.

(** C3, amended. The infant count is never validated.  Whether a trip
    specification is rejected before the search, and with which message,
    does not depend on its infant count; a specification, its codes in
    ASCII text, that fails the checks on trip type, IATA codes and dates
    is answered with the message of the failed check and is not searched;
    one that passes them is built into a request that lists all its
    infants, also when infants outnumber adults, infant [j] associated
    with the adult of id [1 + j mod adults], and that request is the one
    the tool passes to [searchFlightOffers]. *)
Theorem C3_infants_not_validated (params : SearchInput) :
  (forall n,
      prepare Date_isoDay (with_infants n params)
      = match prepare Date_isoDay params with
        | inl e => inl e
        | inr sp => inr (set_infants n sp)
        end)
  /\ (forall e,
      codes_ascii params ->
      prepare Date_isoDay params = inl e ->
      execute Date_isoDay searchFlightOffers params = (failed params e, []))
  /\ (forall sp,
      prepare Date_isoDay params = inr sp ->
      exists request,
        buildFlightOffersSearchRequest sp = Ok request
        /\ snd (execute Date_isoDay searchFlightOffers params) = [request]
        /\ success (fst (execute Date_isoDay searchFlightOffers params))
           = sr_success (searchFlightOffers request)
        /\ List.length (filter is_infant (travelers request)) = in_infants params
        /\ (1 <= in_adults params ->
            map associatedAdultId (filter is_infant (travelers request))
            = map (fun j => Some (String_ (1 + j mod in_adults params)))
                  (seq 0 (in_infants params)))).
Proof.
  split; [|split].
  - intros n. apply prepare_ignores_infants.
  - intros e _ He. unfold execute. now rewrite He.
  - intros sp Hsp. unfold execute. rewrite Hsp.
    pose proof (prepare_passengers Date_isoDay params sp Hsp) as Hpass.
    destruct (builder_returns sp) as [request Hreq].
    exists request. split; [assumption|]. rewrite Hreq.
    split; [|split].
    + destruct (sr_success (searchFlightOffers request)); reflexivity.
    + destruct (sr_success (searchFlightOffers request)); reflexivity.
    + unfold buildFlightOffersSearchRequest in Hreq.
      destruct (build_originDestinations sp); [|discriminate].
      cbn [bind] in Hreq. injection Hreq as <-. cbn [travelers].
      split; [rewrite infants_all_listed, Hpass; reflexivity|].
      intros Ha. rewrite infants_only, Hpass. cbn [passengers_of adults infants children].
      rewrite map_map. apply map_ext_in. intros j _.
      cbn [infant_of associatedAdultId]. rewrite length_map, length_seq.
      now apply adult_id_at.
Qed.

End C3.

Lemma C3_infants_not_validated_witness :
  Assistant.prepare march_10 crowded_lap <> inl ""%string
  /\ exists request,
       snd (Assistant.execute march_10 offers_found crowded_lap) = [request]
       /\ List.length (filter is_infant (Builder.travelers request)) = 3%nat.
Proof.
  split; [discriminate|].
  destruct (proj2 (proj2 (C3_infants_not_validated march_10 offers_found crowded_lap))
              _ eq_refl) as [request [_ [Hsent [_ [Hcount _]]]]].
  exists request. split; [exact Hsent | exact Hcount].
Defined.

(* ================================================================== *)
(** * Further properties of the retrying fetch client *)
(* ================================================================== *)

Section BackoffFacts.

Import Fetch.

Lemma exponential_range (attempt : nat) (rnd : Q) :
  (0 <= rnd)%Q -> (rnd < 1)%Q ->
  400 <= Z.min 5000 (400 * 2 ^ Z.of_nat attempt + jitter_of rnd) <= 5000.
Proof.
  intros H0 H1. pose proof (jitter_range rnd H0 H1) as Hj.
  assert (1 <= 2 ^ Z.of_nat attempt) by (apply Z.pow_le_mono_r with (b := 0); lia).
  lia.
Qed.

Lemma computeBackoffMs_absent (attempt : nat) (rnd : Q) :
  computeBackoffMs attempt None rnd
  = num_of_Z (Z.min 5000 (400 * 2 ^ Z.of_nat attempt + jitter_of rnd)).
Proof.
  unfold computeBackoffMs. cbn [truthy_str]. now rewrite Math_min_Z.
Qed.

Lemma finite_in_range (z : Z) :
  400 <= z <= 5000 ->
  exists d, num_of_Z z = Num d /\ (400 <= d)%Q /\ (d <= 5000)%Q.
Proof.
  intros [Hlo Hhi]. exists (inject_Z z). split; [reflexivity|]. split.
  - change 400%Q with (inject_Z 400). now rewrite <- Zle_Qle.
  - change 5000%Q with (inject_Z 5000). now rewrite <- Zle_Qle.
Qed.

(** Whatever the attempt and whatever the header, the delay is a finite
    number of milliseconds between 400 and 5000. *)
Lemma computeBackoffMs_range (attempt : nat) (header : option string) (rnd : Q) :
  (0 <= rnd)%Q -> (rnd < 1)%Q ->
  exists d, computeBackoffMs attempt header rnd = Num d
            /\ (400 <= d)%Q /\ (d <= 5000)%Q.
Proof.
  intros H0 H1.
  assert (Hexp : exists d, computeBackoffMs attempt None rnd = Num d
                           /\ (400 <= d)%Q /\ (d <= 5000)%Q).
  { rewrite computeBackoffMs_absent. apply finite_in_range.
    now apply exponential_range. }
  destruct header as [h|]; [|exact Hexp].
  destruct (truthy_str (Some h)) eqn:Ht.
  - destruct (Number_ h) as [| |s|] eqn:Hn.
    + replace (computeBackoffMs attempt (Some h) rnd)
        with (computeBackoffMs attempt None rnd); [exact Hexp|].
      unfold computeBackoffMs. now rewrite Ht, Hn.
    + replace (computeBackoffMs attempt (Some h) rnd)
        with (computeBackoffMs attempt None rnd); [exact Hexp|].
      unfold computeBackoffMs. now rewrite Ht, Hn.
    + destruct (Qlt_le_dec s 0) as [Hneg|Hpos].
      * replace (computeBackoffMs attempt (Some h) rnd)
          with (computeBackoffMs attempt None rnd); [exact Hexp|].
        unfold computeBackoffMs. rewrite Ht, Hn.
        assert (Hge : num_le (num_of_Z 0) (Num s) = false).
        { unfold num_le, num_of_Z. destruct (Qle_bool (inject_Z 0) s) eqn:E; [|reflexivity].
          apply Qle_bool_iff in E. exfalso. apply (Qlt_irrefl s).
          eapply Qlt_le_trans; eassumption. }
        now rewrite Hge.
      * unfold computeBackoffMs. rewrite Ht, Hn.
        assert (Hge : num_le (num_of_Z 0) (Num s) = true)
          by (unfold num_le, num_of_Z; now apply Qle_bool_iff).
        rewrite Hge.
        destruct (retry_after_ms s Hpos) as [Hshape _].
        destruct (clamp_bounds _ Hshape) as [d [Hd [Hlo [Hhi _]]]].
        exists d. split; [exact Hd|]. split; [lra | exact Hhi].
    + unfold computeBackoffMs. rewrite Ht, Hn. cbn.
      exists (inject_Z 5000). split; [reflexivity|]. split; [discriminate | apply Qle_refl].
  - replace (computeBackoffMs attempt (Some h) rnd)
      with (computeBackoffMs attempt None rnd); [exact Hexp|].
    unfold computeBackoffMs. now rewrite Ht.
Qed.

End BackoffFacts.

Section X_backoff.

Import Fetch.

(** X1. Every delay the client computes, for any attempt, any Retry-After
    text (absent, empty, numeric, negative, infinite or garbage) and any
    random draw, is a finite number of milliseconds between 400 and 5000. *)
Theorem X1_backoff_always_bounded (attempt : nat) (header : option string) (rnd : Q) :
  (0 <= rnd)%Q -> (rnd < 1)%Q ->
  exists d, computeBackoffMs attempt header rnd = Num d
            /\ (400 <= d)%Q /\ (d <= 5000)%Q.
Proof.
  intros H0 H1.
  destruct (computeBackoffMs_range attempt header rnd H0 H1) as [d [Hd [Hlo Hhi]]].
  exists d. repeat split; assumption.
Qed.

Lemma X1_backoff_always_bounded_witness :
  (0 <= 1 # 3)%Q /\ (1 # 3 < 1)%Q
  /\ exists d, computeBackoffMs 2 (Some "Infinity"%string) (1 # 3) = Num d
               /\ (400 <= d)%Q /\ (d <= 5000)%Q.
Proof.
  assert (H0 : (0 <= 1 # 3)%Q) by (unfold Qle; simpl; lia).
  assert (H1 : (1 # 3 < 1)%Q) by reflexivity.
  split; [exact H0|]. split; [exact H1|].
  exact (X1_backoff_always_bounded 2 (Some "Infinity"%string) (1 # 3) H0 H1).
Defined.

(** X2. Without a Retry-After header the cap is never reached on the
    first four attempts, where the delay is 400, 800, 1600 or 3200 ms plus
    the jitter, and is always reached from the fifth attempt on, where the
    delay is exactly 5000 ms; the delay never decreases from one attempt to
    the next for the same jitter. *)
Theorem X2_backoff_schedule (attempt : nat) (rnd : Q) :
  (0 <= rnd)%Q -> (rnd < 1)%Q ->
  ((attempt < 4)%nat ->
   computeBackoffMs attempt None rnd
   = num_of_Z (400 * 2 ^ Z.of_nat attempt + jitter_of rnd))
  /\ ((4 <= attempt)%nat -> computeBackoffMs attempt None rnd = num_of_Z 5000)
  /\ (exists d d', computeBackoffMs attempt None rnd = num_of_Z d
                   /\ computeBackoffMs (S attempt) None rnd = num_of_Z d'
                   /\ d <= d').
Proof.
  intros H0 H1. pose proof (jitter_range rnd H0 H1) as Hj.
  rewrite !computeBackoffMs_absent.
  split; [|split].
  - intros Hlt. f_equal.
    assert (2 ^ Z.of_nat attempt <= 2 ^ 3) by (apply Z.pow_le_mono_r; lia).
    change (2 ^ 3) with 8 in *. lia.
  - intros Hge. f_equal.
    assert (2 ^ 4 <= 2 ^ Z.of_nat attempt) by (apply Z.pow_le_mono_r; lia).
    change (2 ^ 4) with 16 in *. lia.
  - eexists. eexists. split; [reflexivity|]. split; [reflexivity|].
    assert (2 ^ Z.of_nat attempt <= 2 ^ Z.of_nat (S attempt))
      by (apply Z.pow_le_mono_r; lia).
    lia.
Qed.

Lemma X2_backoff_schedule_witness :
  (0 <= 0)%Q /\ (0 < 1)%Q
  /\ computeBackoffMs 7 None 0 = num_of_Z 5000.
Proof.
  assert (H0 : (0 <= 0)%Q) by (unfold Qle; simpl; lia).
  assert (H1 : (0 < 1)%Q) by reflexivity.
  split; [exact H0|]. split; [exact H1|].
  exact (proj1 (proj2 (X2_backoff_schedule 7 0 H0 H1)) ltac:(lia)).
Defined.

End X_backoff.

Section RunFacts.

Import Fetch.
Local Open Scope list_scope.

Lemma retry_loop_delays (maxRetries : Z) (script : list attempt_io) :
  forall (attempt : nat) (r : run),
    Forall draws_unit script ->
    retry_loop maxRetries attempt script = Some r ->
    Forall delay_in_range (delays r).
Proof.
  induction script as [|io rest IH]; intros attempt r Hall H; [discriminate|].
  inversion Hall as [|io' rest' [Hr0 Hr1] Hrest]; subst.
  cbn [retry_loop] in H.
  assert (Hgo : forall header,
             after_sleep (computeBackoffMs attempt header (random_io io))
                         (retry_loop maxRetries (S attempt) rest) = Some r ->
             Forall delay_in_range (delays r)).
  { intros header Hs. unfold after_sleep in Hs.
    destruct (retry_loop maxRetries (S attempt) rest) as [r1|] eqn:Hr1'; [|discriminate].
    injection Hs as <-. cbn [delays]. constructor.
    - apply computeBackoffMs_range; assumption.
    - now apply (IH (S attempt)). }
  destruct (token_io io).
  - destruct (fetch_io io) as [|resp].
    + destruct (Z.of_nat attempt <? maxRetries); [now apply (Hgo None)|].
      injection H as <-. constructor.
    + destruct (ok resp); [injection H as <-; constructor|].
      destruct (isAuthError (status resp)); [injection H as <-; constructor|].
      destruct (isRetriableStatus (status resp) && (Z.of_nat attempt <? maxRetries)).
      * now apply (Hgo (retryAfter resp)).
      * injection H as <-. constructor.
  - injection H as <-. constructor.
Qed.

(** A transient prefix within the retry budget is walked through. *)
Lemma retry_loop_through (maxRetries : Z) (before : list attempt_io) :
  forall (attempt : nat) (rest : list attempt_io),
    Forall transient before ->
    Z.of_nat (attempt + List.length before) <= maxRetries ->
    exists slept,
      List.length slept = List.length before
      /\ retry_loop maxRetries attempt (before ++ rest)
         = match retry_loop maxRetries (attempt + List.length before) rest with
           | Some r => Some {| outcome := outcome r;
                               delays := slept ++ delays r;
                               fetches := (List.length before + fetches r)%nat |}
           | None => None
           end.
Proof.
  induction before as [|io before IH]; intros attempt rest Hall Hlen.
  - exists []. split; [reflexivity|]. cbn [List.length app]. rewrite Nat.add_0_r.
    destruct (retry_loop maxRetries attempt rest) as [[o d f]|]; reflexivity.
  - inversion Hall as [|io' b' [[tok Htok] Hio] Hrest]; subst.
    cbn [List.length] in Hlen.
    destruct (IH (S attempt) rest Hrest ltac:(lia)) as [slept [Hsl Heq]].
    assert (Hlt : (Z.of_nat attempt <? maxRetries) = true) by (apply Z.ltb_lt; lia).
    cbn [app retry_loop List.length]. rewrite Htok.
    replace (attempt + S (List.length before))%nat
      with (S attempt + List.length before)%nat by lia.
    destruct Hio as [Hrej | [resp [Hresp [Hok [Hauth Hretry]]]]].
    + rewrite Hrej, Hlt, Heq.
      exists (computeBackoffMs attempt None (random_io io) :: slept).
      split; [cbn [List.length]; now rewrite Hsl|].
      destruct (retry_loop maxRetries (S attempt + List.length before) rest); reflexivity.
    + rewrite Hresp, Hok, Hauth, Hretry, Hlt, Heq. cbn [andb].
      exists (computeBackoffMs attempt (retryAfter resp) (random_io io) :: slept).
      split; [cbn [List.length]; now rewrite Hsl|].
      destruct (retry_loop maxRetries (S attempt + List.length before) rest); reflexivity.
Qed.

End RunFacts.

Section X_runs.

Import Fetch.
Local Open Scope list_scope.

(** X3. A run of the client makes at most [maxRetries] sleeps and at
    most [1 + maxRetries] network calls (none and one when [maxRetries] is
    negative), and each sleep lasts between 400 and 5000 ms: a request is
    never blocked for more than [5000 * maxRetries] ms of waiting. *)
Theorem X3_run_effort_bounded (maxRetries : option Z) (script : list attempt_io) (r : run) :
  Forall draws_unit script ->
  amadeusFetch maxRetries script = Some r ->
  let M := Z.max 0 (maxRetries_or_default maxRetries) in
  Z.of_nat (List.length (delays r)) <= M
  /\ Z.of_nat (fetches r) <= M + 1
  /\ (fetches r <= S (List.length (delays r)))%nat
  /\ Forall delay_in_range (delays r).
Proof.
  intros Hdraws Hrun M.
  pose proof (retry_loop_delays _ _ _ _ Hdraws Hrun) as Hd.
  apply retry_loop_shape in Hrun.
  destruct Hrun as [before [io [after [Hsc [Hall [Hlen [Hb He]]]]]]].
  cbn [Nat.add] in *.
  assert (Hbefore : Z.of_nat (List.length before) <= M).
  { destruct before as [|b before']; [cbn [List.length]; lia|].
    assert (b :: before' <> []) by discriminate. specialize (Hb H). lia. }
  assert (Hf : (fetches r <= S (List.length before))%nat).
  { destruct He as [[e [_ [_ Hf]]] | [_ [Hf _]]]; lia. }
  rewrite Hlen. repeat split; try assumption; lia.
Qed.

Lemma X3_run_effort_bounded_witness :
  exists r,
    amadeusFetch (Some 2) [network_down; answer 503; answer 500] = Some r
    /\ (fetches r <= S (List.length (delays r)))%nat
    /\ Forall delay_in_range (delays r).
Proof.
  assert (Hd : Forall draws_unit [network_down; answer 503; answer 500]).
  { repeat constructor; unfold Qle; simpl; lia. }
  eexists. split; [reflexivity|].
  exact (proj2 (proj2 (X3_run_effort_bounded (Some 2)
                         [network_down; answer 503; answer 500] _ Hd eq_refl))).
Defined.

(** X4. With [maxRetries] zero or negative the client makes one attempt
    only and never sleeps: a network failure is thrown at once and any
    response, retriable or not, is returned as it is. *)
Theorem X4_no_retry_budget (maxRetries : option Z) (io : attempt_io)
        (rest : list attempt_io) (tok : string) :
  maxRetries_or_default maxRetries <= 0 ->
  token_io io = Ok tok ->
  exists r,
    amadeusFetch maxRetries (io :: rest) = Some r
    /\ delays r = [] /\ fetches r = 1%nat
    /\ outcome r = match fetch_io io with
                   | Rejected => Throw NetworkError
                   | Responded resp => Ok resp
                   end.
Proof.
  intros HM Htok. unfold amadeusFetch. cbn [retry_loop]. rewrite Htok.
  assert (Hlt : (Z.of_nat 0 <? maxRetries_or_default maxRetries) = false)
    by (apply Z.ltb_ge; simpl; lia).
  destruct (fetch_io io) as [|resp]; rewrite Hlt.
  - eexists. repeat split; reflexivity.
  - rewrite andb_false_r.
    destruct (ok resp); [eexists; repeat split; reflexivity|].
    destruct (isAuthError (status resp)); eexists; repeat split; reflexivity.
Qed.

Lemma X4_no_retry_budget_witness :
  maxRetries_or_default (Some 0) <= 0
  /\ exists r, amadeusFetch (Some 0) [answer 503; answer 200] = Some r
               /\ delays r = [] /\ fetches r = 1%nat.
Proof.
  assert (H : maxRetries_or_default (Some 0) <= 0) by (simpl; lia).
  split; [exact H|].
  destruct (X4_no_retry_budget (Some 0) (answer 503) [answer 200] "t"%string H eq_refl)
    as [r [Hr [Hd [Hf _]]]].
  exists r. repeat split; assumption.
Defined.

(** X5. Whatever transient failures came first, as long as they fit in
    the retry budget, a response that is a success, an authentication
    error or not retriable is returned, after one sleep per earlier
    failure and no attempt beyond it. *)
Theorem X5_final_answer_returned (maxRetries : option Z)
        (before after : list attempt_io) (io : attempt_io) (tok : string) (resp : Response) :
  Forall transient before ->
  Z.of_nat (List.length before) <= maxRetries_or_default maxRetries ->
  token_io io = Ok tok ->
  fetch_io io = Responded resp ->
  ok resp = true \/ isAuthError (status resp) = true
    \/ isRetriableStatus (status resp) = false ->
  exists r,
    amadeusFetch maxRetries (before ++ io :: after) = Some r
    /\ outcome r = Ok resp
    /\ fetches r = S (List.length before)
    /\ List.length (delays r) = List.length before.
Proof.
  intros Hall Hlen Htok Hresp Hfinal. unfold amadeusFetch.
  destruct (retry_loop_through (maxRetries_or_default maxRetries) before 0 (io :: after)
              Hall Hlen) as [slept [Hsl Heq]].
  rewrite Heq. cbn [retry_loop Nat.add]. rewrite Htok, Hresp.
  assert (Hend : (if ok resp then
                    Some {| outcome := Ok resp; delays := []; fetches := 1 |}
                  else if isAuthError (status resp) then
                    Some {| outcome := Ok resp; delays := []; fetches := 1 |}
                  else if isRetriableStatus (status resp)
                          && (Z.of_nat (List.length before) <? maxRetries_or_default maxRetries)
                  then after_sleep
                         (computeBackoffMs (List.length before) (retryAfter resp) (random_io io))
                         (retry_loop (maxRetries_or_default maxRetries)
                                     (S (List.length before)) after)
                  else Some {| outcome := Ok resp; delays := []; fetches := 1 |})
                 = Some {| outcome := Ok resp; delays := []; fetches := 1 |}).
  { destruct Hfinal as [H | [H | H]].
    - now rewrite H.
    - rewrite H. now destruct (ok resp).
    - rewrite H. cbn [andb]. destruct (ok resp); [reflexivity|].
      now destruct (isAuthError (status resp)). }
  rewrite Hend. eexists. split; [reflexivity|]. cbn [outcome fetches delays].
  split; [reflexivity|]. split; [lia|]. now rewrite app_nil_r.
Qed.

Lemma X5_final_answer_returned_witness :
  exists r,
    amadeusFetch None ([answer 503; network_down] ++ answer 404 :: [answer 200]) = Some r
    /\ outcome r = Ok {| status := 404; retryAfter := None; payload := ""%string |}
    /\ fetches r = 3%nat.
Proof.
  assert (Ht : Forall transient [answer 503; network_down]).
  { constructor; [|constructor; [|constructor]].
    - split; [now exists "t"%string|]. right. eexists. repeat split; reflexivity.
    - split; [now exists "t"%string|]. now left. }
  destruct (X5_final_answer_returned None [answer 503; network_down] [answer 200]
              (answer 404) "t"%string
              {| status := 404; retryAfter := None; payload := ""%string |}
              Ht ltac:(simpl; lia) eq_refl eq_refl
              (or_intror (or_intror eq_refl))) as [r [Hr [Ho [Hf _]]]].
  exists r. repeat split; assumption.
Defined.

End X_runs.

(* ================================================================== *)
(** * Further properties of the token cache *)
(* ================================================================== *)

Section X_auth.

Import Auth.

(** X6. After a granted exchange at time [now] with lifetime
    [expires_in] seconds, every later call made more than five minutes
    before the expiry returns that same token from the cache, without an
    exchange; a token granted for five minutes or less is never reused. *)
Theorem X6_granted_token_reused (cache : option TokenCache) (now later : Z)
        (access_token : string) (expires_in : Z) (world : exchange) :
  exchanged (getAccessToken cache now (ExchangeGranted access_token expires_in)) = true ->
  now <= later ->
  let cache1 := cache_after (getAccessToken cache now (ExchangeGranted access_token expires_in)) in
  let second := getAccessToken cache1 later world in
  (later + 300000 < now + expires_in * 1000 ->
   returned second = Ok access_token /\ exchanged second = false
   /\ cache_after second = cache1)
  /\ (expires_in <= 300 -> exchanged second = true).
Proof.
  intros Hex Hle cache1 second.
  assert (Hc1 : cache1 = Some {| token := access_token;
                                 expiresAt := now + expires_in * 1000 |}).
  { unfold cache1, getAccessToken in *. destruct cache as [c|]; [|reflexivity].
    destruct (expiresAt c >? now + 300000); [discriminate Hex | reflexivity]. }
  unfold second. rewrite Hc1. unfold getAccessToken. cbn [expiresAt token].
  split.
  - intros Hfresh.
    assert (H : (now + expires_in * 1000 >? later + 300000) = true)
      by (apply Z.gtb_lt; lia).
    rewrite H. repeat split.
  - intros Hshort.
    assert (H : (now + expires_in * 1000 >? later + 300000) = false).
    { destruct (Z.gtb_spec (now + expires_in * 1000) (later + 300000)); [lia | reflexivity]. }
    rewrite H. destruct world; reflexivity.
Qed.

Lemma X6_granted_token_reused_witness :
  0 <= 1200000
  /\ returned (getAccessToken
                 (cache_after (getAccessToken None 0 (ExchangeGranted "tok" 1799)))
                 1200000 ExchangeRejected) = Ok "tok".
Proof.
  assert (H : 0 <= 1200000) by lia.
  split; [exact H|].
  exact (proj1 (proj1 (X6_granted_token_reused None 0 1200000 "tok" 1799 ExchangeRejected
                         eq_refl H) eq_refl)).
Defined.

End X_auth.

(* ================================================================== *)
(** * Further properties of the filter / sort / paginate engine *)
(* ================================================================== *)

Section ChunkFacts.

Local Open Scope list_scope.
Local Open Scope nat_scope.

Lemma firstn_plus {A : Type} (a b : nat) (l : list A) :
  firstn (a + b) l = firstn a l ++ firstn b (skipn a l).
Proof.
  revert l. induction a as [|a IH]; intros l; [reflexivity|].
  destruct l as [|x l]; cbn [Nat.add firstn skipn app].
  - now rewrite firstn_nil.
  - now rewrite IH.
Qed.

(** The first [k] windows of width [w] of a list make up its first
    [k * w] elements. *)
Lemma windows_concat {A : Type} (w k : nat) (l : list A) :
  List.concat (map (fun p => firstn w (skipn ((p - 1) * w) l)) (seq 1 k))
  = firstn (k * w) l.
Proof.
  induction k as [|k IH]; [reflexivity|].
  rewrite seq_S, map_app, concat_app, IH. cbn [map List.concat].
  rewrite app_nil_r. replace (1 + k - 1) with k by lia.
  replace (S k * w) with (k * w + w) by lia.
  now rewrite firstn_plus.
Qed.

End ChunkFacts.

Section EngineFacts.

Import Offers.
Local Open Scope list_scope.

Variable Array_sort : (FlightOffer -> FlightOffer -> number)
                      -> list FlightOffer -> list FlightOffer.
Variable Date_getTime : string -> number.

Hypothesis Array_sort_contract : sorts Array_sort.

Lemma apply_airlines_filter (filters : Filters) (offers : list FlightOffer) :
  apply_airlines filters offers = filter (passes_airlines filters) offers.
Proof.
  unfold apply_airlines, passes_airlines.
  destruct (airlines filters) as [[|c cs]|]; try reflexivity;
    symmetry; now apply filter_true.
Qed.

Lemma apply_stops_filter (filters : Filters) (offers : list FlightOffer) :
  apply_stops filters offers = filter (passes_stops filters) offers.
Proof.
  unfold apply_stops, passes_stops.
  destruct (stops filters) as [s|]; [|symmetry; now apply filter_true].
  destruct (truthy_str (Some s)); cbn [andb]; [|symmetry; now apply filter_true].
  destruct (String.eqb s "any"); cbn [negb]; [symmetry; now apply filter_true | reflexivity].
Qed.

Lemma apply_sort_perm (filters : Filters) (offers : list FlightOffer) :
  Permutation (apply_sort Array_sort Date_getTime filters offers) offers.
Proof.
  unfold apply_sort. destruct (truthy_str (sortBy filters)); [|reflexivity].
  destruct (sortBy filters); [now apply sortOffers_perm | reflexivity].
Qed.

(** Sorting what is sorted changes nothing, when the keys are read. *)
Lemma sortOffers_twice (offers : list FlightOffer) (key : string) :
  keys_read Date_getTime (Some key) offers ->
  sortOffers Array_sort Date_getTime (sortOffers Array_sort Date_getTime offers key) key
  = sortOffers Array_sort Date_getTime offers key.
Proof.
  intros [Hcheap Hearly].
  destruct (String.eqb key "cheapest") eqn:E1.
  { apply String.eqb_eq in E1. subst key.
    now apply sortOffers_cheapest, Hcheap. }
  destruct (String.eqb key "fastest") eqn:E2.
  { apply String.eqb_eq in E2. subst key. now apply sortOffers_fastest. }
  destruct (String.eqb key "earliest") eqn:E3.
  { apply String.eqb_eq in E3. subst key.
    now apply sortOffers_earliest, Hearly. }
  unfold sortOffers. now rewrite E1, E2, E3.
Qed.

Lemma filterByAirlines_upper (offers : list FlightOffer) (allow : list string) :
  filterByAirlines offers (map toUpperCase allow)
  = apply_airlines {| airlines := Some allow; stops := None; sortBy := None |} offers.
Proof.
  unfold filterByAirlines, apply_airlines. cbn [airlines].
  destruct allow as [|c cs]; reflexivity.
Qed.

End EngineFacts.

Section TextFacts.

Lemma upper_ascii_twice (c : ascii) : upper_ascii (upper_ascii c) = upper_ascii c.
Proof.
  destruct c as [[] [] [] [] [] [] [] []]; reflexivity.
Qed.

Lemma toUpperCase_twice (s : string) : toUpperCase (toUpperCase s) = toUpperCase s.
Proof.
  induction s as [|c s IH]; cbn [toUpperCase]; [reflexivity|].
  now rewrite upper_ascii_twice, IH.
Qed.

Lemma includes_In (l : list string) (x : string) :
  Offers.includes l x = true <-> In x l.
Proof.
  unfold Offers.includes. rewrite existsb_exists. split.
  - intros [y [Hy Heq]]. apply String.eqb_eq in Heq. now subst.
  - intros H. exists x. split; [assumption | apply String.eqb_refl].
Qed.

End TextFacts.

Section X_engine.

Import Offers.
Local Open Scope list_scope.

Variable Array_sort : (FlightOffer -> FlightOffer -> number)
                      -> list FlightOffer -> list FlightOffer.
Variable Date_getTime : string -> number.

Hypothesis Array_sort_contract : sorts Array_sort.

(** X7. Sorting is stable: offers whose keys are the same number keep
    their relative order, under "cheapest" when every price reads as a
    number, under "fastest" always, and under "earliest" when every
    departure time is read; and a sort key that is none of cheapest,
    fastest, earliest leaves the whole list as it is. *)
Theorem X7_sort_is_stable (offers : list FlightOffer) :
  ((forall o, In o offers -> price o <> NaN) ->
   ties_kept price offers (sortOffers Array_sort Date_getTime offers "cheapest"))
  /\ ties_kept getDuration offers (sortOffers Array_sort Date_getTime offers "fastest")
  /\ (times_read Date_getTime offers ->
      ties_kept (departure_time Date_getTime) offers
                (sortOffers Array_sort Date_getTime offers "earliest"))
  /\ (forall key,
      String.eqb key "cheapest" = false -> String.eqb key "fastest" = false ->
      String.eqb key "earliest" = false ->
      sortOffers Array_sort Date_getTime offers key = offers).
Proof.
  split; [|split; [|split]].
  - intros Hprice. now apply sortOffers_cheapest.
  - now apply sortOffers_fastest.
  - intros Htime. now apply sortOffers_earliest.
  - intros key H1 H2 H3. unfold sortOffers. now rewrite H1, H2, H3.
Qed.

(** X8. Applying the same criteria to the engine's own output changes
    nothing, provided every key read by the requested sort is a number
    (always so for "fastest" and for no sort). *)
Theorem X8_filter_idempotent (offers : list FlightOffer) (filters : Filters) :
  keys_read Date_getTime (sortBy filters) offers ->
  filterFlightOffers Array_sort Date_getTime
    (filterFlightOffers Array_sort Date_getTime offers filters) filters
  = filterFlightOffers Array_sort Date_getTime offers filters.
Proof.
  intros Hfin. unfold filterFlightOffers.
  set (kept := apply_stops filters (apply_airlines filters offers)).
  assert (Hkept : forall o, In o kept ->
            In o offers /\ passes_airlines filters o = true
            /\ passes_stops filters o = true).
  { intros o Ho. unfold kept in Ho.
    rewrite apply_stops_filter, apply_airlines_filter in Ho.
    apply filter_In in Ho as [Ho Hs]. apply filter_In in Ho as [Ho Ha]. auto. }
  assert (Hsorted : forall o, In o (apply_sort Array_sort Date_getTime filters kept) ->
                              In o kept).
  { intros o. apply Permutation_in. now apply apply_sort_perm. }
  rewrite apply_airlines_filter, filter_every
    by (intros o Ho; now apply Hkept, Hsorted).
  rewrite apply_stops_filter, filter_every
    by (intros o Ho; now apply Hkept, Hsorted).
  unfold apply_sort. destruct (truthy_str (sortBy filters)); [|reflexivity].
  destruct (sortBy filters) as [key|] eqn:Hkey; [|reflexivity].
  apply sortOffers_twice; [assumption|]. destruct Hfin as [Hc He].
  split; intros Hk.
  - intros o Ho. apply (Hc Hk). now apply Hkept.
  - intros o Ho. apply (He Hk). now apply Hkept.
Qed.

End X_engine.

Section X_engine_examples.

Import Offers.
Local Open Scope list_scope.

Lemma showcase_prices_read (o : FlightOffer) : In o showcase -> price o <> NaN.
Proof.
  intros [<- | [<- | [<- | [<- | []]]]]; vm_compute; discriminate.
Qed.

Lemma X7_sort_is_stable_witness :
  filter (fun o => num_eqb (price (direct "a" "BA" "PT9H" "300")) (price o))
         (sortOffers insertion_sort (fun _ => NaN) showcase "cheapest")
  = [direct "a" "BA" "PT9H" "300"; direct "d" "ba" "PT9H" "300.0"].
Proof.
  exact (proj1 (X7_sort_is_stable insertion_sort (fun _ => NaN) insertion_sort_sorts showcase)
               showcase_prices_read (direct "a" "BA" "PT9H" "300") (or_introl eq_refl)).
Defined.

Lemma X8_filter_idempotent_witness :
  keys_read (fun _ => NaN) (Some "cheapest"%string) showcase
  /\ map offer_id (filterFlightOffers insertion_sort (fun _ => NaN) showcase ba_nonstop_cheapest)
     = ["c"; "a"; "d"]%string
  /\ filterFlightOffers insertion_sort (fun _ => NaN)
       (filterFlightOffers insertion_sort (fun _ => NaN) showcase ba_nonstop_cheapest)
       ba_nonstop_cheapest
     = filterFlightOffers insertion_sort (fun _ => NaN) showcase ba_nonstop_cheapest.
Proof.
  assert (H : keys_read (fun _ => NaN) (Some "cheapest"%string) showcase).
  { split; intros Hk; [intros o; apply showcase_prices_read | discriminate Hk]. }
  split; [exact H|]. split; [vm_compute; reflexivity|].
  exact (X8_filter_idempotent insertion_sort (fun _ => NaN) insertion_sort_sorts
           showcase ba_nonstop_cheapest H).
Defined.

End X_engine_examples.

Section X_pages.

Import Offers.
Local Open Scope list_scope.

Lemma page_window (offers : list FlightOffer) (p : nat) (limit : Z) :
  (1 <= p)%nat -> 1 <= limit ->
  fst (paginate offers (Z.of_nat p) limit)
  = firstn (Z.to_nat limit) (skipn ((p - 1) * Z.to_nat limit) offers).
Proof.
  intros Hp Hl. unfold paginate. cbn [fst].
  rewrite Array_slice_window by nia. f_equal. f_equal. nia.
Qed.

(** X9. For a page size of at least 1, if the engine reports [n] pages
    then the pages 1 to [n], one after the other, are exactly the filtered
    offers: no offer is skipped or shown twice.  Every page holds at most
    [limit] offers, every page before the last holds exactly [limit], and
    none of the [n] pages is empty. *)
Theorem X9_pages_cover (offers : list FlightOffer) (limit : Z) (n : nat) :
  1 <= limit ->
  totalPages (snd (paginate offers 1 limit)) = num_of_Z (Z.of_nat n) ->
  List.concat (pages_upto offers limit n) = offers
  /\ (forall p, (1 <= p)%nat ->
        Z.of_nat (List.length (fst (paginate offers (Z.of_nat p) limit))) <= limit)
  /\ (forall p, (1 <= p < n)%nat ->
        Z.of_nat (List.length (fst (paginate offers (Z.of_nat p) limit))) = limit)
  /\ (forall p, (1 <= p <= n)%nat -> fst (paginate offers (Z.of_nat p) limit) <> []).
Proof.
  intros Hl Hn.
  assert (Hpages : Z.of_nat n = - ((- Z.of_nat (List.length offers)) / limit)).
  { unfold paginate, Math_ceil_div in Hn. cbn [snd totalPages] in Hn.
    destruct (Z.eqb_spec limit 0); [lia|].
    unfold num_of_Z in Hn. injection Hn as Hn. lia. }
  pose proof (ceil_div_bounds (Z.of_nat (List.length offers)) limit ltac:(lia)) as Hb.
  cbv zeta in Hb. rewrite <- Hpages in Hb.
  split; [|split; [|split]].
  - unfold pages_upto.
    rewrite (map_ext_in _ (fun p => firstn (Z.to_nat limit)
                                      (skipn ((p - 1) * Z.to_nat limit) offers))).
    + rewrite windows_concat. apply firstn_all2. nia.
    + intros p Hp. apply in_seq in Hp. apply page_window; lia.
  - intros p Hp. rewrite page_window by assumption.
    rewrite length_firstn. lia.
  - intros p Hp. rewrite page_window by lia.
    rewrite length_firstn, length_skipn. nia.
  - intros p Hp Hempty. rewrite page_window in Hempty by lia.
    apply (f_equal (@List.length _)) in Hempty.
    rewrite length_firstn, length_skipn in Hempty. cbn [List.length] in Hempty. nia.
Qed.

Lemma X9_pages_cover_witness :
  1 <= 10
  /\ List.concat (pages_upto (repeat mixed_offer 23) 10 3) = repeat mixed_offer 23.
Proof.
  assert (H : 1 <= 10) by lia.
  split; [exact H|].
  exact (proj1 (X9_pages_cover (repeat mixed_offer 23) 10 3 H eq_refl)).
Defined.

End X_pages.

Section X_filters.

Import Offers.
Local Open Scope list_scope.

Variable Array_sort : (FlightOffer -> FlightOffer -> number)
                      -> list FlightOffer -> list FlightOffer.
Variable Date_getTime : string -> number.

Lemma stops_ok_exclusive (it : Itinerary) :
  (stops_ok "nonstop" it = true -> stops_ok "1-stop" it = false
                                   /\ stops_ok "2+-stops" it = false)
  /\ (stops_ok "1-stop" it = true -> stops_ok "2+-stops" it = false).
Proof.
  unfold stops_ok. cbn [String.eqb Ascii.eqb Bool.eqb].
  set (z := Z.of_nat (List.length (segments it)) - 1).
  destruct (Z.eqb_spec z 0), (Z.eqb_spec z 1), (Z.geb_spec z 2);
    repeat split; intros; try reflexivity; try discriminate; lia.
Qed.

(** X10. The three stop buckets exclude one another for every offer that
    has at least one itinerary: an offer kept by one bucket is dropped by
    the other two.  An offer without itineraries is kept by every bucket. *)
Theorem X10_stop_buckets_exclusive (offers : list FlightOffer) (offer : FlightOffer) :
  (itineraries offer <> [] ->
   (In offer (filterByStops offers "nonstop") ->
    ~ In offer (filterByStops offers "1-stop")
    /\ ~ In offer (filterByStops offers "2+-stops"))
   /\ (In offer (filterByStops offers "1-stop") ->
       ~ In offer (filterByStops offers "2+-stops")))
  /\ (itineraries offer = [] -> In offer offers ->
      forall bucket, In offer (filterByStops offers bucket)).
Proof.
  split.
  - intros Hne. destruct (itineraries offer) as [|it its] eqn:Hits; [now elim Hne|].
    unfold filterByStops. rewrite !filter_In, Hits. cbn [forallb].
    pose proof (stops_ok_exclusive it) as [H0 H1].
    split.
    + intros [_ H]. apply andb_prop in H as [H _]. destruct (H0 H) as [Ha Hb].
      split; intros [_ C]; apply andb_prop in C as [C _]; congruence.
    + intros [_ H]. apply andb_prop in H as [H _]. specialize (H1 H).
      intros [_ C]. apply andb_prop in C as [C _]. congruence.
  - intros Hnil Hin bucket. unfold filterByStops. apply filter_In.
    split; [assumption|]. now rewrite Hnil.
Qed.

(** X11. The airline stage keeps an offer exactly when some segment of some
    itinerary is flown by a carrier of the allow-list, letter case aside
    on both sides; an absent or empty allow-list keeps every offer; and
    the route's filter, given the upper-cased allow-list, keeps the same
    offers. *)
Theorem X11_airline_filter (offers : list FlightOffer) (filters : Filters) :
  (forall allow offer,
      airlines filters = Some allow -> allow <> [] ->
      (In offer (apply_airlines filters offers)
       <-> In offer offers /\ carrier_allowed allow offer))
  /\ (airlines filters = None \/ airlines filters = Some [] ->
      apply_airlines filters offers = offers)
  /\ (forall allow,
      airlines filters = Some allow ->
      filterByAirlines offers (map toUpperCase allow) = apply_airlines filters offers).
Proof.
  split; [|split].
  - intros allow offer Ha Hne. unfold apply_airlines. rewrite Ha.
    destruct allow as [|c cs]; [now elim Hne|].
    rewrite filter_In. unfold flies_with, carrier_allowed.
    split; intros [Hin H]; (split; [assumption|]).
    + apply existsb_exists in H as [it [Hit H]].
      apply existsb_exists in H as [sg [Hsg H]].
      apply includes_In, in_map_iff in H as [code [Hcode Hin']].
      exists it, sg, code. repeat split; assumption.
    + destruct H as [it [sg [code [Hit [Hsg [Hcode Heq]]]]]].
      apply existsb_exists. exists it. split; [assumption|].
      apply existsb_exists. exists sg. split; [assumption|].
      apply includes_In, in_map_iff. exists code. split; assumption.
  - intros [H | H]; unfold apply_airlines; now rewrite H.
  - intros allow Ha. unfold filterByAirlines, apply_airlines. rewrite Ha.
    destruct allow; reflexivity.
Qed.

(** X12. The chat tool and the HTTP route run the same engine: for the
    same cached offers and the same criteria (the route receiving the
    allow-list upper-cased) both return the same offers on the page, and
    when at least one offer passes the filters they report the same
    pagination. *)
Theorem X12_tool_and_route_agree (offers : list FlightOffer) (allow : option (list string))
        (sortKey stopsKey : string) (page limit : Z) :
  sortKey <> ""%string -> stopsKey <> ""%string ->
  let tool := tool_page Array_sort Date_getTime offers allow sortKey stopsKey page limit in
  let route := GET_page Array_sort Date_getTime offers (option_map (map toUpperCase) allow)
                        (Some sortKey) (Some stopsKey) page limit in
  fst tool = fst route
  /\ total (snd tool) = total (snd route)
  /\ (total (snd route) <> 0 -> tool = route).
Proof.
  intros Hsort Hstops tool route.
  assert (Hsame :
    filterFlightOffers Array_sort Date_getTime offers
      {| airlines := allow;
         stops := if String.eqb stopsKey "any" then None else Some stopsKey;
         sortBy := Some sortKey |}
    = sortOffers Array_sort Date_getTime
        (filterByStops
           (match option_map (map toUpperCase) allow with
            | Some a => filterByAirlines offers a
            | None => offers
            end) stopsKey) sortKey).
  { unfold filterFlightOffers, apply_sort. cbn [sortBy].
    destruct sortKey as [|c sortKey']; [now elim Hsort|]. cbn [truthy_str].
    f_equal.
    assert (Ha : apply_airlines
                   {| airlines := allow;
                      stops := if String.eqb stopsKey "any" then None else Some stopsKey;
                      sortBy := Some (String c sortKey') |} offers
                 = match option_map (map toUpperCase) allow with
                   | Some a => filterByAirlines offers a
                   | None => offers
                   end).
    { unfold apply_airlines, filterByAirlines. cbn [airlines].
      destruct allow as [[|x xs]|]; reflexivity. }
    rewrite Ha. unfold apply_stops. cbn [stops].
    destruct (String.eqb stopsKey "any") eqn:Hany.
    - apply String.eqb_eq in Hany. subst stopsKey. cbn [truthy_str].
      symmetry. now apply filterByStops_other.
    - destruct stopsKey as [|d stopsKey']; [now elim Hstops|]. cbn [truthy_str].
      rewrite Hany. reflexivity. }
  assert (Hroute : route = paginate
            (filterFlightOffers Array_sort Date_getTime offers
               {| airlines := allow;
                  stops := if String.eqb stopsKey "any" then None else Some stopsKey;
                  sortBy := Some sortKey |}) page limit).
  { unfold route, GET_page. rewrite Hsame.
    destruct sortKey as [|c sortKey']; [now elim Hsort|].
    destruct stopsKey as [|d stopsKey']; [now elim Hstops|]. reflexivity. }
  unfold tool, tool_page. rewrite Hroute.
  destruct (filterFlightOffers Array_sort Date_getTime offers _) as [|o os].
  - unfold paginate, Array_slice. cbn [fst snd total List.length].
    rewrite skipn_nil, firstn_nil. repeat split. intros C. now elim C.
  - repeat split.
Qed.

End X_filters.

Section X_filters_examples.

Import Offers.
Local Open Scope list_scope.

Lemma X10_stop_buckets_exclusive_witness :
  itineraries (flown_by "d" [["BA"]]) <> []
  /\ In (flown_by "d" [["BA"]]) (filterByStops [flown_by "d" [["BA"]]] "nonstop")
  /\ ~ In (flown_by "d" [["BA"]]) (filterByStops [flown_by "d" [["BA"]]] "1-stop").
Proof.
  assert (Hne : itineraries (flown_by "d" [["BA"]]) <> []) by discriminate.
  assert (Hin : In (flown_by "d" [["BA"]]) (filterByStops [flown_by "d" [["BA"]]] "nonstop"))
    by (left; reflexivity).
  split; [exact Hne|]. split; [exact Hin|].
  exact (proj1 (proj1 (proj1 (X10_stop_buckets_exclusive
                                 [flown_by "d" [["BA"]]] (flown_by "d" [["BA"]])) Hne) Hin)).
Defined.

Lemma X11_airline_filter_witness :
  In (flown_by "x" [["ba"]; ["ek"; "BA"]])
     (apply_airlines {| airlines := Some ["Ek"%string]; stops := None; sortBy := None |}
                     [flown_by "x" [["ba"]; ["ek"; "BA"]]]).
Proof.
  apply (proj1 (X11_airline_filter [flown_by "x" [["ba"]; ["ek"; "BA"]]]
                  {| airlines := Some ["Ek"%string]; stops := None; sortBy := None |})
         ["Ek"%string] (flown_by "x" [["ba"]; ["ek"; "BA"]]) eq_refl ltac:(discriminate)).
  split; [now left|].
  exists {| duration := None; segments := [seg "ek"; seg "BA"] |}, (seg "ek"), "Ek"%string.
  repeat split; try reflexivity; cbn; auto.
Defined.

Lemma X12_tool_and_route_agree_witness :
  "cheapest"%string <> ""%string /\ "nonstop"%string <> ""%string
  /\ map offer_id
         (fst (tool_page insertion_sort (fun _ => NaN) showcase
                         (Some ["ba"%string]) "cheapest" "nonstop" 1 2))
     = ["c"; "a"]%string
  /\ total (snd (tool_page insertion_sort (fun _ => NaN) showcase
                           (Some ["ba"%string]) "cheapest" "nonstop" 1 2)) = 3
  /\ tool_page insertion_sort (fun _ => NaN) showcase
               (Some ["ba"%string]) "cheapest" "nonstop" 1 2
     = GET_page insertion_sort (fun _ => NaN) showcase (Some ["BA"%string])
                (Some "cheapest"%string) (Some "nonstop"%string) 1 2.
Proof.
  assert (H1 : "cheapest"%string <> ""%string) by discriminate.
  assert (H2 : "nonstop"%string <> ""%string) by discriminate.
  split; [exact H1|]. split; [exact H2|].
  split; [vm_compute; reflexivity|]. split; [vm_compute; reflexivity|].
  apply (proj2 (proj2 (X12_tool_and_route_agree insertion_sort (fun _ => NaN) showcase
                         (Some ["ba"%string]) "cheapest" "nonstop" 1 2 H1 H2))).
  vm_compute. discriminate.
Defined.

End X_filters_examples.

(* ================================================================== *)
(** * Further properties of the request builder and of the chat tool *)
(* ================================================================== *)

Section BuilderFacts2.

Import Builder.
Local Open Scope nat_scope.
Local Open Scope list_scope.

Lemma substring_length_le (n : nat) (s : string) :
  String.length (substring 0 n s) <= n.
Proof.
  revert s. induction n as [|n IH]; intros [|c s]; simpl; try lia.
  specialize (IH s). lia.
Qed.

Lemma normalized_entry (ident o d date : string) :
  normalized {| od_id := ident;
                originLocationCode := toUpperCase o;
                destinationLocationCode := toUpperCase d;
                departureDateTimeRange_date := slice0 10 date |}.
Proof.
  unfold normalized. cbn [originLocationCode destinationLocationCode
                          departureDateTimeRange_date].
  rewrite !toUpperCase_twice. split; [reflexivity|]. split; [reflexivity|].
  apply substring_length_le.
Qed.

Lemma segment_entry_normalized (s : TripSegment) (index : nat) (od : OriginDestination) :
  segment_entry s index = Ok od ->
  od_id od = String_ (index + 1) /\ normalized od.
Proof.
  unfold segment_entry.
  destruct (seg_origin s) as [o|]; [|discriminate].
  destruct (seg_destination s) as [d|]; [|discriminate].
  destruct (seg_departureDate s) as [date|]; [|discriminate].
  cbn [deref bind]. intros H. injection H as <-.
  split; [reflexivity | apply normalized_entry].
Qed.

Lemma map_from_ids (l : list TripSegment) :
  forall (index : nat) (ods : list OriginDestination),
    map_from segment_entry index l = Ok ods ->
    map od_id ods = map String_ (seq (S index) (List.length ods))
    /\ Forall normalized ods
    /\ List.length ods = List.length l.
Proof.
  induction l as [|s l IH]; intros index ods H; cbn [map_from] in H.
  - injection H as <-. repeat split. constructor.
  - destruct (segment_entry s index) as [od|] eqn:Hod; [|discriminate].
    cbn [bind] in H.
    destruct (map_from segment_entry (S index) l) as [rest|] eqn:Hrest; [|discriminate].
    cbn [bind] in H. injection H as <-.
    destruct (segment_entry_normalized s index od Hod) as [Hid Hnorm].
    destruct (IH (S index) rest Hrest) as [Hids [Hall Hlen]].
    cbn [map List.length seq]. rewrite Hid, Hids.
    split; [f_equal; f_equal; lia|]. split; [now constructor | now rewrite Hlen].
Qed.

Lemma currency_never_empty (c : option string) : currency_or_default c <> EmptyString.
Proof.
  unfold currency_or_default. destruct c as [[|a s]|]; discriminate.
Qed.

Lemma maxOffers_never_zero (m : option Z) : maxOffers_or_default m <> 0%Z.
Proof.
  unfold maxOffers_or_default. destruct m as [[|n|n]|]; discriminate.
Qed.

Lemma build_travelers_length (p : Passengers) :
  List.length (build_travelers p) = adults p + children p + infants p.
Proof.
  rewrite build_travelers_closed, !length_app, !length_map, !length_seq. lia.
Qed.

Lemma build_originDestinations_invariants (p : FlightSearchParams)
      (ods : list OriginDestination) :
  build_originDestinations p = Ok ods ->
  map od_id ods = map String_ (seq 1 (List.length ods))
  /\ Forall normalized ods
  /\ (tripType p <> multi_trip -> List.length ods <= 2).
Proof.
  unfold build_originDestinations.
  destruct (is_multi_trip (tripType p) && truthy_obj (segments p)) eqn:Hm.
  - apply andb_prop in Hm as [Hm _].
    destruct (segments p) as [segs|]; [|discriminate]. cbn [deref bind].
    intros H. apply map_from_ids in H as [Hids [Hall _]].
    split; [assumption|]. split; [assumption|].
    intros Hne. destruct (tripType p); try discriminate Hm. now elim Hne.
  - destruct (is_one_way (tripType p) && truthy_obj (origin p)
              && truthy_obj (destination p) && truthy_str (departureDate p)).
    + unfold one_way_entries.
      destruct (origin p); [|discriminate].
      destruct (destination p); [|discriminate].
      destruct (departureDate p); [|discriminate].
      cbn [deref bind]. intros H. injection H as <-.
      split; [reflexivity|]. split; [|cbn; lia].
      constructor; [apply normalized_entry | constructor].
    + destruct (is_return (tripType p) && truthy_obj (origin p)
                && truthy_obj (destination p) && truthy_str (departureDate p)
                && truthy_str (returnDate p)).
      * unfold return_entries.
        destruct (origin p); [|discriminate].
        destruct (destination p); [|discriminate].
        destruct (departureDate p); [|discriminate].
        destruct (returnDate p); [|discriminate].
        cbn [deref bind]. intros H. injection H as <-.
        split; [reflexivity|]. split; [|cbn; lia].
        constructor; [apply normalized_entry|].
        constructor; [apply normalized_entry | constructor].
      * intros H. injection H as <-. repeat split; [constructor | cbn; lia].
Qed.

End BuilderFacts2.

Section X_builder.

Import Builder.
Local Open Scope nat_scope.
Local Open Scope list_scope.

(** X13. Every request the builder returns, for any input, numbers its
    origin-destination entries "1", "2", ... without gaps, holds codes
    free of lower-case letters and dates of at most ten characters, has
    at most two entries unless the trip is a multi-trip, lists one
    traveler per passenger, and never carries an empty currency or a
    zero offer limit. *)
Theorem X13_request_invariants (p : FlightSearchParams) (r : FlightOffersSearchRequest) :
  buildFlightOffersSearchRequest p = Ok r ->
  map od_id (originDestinations r)
  = map String_ (seq 1 (List.length (originDestinations r)))
  /\ Forall normalized (originDestinations r)
  /\ (tripType p <> multi_trip -> List.length (originDestinations r) <= 2)
  /\ List.length (travelers r)
     = adults (passengers p) + children (passengers p) + infants (passengers p)
  /\ currencyCode r <> EmptyString
  /\ maxFlightOffers r <> 0%Z.
Proof.
  unfold buildFlightOffersSearchRequest.
  destruct (build_originDestinations p) as [ods|e] eqn:Hods; [|discriminate].
  cbn [bind]. intros H. injection H as <-.
  cbn [originDestinations travelers currencyCode maxFlightOffers].
  destruct (build_originDestinations_invariants p ods Hods) as [Hids [Hnorm Hlen]].
  repeat split; try assumption.
  - apply build_travelers_length.
  - apply currency_never_empty.
  - apply maxOffers_never_zero.
Qed.

Lemma X13_request_invariants_witness :
  exists r,
    buildFlightOffersSearchRequest (sample_trip return_ (Some "2025-03-17T10:00:00"%string)) = Ok r
    /\ map od_id (originDestinations r) = ["1"%string; "2"%string]
    /\ currencyCode r <> EmptyString.
Proof.
  eexists. split; [reflexivity|].
  pose proof (X13_request_invariants
                (sample_trip return_ (Some "2025-03-17T10:00:00"%string)) _ eq_refl)
    as [Hids [_ [_ [_ [Hcur _]]]]].
  split; [exact Hids | exact Hcur].
Defined.

End X_builder.

Section ToolFacts2.

Import Builder Assistant.
Local Open Scope nat_scope.
Local Open Scope list_scope.

Variable Date_isoDay : string -> option string.

Lemma usable_nonempty (d : option string) (x : string) :
  usable d = Some x -> d = Some x /\ x <> EmptyString /\ truthy_str (Some x) = true.
Proof.
  unfold usable. destruct (truthy_str d) eqn:Ht; [|discriminate].
  intros ->. repeat split; [|assumption]. intros ->. discriminate Ht.
Qed.

Lemma check_segments_checked (todo : list SegmentInput) :
  forall (acc ts : list TripSegment),
    check_segments Date_isoDay todo acc = inr ts ->
    Forall checked_segment acc ->
    Forall checked_segment ts
    /\ List.length ts = List.length acc + List.length todo.
Proof.
  induction todo as [|s todo IH]; intros acc ts H Hacc; cbn [check_segments] in H.
  - injection H as <-. split; [assumption | cbn; lia].
  - destruct (test_iata (si_origin s)) eqn:Ho; cbn [negb] in H; [|discriminate].
    destruct (test_iata (si_destination s)) eqn:Hd; cbn [negb] in H; [|discriminate].
    destruct (usable (parseDate Date_isoDay (si_departureDate s))) as [date|] eqn:Hu;
      [|discriminate].
    apply usable_nonempty in Hu as [_ [Hne _]].
    apply IH in H.
    + destruct H as [Hall Hlen]. split; [assumption|].
      rewrite Hlen, length_app. cbn [List.length]. lia.
    + apply Forall_app. split; [assumption|]. constructor; [|constructor].
      exists (si_origin s), (si_destination s), date. repeat split; assumption.
Qed.

Lemma checked_segment_complete (s : TripSegment) :
  checked_segment s -> segment_complete s = true.
Proof.
  intros [o [d [date [-> [_ [_ Hne]]]]]]. unfold segment_complete. cbn.
  destruct date; [now elim Hne | reflexivity].
Qed.

Lemma slice0_nonempty (date : string) :
  date <> EmptyString -> slice0 10 date <> EmptyString.
Proof.
  destruct date; [intros H; now elim H | discriminate].
Qed.

Lemma tested_code_valid (code : string) :
  test_iata code = true -> valid_iata (toUpperCase (toUpperCase code)) = true.
Proof.
  intros H. rewrite toUpperCase_twice. exact H.
Qed.

Lemma checked_entry_well_formed (s : TripSegment) (index : nat) (od : OriginDestination) :
  checked_segment s -> from_segment s index od -> well_formed od.
Proof.
  intros [o [d [date [-> [Ho [Hd Hne]]]]]] [o' [d' [date' [Ho' [Hd' [Hdate' [_ ->]]]]]]].
  cbn in Ho', Hd', Hdate'. injection Ho' as <-. injection Hd' as <-. injection Hdate' as <-.
  unfold well_formed, entry_of. cbn.
  repeat split; [now apply tested_code_valid | now apply tested_code_valid |].
  now apply slice0_nonempty.
Qed.

Lemma checked_segments_build (ts : list TripSegment) :
  Forall checked_segment ts ->
  exists ods,
    map_from segment_entry 0 (filter segment_complete ts) = Ok ods
    /\ List.length ods = List.length ts
    /\ Forall well_formed ods.
Proof.
  intros Hall.
  assert (Hkeep : filter segment_complete ts = ts).
  { apply filter_every. intros s Hs. rewrite Forall_forall in Hall.
    now apply checked_segment_complete, Hall. }
  rewrite Hkeep.
  destruct (map_from_complete ts 0) as [ods [Hods [Hlen Hnth]]].
  { rewrite Forall_forall in *. intros s Hs. now apply checked_segment_complete, Hall. }
  exists ods. split; [assumption|]. split; [assumption|].
  apply Forall_forall. intros od Hod.
  apply In_nth_error in Hod as [j Hj].
  destruct (Hnth j od Hj) as [s [Hs Hfrom]].
  apply nth_error_In in Hs. rewrite Forall_forall in Hall.
  exact (checked_entry_well_formed s _ od (Hall s Hs) Hfrom).
Qed.

End ToolFacts2.

Section X_tool.

Import Builder Assistant.
Local Open Scope nat_scope.
Local Open Scope list_scope.

Variable Date_isoDay : string -> option string.

(** X14. An input that passes the tool's checks always meets the
    builder's preconditions: the request built from it has exactly one
    entry for a one-way trip, two for a return trip and one per segment
    for a multi-trip (none is dropped, and there is at least one), and in
    every entry both codes are three upper-case letters and the date is
    not empty. *)
Theorem X14_checked_input_builds (params : SearchInput) (sp : FlightSearchParams) :
  prepare Date_isoDay params = inr sp ->
  exists r,
    buildFlightOffersSearchRequest sp = Ok r
    /\ Forall well_formed (originDestinations r)
    /\ match in_tripType params with
       | one_way => List.length (originDestinations r) = 1
       | return_ => List.length (originDestinations r) = 2
       | multi_trip =>
           exists segs, in_segments params = Some segs /\ segs <> []
                        /\ List.length (originDestinations r) = List.length segs
       end.
Proof.
  unfold prepare.
  destruct (is_multi_trip (in_tripType params)) eqn:Hmulti.
  - destruct (in_tripType params) eqn:Htype; try discriminate Hmulti.
    destruct (in_segments params) as [[|s segs]|] eqn:Hsegs; try discriminate.
    destruct (check_segments Date_isoDay (s :: segs) []) as [e|ts] eqn:Hcheck; [discriminate|].
    intros H. injection H as <-.
    destruct (check_segments_checked Date_isoDay _ _ _ Hcheck (Forall_nil _)) as [Hall Hlen].
    destruct (checked_segments_build ts Hall) as [ods [Hods [Hlen' Hwf]]].
    unfold buildFlightOffersSearchRequest, build_originDestinations.
    cbn [tripType segments is_multi_trip truthy_obj andb deref bind].
    rewrite Hods. cbn [bind]. eexists. split; [reflexivity|].
    cbn [originDestinations]. split; [assumption|].
    exists (s :: segs). split; [reflexivity|]. split; [discriminate|].
    rewrite Hlen', Hlen. reflexivity.
  - destruct (in_origin params) as [o|]; [|discriminate].
    destruct (in_destination params) as [d|]; [|discriminate].
    destruct (in_departureDate params) as [date|]; [|discriminate].
    destruct (negb _); [discriminate|].
    destruct (test_iata o) eqn:Ho; cbn [negb]; [|discriminate].
    destruct (test_iata d) eqn:Hd; cbn [negb]; [|discriminate].
    destruct (usable (parseDate Date_isoDay date)) as [dep|] eqn:Hdep; [|discriminate].
    apply usable_nonempty in Hdep as [_ [Hdne Hdt]].
    unfold check_return.
    destruct (in_tripType params) eqn:Htype; try discriminate Hmulti; cbn [is_return].
    + intros H. injection H as <-.
      unfold buildFlightOffersSearchRequest, build_originDestinations, one_way_entries.
      cbn [tripType origin destination departureDate is_multi_trip is_one_way
           truthy_obj andb]. rewrite Hdt. cbn [deref bind].
      eexists. split; [reflexivity|]. cbn [originDestinations].
      split; [|reflexivity].
      constructor; [|constructor]. unfold well_formed. cbn.
      repeat split; [now apply tested_code_valid | now apply tested_code_valid |].
      now apply slice0_nonempty.
    + destruct (truthy_str (in_returnDate params)); [|discriminate].
      destruct (in_returnDate params) as [text|]; [|discriminate].
      destruct (usable (parseDate Date_isoDay text)) as [back|] eqn:Hback; [|discriminate].
      apply usable_nonempty in Hback as [_ [Hbne Hbt]].
      intros H. injection H as <-.
      unfold buildFlightOffersSearchRequest, build_originDestinations, return_entries.
      cbn [tripType origin destination departureDate returnDate is_multi_trip
           is_one_way is_return truthy_obj andb]. rewrite Hdt, Hbt. cbn [deref bind].
      eexists. split; [reflexivity|]. cbn [originDestinations].
      split; [|reflexivity].
      constructor; [|constructor; [|constructor]]; unfold well_formed; cbn;
        (repeat split; [now apply tested_code_valid | now apply tested_code_valid |]);
        now apply slice0_nonempty.
Qed.

End X_tool.

Lemma X14_checked_input_builds_witness :
  exists r,
    Builder.buildFlightOffersSearchRequest
      (match Assistant.prepare every_day three_legs with
       | inr sp => sp
       | inl _ => sample_trip Builder.one_way None
       end) = JS.Ok r
    /\ List.length (Builder.originDestinations r) = 3%nat.
Proof.
  destruct (X14_checked_input_builds every_day three_legs _ eq_refl)
    as [r [Hr [_ [segs [Hsegs [_ Hlen]]]]]].
  exists r. split; [exact Hr|].
  injection Hsegs as <-. exact Hlen.
Defined.

(* ================================================================== *)
(** * Properties of the presentation helpers *)
(* ================================================================== *)

Section PresenterFacts.

Import Presenter.
Local Open Scope list_scope.

Lemma last_ascii_append (s t : string) :
  t <> EmptyString -> last_ascii (s ++ t) = last_ascii t.
Proof.
  intros Ht. induction s as [|c s IH]; [reflexivity|].
  cbn [String.append last_ascii]. rewrite IH.
  destruct (s ++ t)%string eqn:E; [|reflexivity].
  destruct s; cbn in E; [now elim Ht | discriminate].
Qed.

Lemma append_unit_nonempty (s : string) (c : ascii) (r : string) :
  (s ++ String c r)%string <> EmptyString.
Proof.
  destruct s; discriminate.
Qed.

Lemma ends_with_unit (prefix : string) (unit : ascii) :
  last_ascii (prefix ++ String unit EmptyString) = Some unit.
Proof.
  rewrite last_ascii_append; [reflexivity | discriminate].
Qed.

Lemma count_types_from (l : list TravelerPricing) :
  forall (counts : string -> nat) (key : string),
    fold_left (fun c p => bump c (travelerType p)) l counts key
    = (counts key + priced_as key l)%nat.
Proof.
  unfold priced_as.
  induction l as [|p l IH]; intros counts key; cbn [fold_left map count_occ]; [lia|].
  rewrite IH. unfold bump.
  destruct (string_dec (travelerType p) key) as [->|Hne].
  - rewrite String.eqb_refl. lia.
  - assert (H : String.eqb key (travelerType p) = false)
      by (apply String.eqb_neq; congruence).
    rewrite H. lia.
Qed.

Lemma getPassengerSummary_counts (l : list TravelerPricing) :
  getPassengerSummary (Some l)
  = summary_of (priced_as "ADULT" l) (priced_as "CHILD" l) (priced_as "HELD_INFANT" l).
Proof.
  unfold getPassengerSummary, summary_of, count_types.
  now rewrite !count_types_from.
Qed.

End PresenterFacts.

Section X_presenter.

Import Presenter.

(** X15. The presenter prints "N/A" for the duration of an itinerary
    exactly when that itinerary counts for zero minutes in the "fastest"
    sort: when the token does not match, or when the hours and the minutes
    it holds are both zero. *)
Theorem X15_duration_label_matches_key (itinerary : Offers.Itinerary) :
  formatDuration (Offers.duration_text itinerary) = "N/A"
  <-> itinerary_minutes itinerary = 0.
Proof.
  unfold formatDuration, itinerary_minutes.
  destruct (Offers.match_duration (Offers.duration_text itinerary))
    as [[hours minutes]|] eqn:Hm; [|split; reflexivity].
  apply match_duration_nonneg in Hm as [Hh Hmin].
  destruct (Z.eqb_spec hours 0) as [->|Hh0]; destruct (Z.eqb_spec minutes 0) as [->|Hm0];
    cbn [negb andb].
  - split; reflexivity.
  - split; [|lia]. intros H. apply (f_equal last_ascii) in H.
    rewrite ends_with_unit in H. discriminate H.
  - split; [|lia]. intros H. apply (f_equal last_ascii) in H.
    rewrite ends_with_unit in H. discriminate H.
  - split; [|lia]. intros H. apply (f_equal last_ascii) in H.
    rewrite (last_ascii_append (String_Z hours)) in H by discriminate.
    rewrite (last_ascii_append "h ") in H by apply append_unit_nonempty.
    rewrite ends_with_unit in H. discriminate H.
Qed.

Variable Date_ms : string -> option Z.

(** X16. For two readable instants, the layover text shows the whole
    minutes elapsed: below one hour as minutes alone, otherwise as hours
    and, unless they are zero, minutes below 60, with
    [hours * 60 + minutes] equal to the minutes elapsed.  A departure
    before the arrival is printed as a negative number of minutes, and an
    unreadable instant as "NaNh NaNm". *)
Theorem X16_layover_text (arrivalTime departureTime : string) :
  (forall arrival departure,
      Date_ms arrivalTime = Some arrival -> Date_ms departureTime = Some departure ->
      let elapsed := (departure - arrival) / 60000 in
      (elapsed < 60 ->
       calculateLayoverDuration Date_ms arrivalTime departureTime
       = String_Z elapsed ++ "m")
      /\ (60 <= elapsed ->
          exists hours minutes,
            elapsed = hours * 60 + minutes /\ 1 <= hours /\ 0 <= minutes < 60
            /\ calculateLayoverDuration Date_ms arrivalTime departureTime
               = if minutes =? 0 then String_Z hours ++ "h"
                 else String_Z hours ++ "h " ++ String_Z minutes ++ "m")
      /\ (departure < arrival ->
          exists digits,
            calculateLayoverDuration Date_ms arrivalTime departureTime
            = "-" ++ digits ++ "m"))
  /\ (Date_ms arrivalTime = None \/ Date_ms departureTime = None ->
      calculateLayoverDuration Date_ms arrivalTime departureTime = "NaNh NaNm").
Proof.
  split.
  - intros arrival departure Ha Hd elapsed. unfold calculateLayoverDuration.
    rewrite Ha, Hd. fold elapsed.
    split; [|split].
    + intros Hlt. destruct (Z.ltb_spec elapsed 60); [reflexivity | lia].
    + intros Hge. destruct (Z.ltb_spec elapsed 60); [lia|].
      exists (elapsed / 60), (Z.rem elapsed 60).
      rewrite Z.rem_mod_nonneg by lia.
      pose proof (Z.div_mod elapsed 60 ltac:(lia)).
      pose proof (Z.mod_pos_bound elapsed 60 ltac:(lia)).
      assert (1 <= elapsed / 60) by (apply Z.div_le_lower_bound; lia).
      repeat split; try lia.
    + intros Hneg.
      assert (Hlt : elapsed < 0).
      { unfold elapsed. apply Z.div_lt_upper_bound; lia. }
      destruct (Z.ltb_spec elapsed 60); [|lia].
      unfold String_Z. destruct (Z.ltb_spec elapsed 0); [|lia].
      eexists. reflexivity.
  - intros [H | H]; unfold calculateLayoverDuration; rewrite H;
      [reflexivity | now destruct (Date_ms arrivalTime)].
Qed.

(** X17. The passenger summary depends only on how many ADULT, CHILD and
    HELD_INFANT pricings there are: it is the same for any reordering of
    the pricings, a pricing of any other type (such as SEATED_INFANT) does
    not change it, and without pricings it is empty. *)
Theorem X17_summary_counts_only (l : list TravelerPricing) :
  getPassengerSummary (Some l)
  = summary_of (priced_as "ADULT" l) (priced_as "CHILD" l) (priced_as "HELD_INFANT" l)
  /\ (forall l', Permutation l l' ->
        getPassengerSummary (Some l') = getPassengerSummary (Some l))
  /\ (forall p,
        travelerType p <> "ADULT"%string -> travelerType p <> "CHILD"%string ->
        travelerType p <> "HELD_INFANT"%string ->
        getPassengerSummary (Some (p :: l)) = getPassengerSummary (Some l))
  /\ (l = [] -> getPassengerSummary (Some l) = ""%string)
  /\ getPassengerSummary None = ""%string.
Proof.
  split; [apply getPassengerSummary_counts|]. split; [|split; [|split]].
  - intros l' Hperm. rewrite !getPassengerSummary_counts. unfold priced_as.
    assert (Hc : forall key, count_occ string_dec (map travelerType l') key
                             = count_occ string_dec (map travelerType l) key).
    { intros key. apply Permutation_count_occ. apply Permutation_map.
      now apply Permutation_sym. }
    now rewrite !Hc.
  - intros p Ha Hc Hi. rewrite !getPassengerSummary_counts. unfold priced_as.
    cbn [map count_occ].
    destruct (string_dec (travelerType p) "ADULT"); [contradiction|].
    destruct (string_dec (travelerType p) "CHILD"); [contradiction|].
    destruct (string_dec (travelerType p) "HELD_INFANT"); [contradiction|].
    reflexivity.
  - intros ->. reflexivity.
  - reflexivity.
Qed.

End X_presenter.

Section X_presenter_examples.

Import Presenter.

Lemma X16_layover_text_witness :
  60 <= (8101000 - 1000) / 60000
  /\ exists hours minutes,
       (8101000 - 1000) / 60000 = hours * 60 + minutes
       /\ 1 <= hours /\ 0 <= minutes < 60
       /\ calculateLayoverDuration digits_clock "1000" "8101000"
          = if minutes =? 0 then String_Z hours ++ "h"
            else String_Z hours ++ "h " ++ String_Z minutes ++ "m".
Proof.
  assert (H : 60 <= (8101000 - 1000) / 60000) by (cbv; discriminate).
  split; [exact H|].
  exact (proj1 (proj2 (proj1 (X16_layover_text digits_clock "1000" "8101000")
                         1000 8101000 eq_refl eq_refl)) H).
Defined.

Lemma X17_summary_counts_only_witness :
  getPassengerSummary
    (Some [pricing "HELD_INFANT"; pricing "ADULT"; pricing "SEATED_INFANT"; pricing "ADULT"])
  = "2 Adults, 1 Infant"%string.
Proof.
  rewrite (proj1 (proj2 (X17_summary_counts_only
            [pricing "ADULT"; pricing "ADULT"; pricing "HELD_INFANT"; pricing "SEATED_INFANT"]))
            [pricing "HELD_INFANT"; pricing "ADULT"; pricing "SEATED_INFANT"; pricing "ADULT"]).
  - reflexivity.
  - apply Permutation_sym.
    apply perm_trans with
      ([pricing "ADULT"; pricing "HELD_INFANT"; pricing "SEATED_INFANT"; pricing "ADULT"]).
    + apply perm_swap.
    + apply perm_skip.
      apply perm_trans with ([pricing "HELD_INFANT"; pricing "ADULT"; pricing "SEATED_INFANT"]).
      * apply perm_skip. apply perm_swap.
      * apply perm_swap.
Defined.

End X_presenter_examples.

(* ================================================================== *)
(** * Properties of the result cache *)
(* ================================================================== *)

Section StoreFacts.

Import Cache.
Local Open Scope list_scope.

Lemma append_inj_r (p a b : string) : (p ++ a)%string = (p ++ b)%string -> a = b.
Proof.
  induction p as [|c p IH]; cbn [String.append]; [auto|].
  intros H. injection H as H. now apply IH.
Qed.

Lemma redis_get_set_same (store : Redis) (key value : string) (ttl at_ms now : Z) :
  redis_get (redis_set store key value ttl at_ms) key now
  = if now <? at_ms + ttl * 1000 then Some value else None.
Proof.
  unfold redis_get, redis_set. cbn [find fst]. now rewrite String.eqb_refl.
Qed.

Lemma redis_get_set_other (store : Redis) (key other value : string) (ttl at_ms now : Z) :
  other <> key ->
  redis_get (redis_set store key value ttl at_ms) other now = redis_get store other now.
Proof.
  intros Hne. unfold redis_get, redis_set. cbn [find fst].
  assert (H : String.eqb key other = false) by (apply String.eqb_neq; congruence).
  now rewrite H.
Qed.

Lemma chat_key_not_flight_key (a b : string) :
  RedisLib.getChatKey a <> ("ngabroad:flight-offers:" ++ b)%string.
Proof.
  unfold RedisLib.getChatKey, RedisLib.CHAT_PREFIX. cbn [String.append]. discriminate.
Qed.

Lemma isCacheExpired_threshold (Date_ms : string -> option Z) (now created : Z)
      (createdAt : string) :
  Date_ms createdAt = Some created ->
  (isCacheExpired Date_ms now createdAt = true <-> created + 1800000 <= now).
Proof.
  intros Hc. unfold isCacheExpired. rewrite Hc.
  change (1000 * 60) with 60000. rewrite Z.geb_le.
  split; intros H.
  - assert (30 * 60000 <= now - created); [|lia].
    pose proof (Z.mul_div_le (now - created) 60000 ltac:(lia)). lia.
  - apply Z.div_le_lower_bound; lia.
Qed.

Section WithJson.

Variable Payload : Type.
Variable JSON_parse_payload : string -> option Payload.
Variable JSON_stringify_payload : Payload -> string.
Variable JSON_parse_envelope : string -> option Envelope.
Variable JSON_stringify_envelope : Envelope -> string.
Variable toISOString : Z -> string.


(** What a search that reaches the store returns and writes. *)
Lemma search_reaching_store (world : SearchWorld) (store : Redis) (jar : Jar)
      (request : Builder.FlightOffersSearchRequest) (flightData : Payload) :
  reaches_store JSON_parse_payload world flightData ->
  searchFlightOffers Payload JSON_parse_payload JSON_stringify_payload JSON_stringify_envelope toISOString world store jar request
  = ({| success := true; found := Some flightData; error := None;
        cacheKey := Some (uuid world) |},
     redis_set store ("ngabroad:flight-offers:" ++ uuid world)
       (JSON_stringify_envelope
          (envelope_of JSON_stringify_payload toISOString world request flightData))
       1800 (set_at world),
     setCacheKeyCookie (cookies_up world) jar (uuid world) (cookie_at world)).
Proof.
  intros [resp [Hf [Hok [Hparse Hup]]]].
  unfold searchFlightOffers. rewrite Hf, Hok, Hparse, Hup. reflexivity.
Qed.

(** Whatever happens, a search leaves the store as it was or adds one
    entry under the key of its own identifier. *)
Lemma search_store_effect (world : SearchWorld) (store : Redis) (jar : Jar)
      (request : Builder.FlightOffersSearchRequest) :
  snd (fst (searchFlightOffers Payload JSON_parse_payload JSON_stringify_payload JSON_stringify_envelope toISOString world store jar request)) = store
  \/ exists value,
       snd (fst (searchFlightOffers Payload JSON_parse_payload JSON_stringify_payload JSON_stringify_envelope toISOString world store jar request))
       = redis_set store ("ngabroad:flight-offers:" ++ uuid world) value 1800 (set_at world).
Proof.
  unfold searchFlightOffers.
  destruct (fetched world) as [resp|e]; [|now left].
  destruct (Fetch.ok resp); cbn [negb]; [|now left].
  destruct (JSON_parse_payload (Fetch.payload resp)); [|now left].
  destruct (redis_up world); [|now left].
  right. eexists. reflexivity.
Qed.

End WithJson.

End StoreFacts.

Section X_cache.

Import Cache.
Local Open Scope list_scope.

Variable Payload : Type.
Variable JSON_parse_payload : string -> option Payload.
Variable JSON_stringify_payload : Payload -> string.
Variable JSON_parse_envelope : string -> option Envelope.
Variable JSON_stringify_envelope : Envelope -> string.
Variable toISOString : Z -> string.
Variable Date_ms : string -> option Z.


(** X18. A search that reaches the store returns the payload with a
    handle; presenting that handle within 30 minutes of the write returns
    the same payload, with the creation time, the expiry time, a TTL of
    1800 seconds and the original request, provided JSON reading undoes
    JSON writing on this payload and this envelope.  The handle is also
    left in the caller's cookie for 30 minutes. *)
Theorem X18_store_then_fetch (world : SearchWorld) (store : Redis) (jar : Jar)
        (request : Builder.FlightOffersSearchRequest) (flightData : Payload) (now : Z) :
  reaches_store JSON_parse_payload world flightData ->
  JSON_parse_envelope (JSON_stringify_envelope (envelope_of JSON_stringify_payload toISOString world request flightData))
  = Some (envelope_of JSON_stringify_payload toISOString world request flightData) ->
  JSON_stringify_envelope (envelope_of JSON_stringify_payload toISOString world request flightData) <> EmptyString ->
  JSON_parse_payload (JSON_stringify_payload flightData) = Some flightData ->
  now < set_at world + 1800000 ->
  let after := searchFlightOffers Payload JSON_parse_payload JSON_stringify_payload JSON_stringify_envelope toISOString world store jar request in
  fst (fst after)
  = {| success := true; found := Some flightData; error := None;
       cacheKey := Some (uuid world) |}
  /\ getCachedFlightOffers Payload JSON_parse_payload JSON_parse_envelope true (snd (fst after)) now (uuid world)
     = {| c_success := true;
          c_data := Some flightData;
          c_metadata :=
            Some {| md_createdAt := toISOString (created_at world);
                    md_expiresAt := toISOString (expiry_base world + 1800000);
                    md_ttlSeconds := 1800;
                    md_searchRequest := Some request |};
          c_error := None |}
  /\ (cookies_up world = true -> uuid world <> EmptyString ->
      now < cookie_at world + 1800000 ->
      getCacheKeyCookie true (snd after) now = Some (uuid world)).
Proof.
  intros Hreach Henv Hne Hpay Hnow after.
  unfold after. rewrite (search_reaching_store _ _ _ _ _ _ _ _ _ _ Hreach).
  cbn [fst snd]. split; [reflexivity|]. split.
  - unfold getCachedFlightOffers. rewrite redis_get_set_same.
    assert (Hlive : (now <? set_at world + 1800 * 1000) = true) by (apply Z.ltb_lt; lia).
    rewrite Hlive.
    destruct (JSON_stringify_envelope (envelope_of JSON_stringify_payload toISOString world request flightData)) as [|c text] eqn:Htext;
      [now elim Hne|].
    rewrite Henv. cbn [data envelope_of]. rewrite Hpay. reflexivity.
  - intros Hup Hid Hcookie. rewrite Hup.
    unfold getCacheKeyCookie, setCacheKeyCookie, cookie_get, cookie_set.
    cbn [find fst]. rewrite String.eqb_refl.
    assert (Hlive : (now <? cookie_at world + 30 * 60 * 1000) = true)
      by (apply Z.ltb_lt; lia).
    rewrite Hlive. destruct (uuid world); [now elim Hid | reflexivity].
Qed.

(** X19. From 30 minutes after the write on, the handle of a stored
    search is answered with "not found or expired", the very answer given
    for a handle that was never issued: the two cases cannot be told
    apart. *)
Theorem X19_expired_like_unknown (world : SearchWorld) (store : Redis) (jar : Jar)
        (request : Builder.FlightOffersSearchRequest) (flightData : Payload) (now : Z) :
  reaches_store JSON_parse_payload world flightData ->
  set_at world + 1800000 <= now ->
  getCachedFlightOffers Payload JSON_parse_payload JSON_parse_envelope true (snd (fst (searchFlightOffers Payload JSON_parse_payload JSON_stringify_payload JSON_stringify_envelope toISOString world store jar request))) now (uuid world)
  = cached_failed Payload "Cached flight offers not found or expired"
  /\ forall handle, getCachedFlightOffers Payload JSON_parse_payload JSON_parse_envelope true [] now handle
                    = cached_failed Payload "Cached flight offers not found or expired".
Proof.
  intros Hreach Hlate. split; [|reflexivity].
  rewrite (search_reaching_store _ _ _ _ _ _ _ _ _ _ Hreach). cbn [fst snd].
  unfold getCachedFlightOffers. rewrite redis_get_set_same.
  assert (Hdead : (now <? set_at world + 1800 * 1000) = false) by (apply Z.ltb_ge; lia).
  now rewrite Hdead.
Qed.

(** X20. A search never disturbs a handle issued earlier under another
    identifier, whether it succeeds or fails, and never touches a chat
    key; a search that fails before the store write leaves the store and
    the cookies exactly as they were. *)
Theorem X20_handles_independent (world : SearchWorld) (store : Redis) (jar : Jar)
        (request : Builder.FlightOffersSearchRequest) (now : Z) :
  (forall earlier,
      earlier <> uuid world ->
      getCachedFlightOffers Payload JSON_parse_payload JSON_parse_envelope true (snd (fst (searchFlightOffers Payload JSON_parse_payload JSON_stringify_payload JSON_stringify_envelope toISOString world store jar request))) now earlier
      = getCachedFlightOffers Payload JSON_parse_payload JSON_parse_envelope true store now earlier)
  /\ (forall id,
      redis_get (snd (fst (searchFlightOffers Payload JSON_parse_payload JSON_stringify_payload JSON_stringify_envelope toISOString world store jar request))) (RedisLib.getChatKey id) now
      = redis_get store (RedisLib.getChatKey id) now)
  /\ (success Payload (fst (fst (searchFlightOffers Payload JSON_parse_payload JSON_stringify_payload JSON_stringify_envelope toISOString world store jar request))) = false ->
      snd (fst (searchFlightOffers Payload JSON_parse_payload JSON_stringify_payload JSON_stringify_envelope toISOString world store jar request)) = store
      /\ snd (searchFlightOffers Payload JSON_parse_payload JSON_stringify_payload JSON_stringify_envelope toISOString world store jar request) = jar).
Proof.
  split; [|split].
  - intros earlier Hne. unfold getCachedFlightOffers.
    destruct (search_store_effect Payload JSON_parse_payload JSON_stringify_payload
                JSON_stringify_envelope toISOString world store jar request)
      as [-> | [value ->]]; [reflexivity|].
    rewrite redis_get_set_other; [reflexivity|].
    intros H. apply append_inj_r in H. contradiction.
  - intros id.
    destruct (search_store_effect Payload JSON_parse_payload JSON_stringify_payload
                JSON_stringify_envelope toISOString world store jar request)
      as [-> | [value ->]]; [reflexivity|].
    apply redis_get_set_other. apply chat_key_not_flight_key.
  - unfold searchFlightOffers.
    destruct (fetched world) as [resp|e]; [|split; reflexivity].
    destruct (Fetch.ok resp); cbn [negb]; [|split; reflexivity].
    destruct (JSON_parse_payload (Fetch.payload resp)); [|split; reflexivity].
    destruct (redis_up world); cbn; [discriminate|discriminate].
Qed.

(** X21. The staleness test fires exactly when 30 minutes (1 800 000 ms)
    or more have passed since the creation time, and never for a creation
    time that cannot be read. *)
Theorem X21_stale_threshold (now : Z) (createdAt : string) :
  (forall created, Date_ms createdAt = Some created ->
     (isCacheExpired Date_ms now createdAt = true <-> created + 1800000 <= now))
  /\ (Date_ms createdAt = None -> isCacheExpired Date_ms now createdAt = false).
Proof.
  split.
  - intros created Hc. now apply isCacheExpired_threshold.
  - intros Hc. unfold isCacheExpired. now rewrite Hc.
Qed.

(** X22. For an entry written by a search (creation time read before the
    write, and readable back from its text), an entry the store has
    dropped is always stale, so an entry that is not stale can still be
    fetched; but when the write came later than the creation time, there
    are instants at which the entry is stale and still in the store. *)
Theorem X22_stale_before_dropped (world : SearchWorld) (store : Redis) (jar : Jar)
        (request : Builder.FlightOffersSearchRequest) (flightData : Payload) (now : Z) :
  reaches_store JSON_parse_payload world flightData ->
  Date_ms (toISOString (created_at world)) = Some (created_at world) ->
  created_at world <= set_at world ->
  let store' := snd (fst (searchFlightOffers Payload JSON_parse_payload JSON_stringify_payload JSON_stringify_envelope toISOString world store jar request)) in
  let key := ("ngabroad:flight-offers:" ++ uuid world)%string in
  let stamp := createdAt (envelope_of JSON_stringify_payload toISOString world request flightData) in
  (redis_get store' key now = None -> isCacheExpired Date_ms now stamp = true)
  /\ (isCacheExpired Date_ms now stamp = false -> redis_get store' key now <> None)
  /\ (created_at world < set_at world ->
      isCacheExpired Date_ms (created_at world + 1800000) stamp = true
      /\ redis_get store' key (created_at world + 1800000) <> None).
Proof.
  intros Hreach Hread Horder store' key stamp.
  unfold store'. rewrite (search_reaching_store _ _ _ _ _ _ _ _ _ _ Hreach).
  cbn [fst snd]. unfold key. 
  assert (Hstale : forall t, isCacheExpired Date_ms t stamp = true
                             <-> created_at world + 1800000 <= t).
  { intros t. apply isCacheExpired_threshold. exact Hread. }
  split; [|split].
  - rewrite redis_get_set_same. destruct (Z.ltb_spec now (set_at world + 1800 * 1000));
      [discriminate|]. intros _. apply Hstale. lia.
  - intros Hfresh. rewrite redis_get_set_same.
    destruct (Z.ltb_spec now (set_at world + 1800 * 1000)); [discriminate|].
    assert (isCacheExpired Date_ms now stamp = true) by (apply Hstale; lia). congruence.
  - intros Hlater. split; [apply Hstale; lia|].
    rewrite redis_get_set_same.
    destruct (Z.ltb_spec (created_at world + 1800000) (set_at world + 1800 * 1000));
      [discriminate | lia].
Qed.

(** X23. The relative time of a readable instant is "just now" below one
    minute (also for an instant in the future), whole minutes from 1 to
    59 below one hour, whole hours from 1 to 23 below one day, and whole
    days from 1 on afterwards, each the elapsed time divided by the unit
    and rounded down, with the plural "s" unless the number is 1; an
    unreadable instant is printed as "NaN days ago". *)
Theorem X23_relative_time_bands (now : Z) (dateString : string) :
  (forall past, Date_ms dateString = Some past ->
     let elapsed := now - past in
     let text := getRelativeTime Date_ms now dateString in
     (elapsed < 60000 -> text = "just now"%string)
     /\ (60000 <= elapsed < 3600000 ->
         exists n, n = elapsed / 60000 /\ 1 <= n <= 59
                   /\ text = (Presenter.String_Z n ++ " minute"
                                ++ (if (n =? 1)%Z then "" else "s") ++ " ago")%string)
     /\ (3600000 <= elapsed < 86400000 ->
         exists n, n = elapsed / 3600000 /\ 1 <= n <= 23
                   /\ text = (Presenter.String_Z n ++ " hour"
                                ++ (if (n =? 1)%Z then "" else "s") ++ " ago")%string)
     /\ (86400000 <= elapsed ->
         exists n, n = elapsed / 86400000 /\ 1 <= n
                   /\ text = (Presenter.String_Z n ++ " day"
                                ++ (if (n =? 1)%Z then "" else "s") ++ " ago")%string))
  /\ (Date_ms dateString = None ->
      getRelativeTime Date_ms now dateString = "NaN days ago"%string).
Proof.
  split; [|intros H; unfold getRelativeTime; now rewrite H].
  intros past Hpast elapsed text. unfold text, getRelativeTime. rewrite Hpast.
  fold elapsed. change (1000 * 60) with 60000.
  assert (Hh : elapsed / 60000 / 60 = elapsed / 3600000)
    by (rewrite Z.div_div by lia; reflexivity).
  assert (Hd : elapsed / 60000 / 60 / 24 = elapsed / 86400000)
    by (rewrite !Z.div_div by lia; reflexivity).
  rewrite Hd, Hh.
  split; [|split; [|split]].
  - intros Hlt.
    assert (elapsed / 60000 < 1) by (apply Z.div_lt_upper_bound; lia).
    destruct (Z.ltb_spec (elapsed / 60000) 1); [reflexivity | lia].
  - intros [Hlo Hhi].
    assert (1 <= elapsed / 60000) by (apply Z.div_le_lower_bound; lia).
    assert (elapsed / 60000 < 60) by (apply Z.div_lt_upper_bound; lia).
    destruct (Z.ltb_spec (elapsed / 60000) 1); [lia|].
    destruct (Z.ltb_spec (elapsed / 60000) 60); [|lia].
    eexists. split; [reflexivity|]. split; [lia | reflexivity].
  - intros [Hlo Hhi].
    assert (60 <= elapsed / 60000) by (apply Z.div_le_lower_bound; lia).
    assert (1 <= elapsed / 3600000) by (apply Z.div_le_lower_bound; lia).
    assert (elapsed / 3600000 < 24) by (apply Z.div_lt_upper_bound; lia).
    destruct (Z.ltb_spec (elapsed / 60000) 1); [lia|].
    destruct (Z.ltb_spec (elapsed / 60000) 60); [lia|].
    destruct (Z.ltb_spec (elapsed / 3600000) 24); [|lia].
    eexists. split; [reflexivity|]. split; [lia | reflexivity].
  - intros Hlo.
    assert (60 <= elapsed / 60000) by (apply Z.div_le_lower_bound; lia).
    assert (24 <= elapsed / 3600000) by (apply Z.div_le_lower_bound; lia).
    assert (1 <= elapsed / 86400000) by (apply Z.div_le_lower_bound; lia).
    destruct (Z.ltb_spec (elapsed / 60000) 1); [lia|].
    destruct (Z.ltb_spec (elapsed / 60000) 60); [lia|].
    destruct (Z.ltb_spec (elapsed / 3600000) 24); [lia|].
    eexists. split; [reflexivity|]. split; [lia | reflexivity].
Qed.

End X_cache.

Section X_cache_examples.

Import Cache.
Local Open Scope list_scope.

Lemma sample_reaches_store :
  reaches_store (fun text => Some text) (answered "{}" "id-1" 1000) "{}"%string.
Proof.
  eexists. repeat split; reflexivity.
Qed.

Lemma X18_store_then_fetch_witness :
  c_data string
    (getCachedFlightOffers string (fun text => Some text)
       (reads_only (envelope_of (fun p => p) Presenter.String_Z
                                (answered "{}" "id-1" 1000) empty_request "{}"%string))
       true
       (snd (fst (searchFlightOffers string (fun text => Some text) (fun p => p)
                    writes_envelope Presenter.String_Z
                    (answered "{}" "id-1" 1000) [] [] empty_request)))
       2000 "id-1")
  = Some "{}"%string.
Proof.
  pose proof (X18_store_then_fetch string (fun text => Some text) (fun p => p)
                (reads_only (envelope_of (fun p => p) Presenter.String_Z
                                         (answered "{}" "id-1" 1000) empty_request "{}"%string))
                writes_envelope Presenter.String_Z
                (answered "{}" "id-1" 1000) [] [] empty_request "{}"%string 2000
                sample_reaches_store eq_refl ltac:(discriminate) eq_refl eq_refl)
    as [_ [H _]].
  exact (f_equal (c_data string) H).
Defined.

Lemma X19_expired_like_unknown_witness :
  getCachedFlightOffers string (fun text => Some text) (fun _ => None) true
    (snd (fst (searchFlightOffers string (fun text => Some text) (fun p => p)
                 writes_envelope Presenter.String_Z
                 (answered "{}" "id-1" 1000) [] [] empty_request)))
    1801000 "id-1"
  = cached_failed string "Cached flight offers not found or expired".
Proof.
  exact (proj1 (X19_expired_like_unknown string (fun text => Some text) (fun p => p)
                  (fun _ => None) writes_envelope Presenter.String_Z
                  (answered "{}" "id-1" 1000) [] [] empty_request "{}"%string 1801000
                  sample_reaches_store ltac:(cbv; discriminate))).
Defined.

Lemma X20_handles_independent_witness :
  "id-1"%string <> "id-2"%string
  /\ getCachedFlightOffers string (fun text => Some text) (fun _ => None) true
       (snd (fst (searchFlightOffers string (fun text => Some text) (fun p => p)
                    writes_envelope Presenter.String_Z
                    (answered "{}" "id-2" 5000)
                    [("ngabroad:flight-offers:id-1"%string, ("x"%string, 9000000))] []
                    empty_request)))
       6000 "id-1"
     = getCachedFlightOffers string (fun text => Some text) (fun _ => None) true
         [("ngabroad:flight-offers:id-1"%string, ("x"%string, 9000000))] 6000 "id-1".
Proof.
  assert (H : "id-1"%string <> "id-2"%string) by discriminate.
  split; [exact H|].
  exact (proj1 (X20_handles_independent string (fun text => Some text) (fun p => p)
                  (fun _ => None) writes_envelope Presenter.String_Z
                  (answered "{}" "id-2" 5000)
                  [("ngabroad:flight-offers:id-1"%string, ("x"%string, 9000000))] []
                  empty_request 6000) "id-1"%string H).
Defined.

Lemma X21_stale_threshold_witness :
  digits_clock "1000" = Some 1000
  /\ isCacheExpired digits_clock 1801000 "1000" = true.
Proof.
  split; [reflexivity|].
  exact (proj2 (proj1 (X21_stale_threshold digits_clock 1801000 "1000") 1000 eq_refl)
           ltac:(cbv; discriminate)).
Defined.

Lemma X22_stale_before_dropped_witness :
  isCacheExpired digits_clock 1801000
    (createdAt (envelope_of (fun p : string => p) Presenter.String_Z
                            {| fetched := Ok {| Fetch.status := 200; Fetch.retryAfter := None;
                                                Fetch.payload := "{}" |};
                               uuid := "id-1"; created_at := 1000; expiry_base := 1001;
                               set_at := 1005; cookie_at := 1006;
                               redis_up := true; cookies_up := true |}
                            empty_request "{}"%string)) = true.
Proof.
  refine (proj1 (proj2 (proj2 (X22_stale_before_dropped string (fun text => Some text)
            (fun p => p) writes_envelope Presenter.String_Z digits_clock
            {| fetched := Ok {| Fetch.status := 200; Fetch.retryAfter := None;
                                Fetch.payload := "{}" |};
               uuid := "id-1"; created_at := 1000; expiry_base := 1001;
               set_at := 1005; cookie_at := 1006;
               redis_up := true; cookies_up := true |}
            [] [] empty_request "{}"%string 0 _ eq_refl _)) _)).
  - eexists. repeat split; reflexivity.
  - cbv; discriminate.
  - reflexivity.
Defined.

Lemma X23_relative_time_bands_witness :
  digits_clock "1000" = Some 1000
  /\ getRelativeTime digits_clock 7201000 "1000" = "2 hours ago"%string.
Proof.
  split; [reflexivity|].
  destruct (proj1 (proj2 (proj2 (proj1 (X23_relative_time_bands digits_clock 7201000 "1000")
                                   1000 eq_refl)))
              ltac:(split; cbv; congruence)) as [n [Hn [_ Htext]]].
  rewrite Htext, Hn. reflexivity.
Defined.

End X_cache_examples.

(* ================================================================== *)
(** * Properties of the location lookup *)
(* ================================================================== *)

Section LocationFacts.

Import Builder Locations.
Local Open Scope list_scope.



End LocationFacts.

Section X_locations.

Import Builder Locations.
Local Open Scope list_scope.



End X_locations.

(* ================================================================== *)
(** * From a search to the filtered page *)
(* ================================================================== *)

Section X_flow.

Import Cache.
Local Open Scope list_scope.

Variable Payload : Type.
Variable JSON_parse_payload : string -> option Payload.
Variable JSON_stringify_payload : Payload -> string.
Variable JSON_parse_envelope : string -> option Envelope.
Variable JSON_stringify_envelope : Envelope -> string.
Variable toISOString : Z -> string.
Variable truthy : Payload -> bool.
Variable offers_of : Payload -> option (list Offers.FlightOffer).
Variable Array_sort : (Offers.FlightOffer -> Offers.FlightOffer -> number)
                      -> list Offers.FlightOffer -> list Offers.FlightOffer.
Variable Date_getTime : string -> number.

(** X25. After a search that reaches the store and leaves its handle in
    the cookie, the filter tool called within 30 minutes computes its page
    from exactly the offers of that search, provided the stored payload is
    a truthy value (an object, as a provider response is); for a falsy
    payload ([null], say), and once the store has dropped the entry, it
    answers that the offers are not found or expired; and with no cookie
    at all it answers that there are no search results. *)
Theorem X25_search_then_filter (world : SearchWorld) (store : Redis) (jar : Jar)
        (request : Builder.FlightOffersSearchRequest) (flightData : Payload)
        (now_cookie now_store : Z)
        (airlines : option (list string)) (sortBy stops : string) (page limit : Z) :
  reaches_store JSON_parse_payload world flightData ->
  cookies_up world = true -> uuid world <> EmptyString ->
  JSON_parse_envelope
    (JSON_stringify_envelope
       (envelope_of JSON_stringify_payload toISOString world request flightData))
  = Some (envelope_of JSON_stringify_payload toISOString world request flightData) ->
  JSON_stringify_envelope
    (envelope_of JSON_stringify_payload toISOString world request flightData)
  <> EmptyString ->
  JSON_parse_payload (JSON_stringify_payload flightData) = Some flightData ->
  now_cookie < cookie_at world + 1800000 ->
  let after := searchFlightOffers Payload JSON_parse_payload JSON_stringify_payload
                 JSON_stringify_envelope toISOString world store jar request in
  let answer := FilterTool.execute Payload JSON_parse_payload JSON_parse_envelope
                  truthy offers_of Array_sort Date_getTime true true
                  (snd after) (snd (fst after))
                  now_cookie now_store airlines sortBy stops page limit in
  let offers := match offers_of flightData with Some l => l | None => [] end in
  let expired := FilterTool.Failure
        "Cached flight offers not found or expired. Please search for new flights using the getFlightOffers tool." in
  (truthy flightData = true -> now_store < set_at world + 1800000 ->
   answer = FilterTool.Page
              (fst (Offers.tool_page Array_sort Date_getTime offers airlines sortBy stops page limit))
              (snd (Offers.tool_page Array_sort Date_getTime offers airlines sortBy stops page limit)))
  /\ (truthy flightData = false -> answer = expired)
  /\ (set_at world + 1800000 <= now_store -> answer = expired)
  /\ FilterTool.execute Payload JSON_parse_payload JSON_parse_envelope
       truthy offers_of Array_sort Date_getTime true true [] (snd (fst after))
       now_cookie now_store airlines sortBy stops page limit
     = FilterTool.Failure
         "No flight search results available. Please search for flights first using the getFlightOffers tool.".
Proof.
  intros Hreach Hup Hid Henv Hne Hpay Hcookie after answer offers expired.
  assert (Hafter : after = _) by (apply search_reaching_store; exact Hreach).
  assert (Hkey : getCacheKeyCookie true (snd after) now_cookie = Some (uuid world)).
  { rewrite Hafter. cbn [snd]. rewrite Hup.
    unfold getCacheKeyCookie, setCacheKeyCookie, cookie_get, cookie_set.
    cbn [find fst]. rewrite String.eqb_refl.
    assert (Hlive : (now_cookie <? cookie_at world + 30 * 60 * 1000) = true)
      by (apply Z.ltb_lt; lia).
    rewrite Hlive. destruct (uuid world); [now elim Hid | reflexivity]. }
  split; [|split; [|split]].
  - intros Htruthy Hfresh. unfold answer, FilterTool.execute. rewrite Hkey.
    rewrite Hafter. cbn [fst snd].
    unfold getCachedFlightOffers. rewrite redis_get_set_same.
    assert (Hlive : (now_store <? set_at world + 1800 * 1000) = true)
      by (apply Z.ltb_lt; lia).
    rewrite Hlive.
    destruct (JSON_stringify_envelope
                (envelope_of JSON_stringify_payload toISOString world request flightData))
      as [|c text] eqn:Htext; [now elim Hne|].
    rewrite Henv. cbn [data envelope_of]. rewrite Hpay.
    cbn [c_success c_data]. rewrite Htruthy. reflexivity.
  - intros Hfalsy. unfold answer, FilterTool.execute. rewrite Hkey.
    rewrite Hafter. cbn [fst snd].
    unfold getCachedFlightOffers. rewrite redis_get_set_same.
    destruct (now_store <? set_at world + 1800 * 1000); [|reflexivity].
    destruct (JSON_stringify_envelope
                (envelope_of JSON_stringify_payload toISOString world request flightData))
      as [|c text] eqn:Htext; [now elim Hne|].
    rewrite Henv. cbn [data envelope_of]. rewrite Hpay.
    cbn [c_success c_data]. rewrite Hfalsy. reflexivity.
  - intros Hlate. unfold answer, FilterTool.execute. rewrite Hkey.
    rewrite Hafter. cbn [fst snd].
    unfold getCachedFlightOffers. rewrite redis_get_set_same.
    assert (Hdead : (now_store <? set_at world + 1800 * 1000) = false)
      by (apply Z.ltb_ge; lia).
    rewrite Hdead. reflexivity.
  - reflexivity.
Qed.

End X_flow.

Section X_flow_examples.

Import Cache.
Local Open Scope list_scope.

Lemma X25_search_then_filter_witness :
  FilterTool.execute string (fun text => Some text)
    (reads_only (envelope_of (fun p => p) Presenter.String_Z
                             (answered "{}" "id-1" 1000) empty_request "{}"%string))
    (fun p => negb (String.eqb p "null")) (fun _ => Some showcase)
    insertion_sort (fun _ => NaN) true true
    (snd (searchFlightOffers string (fun text => Some text) (fun p => p)
            writes_envelope Presenter.String_Z
            (answered "{}" "id-1" 1000) [] [] empty_request))
    (snd (fst (searchFlightOffers string (fun text => Some text) (fun p => p)
                 writes_envelope Presenter.String_Z
                 (answered "{}" "id-1" 1000) [] [] empty_request)))
    2000 2000 None "fastest" "any" 1 3
  = FilterTool.Page
      [direct "b" "EK" "PT2H5M" "120.50"; direct "c" "BA" "PT3H" "99";
       direct "a" "BA" "PT9H" "300"]
      {| Offers.page := 1; Offers.limit := 3; Offers.total := 4;
         Offers.totalPages := num_of_Z 2 |}.
Proof.
  exact (proj1 (X25_search_then_filter string (fun text => Some text) (fun p => p)
                  (reads_only (envelope_of (fun p => p) Presenter.String_Z
                                           (answered "{}" "id-1" 1000) empty_request
                                           "{}"%string))
                  writes_envelope Presenter.String_Z
                  (fun p => negb (String.eqb p "null")) (fun _ => Some showcase)
                  insertion_sort (fun _ => NaN)
                  (answered "{}" "id-1" 1000) [] [] empty_request "{}"%string
                  2000 2000 None "fastest" "any" 1 3
                  sample_reaches_store eq_refl ltac:(discriminate) eq_refl
                  ltac:(discriminate) eq_refl eq_refl) eq_refl eq_refl).
Defined.

End X_flow_examples.
